(** * SCons MSCommon diagnostics: log rotation, trace-flag resolution and
      call tracing (SCons/Tool/MSCommon/common.py)

    A shallow embedding of the classes [_MSCOMMON] and [_MSCOMMON_TRACE],
    of the logging filter and of the module-level functions [is_win64],
    [normalize_env] and [parse_output].
    Python [str] values are ASCII [string]s, unbounded Python integers are
    [Z], class attributes that the code assigns are fields of an explicit
    state record, and a raised exception is the [Raise] case of [result]. *)

From Stdlib Require Import ZArith List String Ascii Bool Lia.
From Stdlib Require Import DecimalString DecimalN DecimalPos.
Import ListNotations.

Open Scope list_scope.
Open Scope string_scope.
Open Scope Z_scope.

(** ** Exceptions and fallible results *)

Inductive exn : Type :=
| ValueError (msg : string)
| NameError (msg : string)
| TypeError (msg : string)
| IndexError (msg : string)
| KeyError (key : string).

Inductive result (A : Type) : Type :=
| Ok (a : A)
| Raise (e : exn).

Arguments Ok {A} a.
Arguments Raise {A} e.

Definition bind {A B : Type} (r : result A) (k : A -> result B) : result B :=
  match r with
  | Ok a => k a
  | Raise e => Raise e
  end.

Notation "x <- r ;; k" := (bind r (fun x => k))
  (at level 61, r at next level, right associativity).

(** ** The Python string and list operations the module uses *)

Module Py.

(** [s[:n]] for [0 <= n]. *)
Fixpoint take (n : nat) (s : string) : string :=
  match n, s with
  | S n', String c s' => String c (take n' s')
  | _, _ => ""
  end.

(** [s[n:]] for [0 <= n]. *)
Fixpoint drop (n : nat) (s : string) : string :=
  match n, s with
  | S n', String _ s' => drop n' s'
  | _, _ => s
  end.

(** [s[-k:]]: the last [k] characters, the whole string when it is shorter. *)
Definition last_chars (k : nat) (s : string) : string :=
  drop (String.length s - k) s.

(** [s[:-1]]. *)
Definition drop_last (s : string) : string :=
  take (String.length s - 1) s.

(** [l[-k:]] on lists. *)
Definition last_items {A : Type} (k : nat) (l : list A) : list A :=
  skipn (List.length l - k) l.

(** [s.startswith(p)] and [s.endswith(p)]. *)
Definition startswith (s p : string) : bool := String.prefix p s.

Definition endswith (s p : string) : bool :=
  (String.length p <=? String.length s)%nat
  && String.eqb (last_chars (String.length p) s) p.

(** Membership of a character in a set of characters given as a string. *)
Fixpoint char_in (c : ascii) (chars : string) : bool :=
  match chars with
  | "" => false
  | String d rest => Ascii.eqb c d || char_in c rest
  end.

Fixpoint lstrip (chars s : string) : string :=
  match s with
  | "" => ""
  | String c s' => if char_in c chars then lstrip chars s' else s
  end.

(** [rstrip] keeps a character when it is outside [chars] or when something
    is kept to its right. *)
Fixpoint rstrip (chars s : string) : string :=
  match s with
  | "" => ""
  | String c s' =>
      match rstrip chars s' with
      | "" => if char_in c chars then "" else String c ""
      | kept => String c kept
      end
  end.

(** [s.strip(chars)]: every leading and trailing character of [chars] goes. *)
Definition strip (chars s : string) : string := rstrip chars (lstrip chars s).

(** [sub in s]. *)
Fixpoint contains (sub s : string) : bool :=
  String.prefix sub s
  || match s with
     | "" => false
     | String _ s' => contains sub s'
     end.

(** [s.rfind(sub)] as an option: the highest index at which [sub] occurs.
    [s.rindex(sub)] raises [ValueError] exactly when this is [None]. *)
Fixpoint rfind (sub s : string) : option nat :=
  match s with
  | "" => if String.prefix sub "" then Some 0%nat else None
  | String _ s' =>
      match rfind sub s' with
      | Some i => Some (S i)
      | None => if String.prefix sub s then Some 0%nat else None
      end
  end.

(** [s.rfind(c)] for a one-character [c], with Python's [-1] for a miss. *)
Definition rfind_chr (c : ascii) (s : string) : Z :=
  match rfind (String c "") s with
  | Some i => Z.of_nat i
  | None => -1
  end.

(** [s.split(sep)] for a one-character separator: never the empty list. *)
Fixpoint split (sep : ascii) (s : string) : list string :=
  match s with
  | "" => [""]
  | String c s' =>
      if Ascii.eqb c sep then "" :: split sep s'
      else match split sep s' with
           | piece :: rest => String c piece :: rest
           | [] => [String c ""]
           end
  end.

(** [s.replace(a, b)] for one-character [a] and [b]. *)
Fixpoint replace (a b : ascii) (s : string) : string :=
  match s with
  | "" => ""
  | String c s' => String (if Ascii.eqb c a then b else c) (replace a b s')
  end.

(** [c * n] for a one-character string [c]. *)
Fixpoint repeat_chr (c : ascii) (n : nat) : string :=
  match n with
  | O => ""
  | S n' => String c (repeat_chr c n')
  end.

Fixpoint repeat_str (lit : string) (n : nat) : string :=
  match n with
  | O => ""
  | S n' => lit ++ repeat_str lit n'
  end.

(** [lit * n] for a string [lit]; a negative count gives the empty string. *)
Definition str_mul (lit : string) (n : Z) : string :=
  repeat_str lit (Z.to_nat n).

(** ["%d" % n]. *)
Definition fmt_d (n : Z) : string := NilEmpty.string_of_int (Z.to_int n).

(** ["%04d" % n]: zero padding to width four, the sign counted in. *)
Definition fmt_04d (n : Z) : string :=
  let digits := NilEmpty.string_of_uint (N.to_uint (Z.to_N (Z.abs n))) in
  if n <? 0
  then "-" ++ repeat_chr "0" (3 - String.length digits) ++ digits
  else repeat_chr "0" (4 - String.length digits) ++ digits.

(** *** [int(s, base)] for base 0 and base 10 *)

(** White space as [int] skips it around a literal: tab, newline, vertical
    tab, form feed, carriage return and space, and of the code points from
    128 to 255 the two that are spaces to [str.isspace], U+0085 and U+00A0
    ([int] turns the spaces of a text that is not ASCII into [" "] first). *)
Definition is_space (c : ascii) : bool :=
  let n := nat_of_ascii c in
  ((9 <=? n) && (n <=? 13) || (n =? 32) || (n =? 133) || (n =? 160))%nat.

Fixpoint lstrip_space (s : string) : string :=
  match s with
  | "" => ""
  | String c s' => if is_space c then lstrip_space s' else s
  end.

(** The value of a digit character in bases up to 36. *)
Definition digit_value (c : ascii) : option Z :=
  let n := Z.of_nat (nat_of_ascii c) in
  if (48 <=? n) && (n <=? 57) then Some (n - 48)
  else if (97 <=? n) && (n <=? 122) then Some (n - 87)
  else if (65 <=? n) && (n <=? 90) then Some (n - 55)
  else None.

Definition is_digit_of (base : Z) (c : ascii) : bool :=
  match digit_value c with
  | Some d => d <? base
  | None => false
  end.

(** The digit run of a literal: digits of [base] with single underscores
    between them.  [prev_us] tells that the previous character was an
    underscore; [acc] is the value read so far.  The result is the value and
    the unread rest, or [None] for a doubled or trailing underscore. *)
Fixpoint scan_digits (base : Z) (prev_us : bool) (acc : Z) (s : string)
  : option (Z * string) :=
  match s with
  | "" => if prev_us then None else Some (acc, "")
  | String c s' =>
      if Ascii.eqb c "_"
      then if prev_us then None else scan_digits base true acc s'
      else match digit_value c with
           | Some d =>
               if d <? base then scan_digits base false (acc * base + d) s'
               else if prev_us then None else Some (acc, s)
           | None => if prev_us then None else Some (acc, s)
           end
  end.

(** The magnitude of a literal, after the sign: an optional base prefix when
    [base0] is set, then the digit run, which must not be empty nor start
    with an underscore.  A base-0 literal starting with [0] and no prefix
    must be zero. *)
Definition scan_magnitude (base0 : bool) (s : string) : option (Z * string) :=
  let run (base : Z) (body : string) : option (Z * string) :=
    match body with
    | "" => None
    | String c _ =>
        if Ascii.eqb c "_" then None
        else if is_digit_of base c then scan_digits base false 0 body
        else None
    end in
  let prefixed (base : Z) (body : string) : option (Z * string) :=
    match body with
    | String "_" body' => run base body'
    | _ => run base body
    end in
  if base0 then
    match s with
    | String "0" (String x body) =>
        if char_in x "xX" then prefixed 16 body
        else if char_in x "oO" then prefixed 8 body
        else if char_in x "bB" then prefixed 2 body
        else match run 10 s with
             | Some (v, rest) => if v =? 0 then Some (v, rest) else None
             | None => None
             end
    | _ => run 10 s
    end
  else run 10 s.

(** [int(s, 0)] when [base0] is set and [int(s)] otherwise; [None] stands
    for the [ValueError] of an invalid literal. *)
Definition int_of_str (base0 : bool) (s : string) : option Z :=
  let s := lstrip_space s in
  let '(negative, body) :=
    match s with
    | String "+" s' => (false, s')
    | String "-" s' => (true, s')
    | _ => (false, s)
    end in
  match scan_magnitude base0 body with
  | Some (v, rest) =>
      match lstrip_space rest with
      | "" => Some (if negative then - v else v)
      | _ => None
      end
  | None => None
  end.

(** *** [repr] of a [str], and the message of a refused [int(s)] *)

Definition hex_digit (n : nat) : ascii :=
  nth n (list_ascii_of_string "0123456789abcdef") "0"%char.

(** The code points below 256 that [repr] shows as they are. *)
Definition is_printable (c : ascii) : bool :=
  let n := nat_of_ascii c in
  ((32 <=? n) && (n <=? 126) || (161 <=? n) && negb (n =? 173))%nat.

(** One character inside the quotes [quote]: the quote and the backslash
    are escaped, tab, newline and carriage return have their letters, and
    any other character that is not printable is written as [x] and two
    hexadecimal digits after a backslash. *)
Definition repr_chr (quote c : ascii) : string :=
  let n := nat_of_ascii c in
  if Ascii.eqb c quote || Ascii.eqb c "092"%char
  then String "092" (String c "")
  else if Ascii.eqb c "009"%char then String "092" "t"
  else if Ascii.eqb c "010"%char then String "092" "n"
  else if Ascii.eqb c "013"%char then String "092" "r"
  else if is_printable c then String c ""
  else String "092"
         (String "x"
            (String (hex_digit (n / 16)) (String (hex_digit (n mod 16)) ""))).

Fixpoint repr_body (quote : ascii) (s : string) : string :=
  match s with
  | "" => ""
  | String c s' => repr_chr quote c ++ repr_body quote s'
  end.

(** [repr(s)]: in single quotes, unless [s] holds a single quote and no
    double quote. *)
Definition repr_str (s : string) : string :=
  let quote :=
    if char_in "039" s && negb (char_in "034" s)
    then "034"%char else "039"%char in
  String quote (repr_body quote s ++ String quote "").

(** The message of the [ValueError] that [int(s)] raises: its format is
    ["invalid literal for int() with base %d: %.200R"], so [repr(s)] is cut
    after 200 characters. *)
Definition invalid_literal (s : string) : string :=
  "invalid literal for int() with base 10: " ++ take 200 (repr_str s).

(** *** [sorted] on strings: code-point order *)

Fixpoint insert_sorted (x : string) (l : list string) : list string :=
  match l with
  | [] => [x]
  | y :: l' => if String.leb x y then x :: l else y :: insert_sorted x l'
  end.

Definition sorted (l : list string) : list string :=
  fold_right insert_sorted [] l.

End Py.

(** ** The host: file-name matching and path conventions *)

(** What the module sees of its host: the answers of [glob.glob] and the
    separators [os.path.splitext] looks for. *)
Record host : Type := {
  glob_glob : string -> list string;
  os_sep : ascii;
  os_altsep : option ascii
}.

Module OsPath.

Fixpoint all_dots (s : string) : bool :=
  match s with
  | "" => true
  | String c s' => Ascii.eqb c "." && all_dots s'
  end.

(** [os.path.splitext]: the extension starts at the last dot of the last
    path component, unless only dots precede it there. *)
Definition splitext (h : host) (p : string) : string * string :=
  let sepIndex := Py.rfind_chr (os_sep h) p in
  let sepIndex :=
    match os_altsep h with
    | Some alt => Z.max sepIndex (Py.rfind_chr alt p)
    | None => sepIndex
    end in
  let dotIndex := Py.rfind_chr "." p in
  if sepIndex <? dotIndex then
    let lead := Py.take (Z.to_nat (dotIndex - (sepIndex + 1)))
                  (Py.drop (Z.to_nat (sepIndex + 1)) p) in
    if all_dots lead then (p, "")
    else (Py.take (Z.to_nat dotIndex) p, Py.drop (Z.to_nat dotIndex) p)
  else (p, "").

End OsPath.

(** A POSIX host whose file system holds exactly the paths [paths], spelled
    the way a pattern would spell them.  Matching is [fnmatch]'s for the
    wildcards [*] and [?], one path component at a time: a wildcard does not
    cross a [/], and a component that starts with a dot is matched only by a
    pattern component that starts with a dot. *)
Module Directory.

Definition hidden (name : string) : bool :=
  match name with
  | String "." _ => true
  | _ => false
  end.

(** [fnmatch pat name], [start] telling that both are at the start of a
    path component. *)
Fixpoint fnmatch (start : bool) (pat name : string) {struct pat} : bool :=
  match pat with
  | "" => match name with "" => true | _ => false end
  | String "*" pat' =>
      if start && hidden name then false
      else
        (fix star (name : string) {struct name} : bool :=
           fnmatch false pat' name
           || match name with
              | "" => false
              | String c name' =>
                  if Ascii.eqb c "/" then false else star name'
              end) name
  | String "?" pat' =>
      match name with
      | "" => false
      | String c name' =>
          if Ascii.eqb c "/" then false
          else if start && Ascii.eqb c "." then false
          else fnmatch false pat' name'
      end
  | String p pat' =>
      match name with
      | "" => false
      | String c name' => Ascii.eqb p c && fnmatch (Ascii.eqb c "/") pat' name'
      end
  end.

Definition posix (paths : list string) : host :=
  {| glob_glob := fun pat => filter (fnmatch true pat) paths;
     os_sep := "/";
     os_altsep := None |}.

End Directory.

(** The two path conventions: [posixpath] and [ntpath]. *)
Definition posixpath (h : host) : Prop :=
  os_sep h = "/"%char /\ os_altsep h = None.

Definition ntpath (h : host) : Prop :=
  os_sep h = "\"%char /\ os_altsep h = Some "/"%char.

(** ** The built-ins [compile] and [eval]

    [get_trace_display_traceflags] hands the verbosity text to the Python
    built-ins [compile] and [eval].  The resolver is written against this
    interface; [MiniPy] below implements it for the integer expressions the
    trace flags are written in.

    Two limits of the interface.  [co_names] is the attribute of the code
    object that [compile] returns: it lists the names which that code object
    itself loads, and not those used only inside a nested code object, such
    as the body of a [lambda]; the resolver looks at no other names.  And
    [py_eval] gives integers: [eval] can return any Python value, which the
    resolver would cache as it is, and code that evaluates to something other
    than an [int] is outside the interface. *)

Class PyBuiltins : Type := {
  (** code objects *)
  code : Type;
  (** [code.co_names]: the names this code object loads, each once, in the
      order of their first use; names of nested code objects are not among
      them *)
  co_names : code -> list string;
  (** [compile(source, "<string>", "eval")]; [None] when it raises *)
  py_compile : string -> option code;
  (** [eval(code, {"__builtins__": {}}, symbols)] when the value is an
      [int]; [None] when it raises *)
  py_eval : code -> list (string * Z) -> option Z
}.

(** Python dictionaries with string keys, in insertion order. *)
Module Dict.

Fixpoint get {V : Type} (d : list (string * V)) (key : string) : option V :=
  match d with
  | [] => None
  | (k, v) :: d' => if String.eqb k key then Some v else get d' key
  end.

(** [d[key] = v]: overwrite in place or append. *)
Fixpoint set {V : Type} (d : list (string * V)) (key : string) (v : V)
  : list (string * V) :=
  match d with
  | [] => [(key, v)]
  | (k, v0) :: d' =>
      if String.eqb k key then (k, v) :: d' else (k, v0) :: set d' key v
  end.

(** [key in d]. *)
Definition mem {V : Type} (d : list (string * V)) (key : string) : bool :=
  match get d key with
  | Some _ => true
  | None => false
  end.

End Dict.

(** Integer expressions of Python: integer literals in the four bases, names,
    parentheses, the unary operators [+ - ~] and the binary operators
    [| ^ & << >> + - * // %] with Python's precedences, separated by spaces
    and tabs.  This is a fragment of what [compile] takes: [compile] here
    answers [None] for every text outside the grammar, also for text that
    Python does compile (a power [2**3], a conditional expression, a
    [lambda], a comparison, a string, a call, a trailing newline or
    comment).  So a [None] of this instance stands for a failure of Python's
    [compile] only where the text is no expression at all, as for text that
    starts with a space or a tab, an operator without its operand, or an
    unbalanced parenthesis; the properties below use the instance inside
    the grammar and at such texts.  No code object of the fragment has a
    nested code object, so [co_names] lists every name of the text. *)
Module MiniPy.

Inductive unop : Type := UAdd | USub | Invert.

Inductive binop : Type :=
| BitOr | BitXor | BitAnd | LShift | RShift | Add | Sub | Mult | FloorDiv | Mod.

Inductive expr : Type :=
| Constant (n : Z)
| Name (id : string)
| UnaryOp (op : unop) (operand : expr)
| BinOp (left : expr) (op : binop) (right : expr).

Inductive token : Type :=
| TNumber (n : Z)
| TName (id : string)
| TBinary (op : binop)      (* an operator that is only binary *)
| TSign (negative : bool)   (* [+] or [-]: unary or binary by position *)
| TTilde
| TLPar
| TRPar.

Definition is_word_char (c : ascii) : bool :=
  let n := Z.of_nat (nat_of_ascii c) in
  (48 <=? n) && (n <=? 57) || (97 <=? n) && (n <=? 122)
  || (65 <=? n) && (n <=? 90) || (n =? 95).

Definition is_decimal_digit (c : ascii) : bool :=
  let n := Z.of_nat (nat_of_ascii c) in (48 <=? n) && (n <=? 57).

Definition keywords : list string :=
  [ "False"; "None"; "True"; "and"; "as"; "assert"; "async"; "await";
    "break"; "class"; "continue"; "def"; "del"; "elif"; "else"; "except";
    "finally"; "for"; "from"; "global"; "if"; "import"; "in"; "is";
    "lambda"; "nonlocal"; "not"; "or"; "pass"; "raise"; "return"; "try";
    "while"; "with"; "yield" ].

(** A maximal run of letters, digits and underscores is an integer literal
    when it starts with a digit and an identifier otherwise. *)
Definition word_token (w : string) : option token :=
  match w with
  | "" => None
  | String c _ =>
      if is_decimal_digit c then
        match Py.scan_magnitude true w with
        | Some (n, "") => Some (TNumber n)
        | _ => None
        end
      else if existsb (String.eqb w) keywords then None
      else Some (TName w)
  end.

(** Close the word read so far, if any, in front of the tokens after it. *)
Definition flush (word : string) (rest : option (list token))
  : option (list token) :=
  match rest with
  | None => None
  | Some ts =>
      match word with
      | "" => Some ts
      | _ => match word_token word with
             | Some t => Some (t :: ts)
             | None => None
             end
      end
  end.

Definition cons_token (t : token) (rest : option (list token))
  : option (list token) :=
  match rest with
  | Some ts => Some (t :: ts)
  | None => None
  end.

(** The tokenizer; [word] holds the characters of the word being read. *)
Fixpoint lex (word : string) (s : string) {struct s} : option (list token) :=
  match s with
  | "" => flush word (Some [])
  | String c s' =>
      if is_word_char c then lex (word ++ String c "") s'
      else
        flush word
          match c, s' with
          | " "%char, _ => lex "" s'
          | "009"%char, _ => lex "" s'
          | "|"%char, _ => cons_token (TBinary BitOr) (lex "" s')
          | "^"%char, _ => cons_token (TBinary BitXor) (lex "" s')
          | "&"%char, _ => cons_token (TBinary BitAnd) (lex "" s')
          | "<"%char, String "<" s'' => cons_token (TBinary LShift) (lex "" s'')
          | ">"%char, String ">" s'' => cons_token (TBinary RShift) (lex "" s'')
          | "/"%char, String "/" s'' => cons_token (TBinary FloorDiv) (lex "" s'')
          | "*"%char, String "*" _ => None
          | "*"%char, _ => cons_token (TBinary Mult) (lex "" s')
          | "%"%char, _ => cons_token (TBinary Mod) (lex "" s')
          | "+"%char, _ => cons_token (TSign false) (lex "" s')
          | "-"%char, _ => cons_token (TSign true) (lex "" s')
          | "~"%char, _ => cons_token TTilde (lex "" s')
          | "("%char, _ => cons_token TLPar (lex "" s')
          | ")"%char, _ => cons_token TRPar (lex "" s')
          | _, _ => None
          end
  end.

(** Binding strength of the binary operators, weakest first. *)
Definition precedence (op : binop) : Z :=
  match op with
  | BitOr => 1
  | BitXor => 2
  | BitAnd => 3
  | LShift | RShift => 4
  | Add | Sub => 5
  | Mult | FloorDiv | Mod => 6
  end.

(** Pending operators of the operator-precedence parser. *)
Inductive pending : Type :=
| PUnary (op : unop)
| PBinary (op : binop)
| PParen.

(** Apply the pending operators that bind at least as strongly as [level],
    down to the nearest open parenthesis. *)
Fixpoint reduce (level : Z) (ops : list pending) (out : list expr)
  : option (list pending * list expr) :=
  match ops with
  | PUnary op :: ops' =>
      match out with
      | e :: out' => reduce level ops' (UnaryOp op e :: out')
      | [] => None
      end
  | PBinary op :: ops' =>
      if level <=? precedence op then
        match out with
        | r :: l :: out' => reduce level ops' (BinOp l op r :: out')
        | _ => None
        end
      else Some (ops, out)
  | _ => Some (ops, out)
  end.

(** The parser proper: [operand] tells that an operand is expected next. *)
Fixpoint parse (ts : list token) (operand : bool)
    (ops : list pending) (out : list expr) : option expr :=
  match ts with
  | [] =>
      if operand then None
      else match reduce 0 ops out with
           | Some ([], [e]) => Some e
           | _ => None
           end
  | t :: ts' =>
      if operand then
        match t with
        | TNumber n => parse ts' false ops (Constant n :: out)
        | TName id => parse ts' false ops (Name id :: out)
        | TSign negative =>
            parse ts' true (PUnary (if negative then USub else UAdd) :: ops) out
        | TTilde => parse ts' true (PUnary Invert :: ops) out
        | TLPar => parse ts' true (PParen :: ops) out
        | _ => None
        end
      else
        let binary (op : binop) :=
          match reduce (precedence op) ops out with
          | Some (ops', out') => parse ts' true (PBinary op :: ops') out'
          | None => None
          end in
        match t with
        | TBinary op => binary op
        | TSign negative => binary (if negative then Sub else Add)
        | TRPar =>
            match reduce 0 ops out with
            | Some (PParen :: ops', out') => parse ts' false ops' out'
            | _ => None
            end
        | _ => None
        end
  end.

(** [compile]: text starting with a space or a tab is an indentation error. *)
Definition compile (source : string) : option expr :=
  match source with
  | String " " _ => None
  | String "009" _ => None
  | _ => match lex "" source with
         | Some ts => parse ts true [] []
         | None => None
         end
  end.

(** The names of an expression in evaluation order, each once. *)
Fixpoint names_of (e : expr) (seen : list string) : list string :=
  match e with
  | Constant _ => seen
  | Name id => if existsb (String.eqb id) seen then seen else seen ++ [id]
  | UnaryOp _ operand => names_of operand seen
  | BinOp l _ r => names_of r (names_of l seen)
  end.

(** [eval]: [None] for an undefined name, a negative shift count and a
    zero divisor. *)
Fixpoint eval (e : expr) (symbols : list (string * Z)) : option Z :=
  match e with
  | Constant n => Some n
  | Name id => Dict.get symbols id
  | UnaryOp op operand =>
      match eval operand symbols with
      | Some v =>
          Some match op with
               | UAdd => v
               | USub => - v
               | Invert => Z.lnot v
               end
      | None => None
      end
  | BinOp l op r =>
      match eval l symbols, eval r symbols with
      | Some a, Some b =>
          match op with
          | BitOr => Some (Z.lor a b)
          | BitXor => Some (Z.lxor a b)
          | BitAnd => Some (Z.land a b)
          | LShift => if b <? 0 then None else Some (Z.shiftl a b)
          | RShift => if b <? 0 then None else Some (Z.shiftr a b)
          | Add => Some (a + b)
          | Sub => Some (a - b)
          | Mult => Some (a * b)
          | FloorDiv => if b =? 0 then None else Some (a / b)
          | Mod => if b =? 0 then None else Some (a mod b)
          end
      | _, _ => None
      end
  end.

#[export] Instance builtins : PyBuiltins := {|
  code := expr;
  co_names := fun e => names_of e [];
  py_compile := compile;
  py_eval := eval
|}.

End MiniPy.

(** ** class [_MSCOMMON] *)

Module MSCOMMON.

(** The quote characters, by code: double quote and single quote. *)
Definition DQUOTE : string := String "034" "".
Definition SQUOTE : string := String "039" "".
Definition DQUOTE3 : string := DQUOTE ++ DQUOTE ++ DQUOTE.

(** bitflags for selectively enabling trace output *)
Definition TRACE_DISPLAY_FUNCTION_ARGLIST : Z := 1.
Definition TRACE_DISPLAY_FUNCTION_LOCATION : Z := 2.
Definition TRACE_DISPLAY_RETURN_VALUES : Z := 4.
Definition TRACE_DISPLAY_ALLFRAMES_ONEBELOW : Z := 8.

(** default trace output (numeric) *)
Definition TRACE_DISPLAY_DEFAULT : Z :=
  Z.lor TRACE_DISPLAY_FUNCTION_ARGLIST
    (Z.lor TRACE_DISPLAY_FUNCTION_LOCATION TRACE_DISPLAY_RETURN_VALUES).

Definition TRACE_DISPLAY_SYMBOLS : list (string * Z) :=
  [ ("TRACE_DISPLAY_FUNCTION_ARGLIST", TRACE_DISPLAY_FUNCTION_ARGLIST);
    ("TRACE_DISPLAY_FUNCTION_LOCATION", TRACE_DISPLAY_FUNCTION_LOCATION);
    ("TRACE_DISPLAY_RETURN_VALUES", TRACE_DISPLAY_RETURN_VALUES);
    ("TRACE_DISPLAY_ALLFRAMES_ONEBELOW", TRACE_DISPLAY_ALLFRAMES_ONEBELOW) ].

Definition FILENAME_SERIALNBR : string := "-#".
Definition FILENAME_SERIALNBR_0 : ascii := "-".
Definition FILENAME_NBRFORMAT (n : Z) : string := Py.fmt_04d n.

(** The class attributes that methods assign. *)
Record state : Type := {
  _last_n : option Z;
  _TRACEFLAGS : option Z
}.

Definition initial : state := {| _last_n := None; _TRACEFLAGS := None |}.

Definition set_last_n (st : state) (n : Z) : state :=
  {| _last_n := Some n; _TRACEFLAGS := _TRACEFLAGS st |}.

Definition set_TRACEFLAGS (st : state) (v : Z) : state :=
  {| _last_n := _last_n st; _TRACEFLAGS := Some v |}.

Definition _get_next_serialnbr (h : host) (fileglob : string) : result Z :=
  let matches := glob_glob h fileglob in
  match matches with
  | [] => Ok 1
  | _ :: _ =>
      let matches := Py.sorted matches in
      let '(root, ext) := OsPath.splitext h (List.last matches "") in
      match Py.int_of_str false
              (List.last (Py.split FILENAME_SERIALNBR_0 root) "") with
      | Some n => Ok (n + 1)
      | None =>
          Raise (ValueError
                   (Py.invalid_literal
                      (List.last (Py.split FILENAME_SERIALNBR_0 root) "")))
      end
  end.

Definition _get_filename (root : string) (n : Z) (ext : string) : string :=
  root ++ FILENAME_NBRFORMAT n ++ ext.

(** The template is marked when the root that [splitext] leaves ends in
    [FILENAME_SERIALNBR]. *)
Definition is_marked (h : host) (filename : string) : bool :=
  let '(root, ext) := OsPath.splitext h filename in
  negb (String.eqb root "")
  && String.eqb (Py.last_chars (String.length FILENAME_SERIALNBR) root)
       FILENAME_SERIALNBR.

(** [rewrite_filename(filename, sync)]; [filename] is [None] when the
    environment variable is unset. *)
Definition rewrite_filename (h : host) (filename : option string)
    (sync : bool) (st : state) : result (option string) * state :=
  match filename with
  | None => (Ok filename, st)
  | Some "" => (Ok filename, st)
  | Some name =>
      let '(root, ext) := OsPath.splitext h name in
      if String.eqb root ""
         || negb (String.eqb
                    (Py.last_chars (String.length FILENAME_SERIALNBR) root)
                    FILENAME_SERIALNBR)
      then (Ok filename, st)
      else
        let root := Py.drop_last root in
        match sync, _last_n st with
        | true, Some n => (Ok (Some (_get_filename root n ext)), st)
        | _, _ =>
            let fileglob := root ++ "*" ++ ext in
            match _get_next_serialnbr h fileglob with
            | Raise e => (Raise e, st)
            | Ok n =>
                let st := if sync then st else set_last_n st n in
                (Ok (Some (_get_filename root n ext)), st)
            end
        end
  end.

Definition modulelist_debug : list string :=
  [ "MSCommon"; "Tool"; "lib"; "SCons"; "test"; "scons" ].

Definition modulelist_trace : list string :=
  [ "lib"; "SCons"; "test"; "scons" ].

Fixpoint get_relative_filename_from (filename : string)
    (module_list : list string) : string :=
  match module_list with
  | [] => filename
  | module :: rest =>
      match Py.rfind module filename with
      | Some ind => Py.drop ind filename
      | None => get_relative_filename_from filename rest
      end
  end.

Definition get_relative_filename (filename : string)
    (module_list : list string) : string :=
  match filename with
  | "" => filename
  | _ => get_relative_filename_from filename module_list
  end.

(** The tail shared by [get_relative_module] and [get_module]: cut the text
    at its last dot and turn backslashes into slashes. *)
Definition strip_extension (name : string) : string :=
  let modname :=
    match Py.rfind "." name with
    | Some ind => Py.take ind name
    | None => name
    end in
  Py.replace "\" "/" modname.

Definition get_relative_module (filename : string)
    (module_list : list string) : string :=
  match filename with
  | "" => filename
  | String "<" _ => filename
  | _ => strip_extension (get_relative_filename filename module_list)
  end.

Definition get_module (filename : string) : string :=
  match filename with
  | "" => filename
  | String "<" _ => filename
  | _ => strip_extension filename
  end.

(** The loop that strips balanced outer quotes.  Every round but the last
    shortens the text, so [String.length envstr + 1] rounds are enough;
    [None] is the loop cut short. *)
Inductive stripped : Type :=
| Emptied
| Remaining (envstr : string).

Fixpoint strip_outer_quotes (rounds : nat) (envstr : string)
  : option stripped :=
  match rounds with
  | O => None
  | S rounds' =>
      let again (envstr : string) :=
        match envstr with
        | "" => Some Emptied
        | _ => strip_outer_quotes rounds' envstr
        end in
      if Py.startswith envstr DQUOTE && Py.endswith envstr DQUOTE
      then again (Py.strip DQUOTE envstr)
      else if Py.startswith envstr SQUOTE && Py.endswith envstr SQUOTE
      then again (Py.strip SQUOTE envstr)
      else if Py.startswith envstr DQUOTE3 && Py.endswith envstr DQUOTE3
      then again (Py.strip DQUOTE3 envstr)
      else Some (Remaining envstr)
  end.

(** The symbol table: long names and short names. *)
Definition prefix_TRACE_DISPLAY : string := "TRACE_DISPLAY_".

Definition symbols : list (string * Z) :=
  fold_left
    (fun symbols '(key, value) =>
       let symbols := Dict.set symbols key value in
       if Py.startswith key prefix_TRACE_DISPLAY
       then Dict.set symbols
              (Py.drop (String.length prefix_TRACE_DISPLAY) key)
              value
       else symbols)
    TRACE_DISPLAY_SYMBOLS [].

(** The first name of [names] that the symbol table lacks. *)
Definition first_undefined (names : list string) : option string :=
  List.find (fun co_name => negb (Dict.mem symbols co_name)) names.

(** [get_trace_display_traceflags()], with [TRACEFLAGS_ENV] the value of
    the environment variable.  The outer [option] is [None] only if the
    quote loop were cut short. *)
Definition get_trace_display_traceflags `{PyBuiltins}
    (TRACEFLAGS_ENV : option string) (st : state)
  : option (result Z * state) :=
  match _TRACEFLAGS st with
  | Some flags => Some (Ok flags, st)
  | None =>
      match TRACEFLAGS_ENV with
      | None => Some (Ok TRACE_DISPLAY_DEFAULT, set_TRACEFLAGS st TRACE_DISPLAY_DEFAULT)
      | Some env =>
          match strip_outer_quotes (S (String.length env)) env with
          | None => None
          | Some Emptied =>
              Some (Ok TRACE_DISPLAY_DEFAULT, set_TRACEFLAGS st TRACE_DISPLAY_DEFAULT)
          | Some (Remaining envstr) =>
              Some
                match Py.int_of_str true envstr with
                | Some flags => (Ok flags, set_TRACEFLAGS st flags)
                | None =>
                    match py_compile envstr with
                    | None =>
                        (Raise (ValueError
                           ("Trace display compilation failed: " ++ env)), st)
                    | Some code =>
                        match first_undefined (co_names code) with
                        | Some co_name =>
                            (Raise (NameError
                               ("Undefined trace display symbol: " ++ co_name)), st)
                        | None =>
                            match py_eval code symbols with
                            | Some flags => (Ok flags, set_TRACEFLAGS st flags)
                            | None =>
                                (Raise (ValueError
                                   ("Trace display evaluation failed: " ++ env)), st)
                            end
                        end
                    end
                end
          end
      end
  end.

End MSCOMMON.

(** ** class [_MSCOMMON_TRACE] *)

Module MSCOMMON_TRACE.

(** *** Frames *)

Record CodeType : Type := {
  co_name : string;
  co_filename : string;
  co_argcount : nat;
  co_varnames : list string
}.

(** A live frame.  [f_locals] maps a local name to the [repr] of its value;
    [f_back] is the calling frame, [None] at the root of the stack. *)
#[warning="-register-all"]
Inductive FrameType : Type := Frame {
  f_code : CodeType;
  f_lineno : Z;
  f_locals : list (string * string);
  f_back : option FrameType
}.

(** *** Class attributes fixed when the class is created *)

(** [TRACEFLAGS] is the resolved mask; [DEBUG_LOGGING] is
    [_MSCOMMON.DEBUG_LOGGING]. *)
Record config : Type := {
  TRACEFLAGS : Z;
  DEBUG_LOGGING : bool
}.

Definition flag_set (cfg : config) (flag : Z) : bool :=
  negb (Z.land (TRACEFLAGS cfg) flag =? 0).

Definition DISPLAY_FUNCTION_ARGLIST (cfg : config) : bool :=
  flag_set cfg MSCOMMON.TRACE_DISPLAY_FUNCTION_ARGLIST.

Definition DISPLAY_FUNCTION_LOCATION (cfg : config) : bool :=
  flag_set cfg MSCOMMON.TRACE_DISPLAY_FUNCTION_LOCATION.

Definition DISPLAY_RETURN_VALUES (cfg : config) : bool :=
  flag_set cfg MSCOMMON.TRACE_DISPLAY_RETURN_VALUES.

Definition DISPLAY_ALLFRAMES_ONEBELOW (cfg : config) : bool :=
  flag_set cfg MSCOMMON.TRACE_DISPLAY_ALLFRAMES_ONEBELOW.

(** number of frames above the current module *)
Definition FRAME_CALLER_FRAMES : Z := 5.

(** function argument values of interest *)
Definition FRAME_ARGUMENT_VALUES : list string :=
  [ "version"; "msvc_version"; "name"; "key"; "path"; "value"; "host_arch";
    "target_arch"; "vc_specific_version"; "vc_product"; "search_version";
    "rollback" ].

(** when enabled, ignore these module/function returns *)
Definition RETURN_IGNORELIST_ENABLED : bool := true.

Definition RETURN_IGNORELIST_FUNCTIONS : list (string * string) :=
  [ ("lib/_weakrefset", "_remove");
    ("lib/codecs", "__init__");
    ("lib/subprocess", "Close");
    ("lib/subprocess", "__del__");
    ("lib/logging/__init__", "debug");
    ("SCons/Environment", "__setitem__");
    ("SCons/Environment", "PrependENVPath");
    ("SCons/Tool/MSCommon/sdk", "__init__");
    ("SCons/Tool/MSCommon/vs", "__init__");
    ("SCons/Tool/MSCommon/vc", "__init__");
    ("SCons/Tool/MSCommon/common", "debug");
    ("SCons/Tool/MSCommon/common", "add_env");
    ("SCons/Tool/MSCommon/common", "write_script_env_cache") ].

(** ignore internal debug calls *)
Definition DEBUG_IGNORELIST_ENABLED : bool := true.

Definition DEBUG_IGNORELIST_FUNCTIONS (cfg : config) : list (string * string) :=
  if negb (DEBUG_LOGGING cfg)
  then [ ("SCons/Tool/MSCommon/common", "debug") ]
  else [ ("SCons/Tool/MSCommon/common", "get_relative_filename");
         ("SCons/Tool/MSCommon/common", "filter") ].

Definition DEBUG_ALLOWLIST_ENABLED (cfg : config) : bool := DEBUG_LOGGING cfg.

Definition DEBUG_ALLOWLIST_FUNCTIONS : list (string * string) :=
  [ ("lib/logging/__init__", "debug") ].

(** function call indentation *)
Definition FRAME_INDENT_NSPACES : Z := 2.
Definition FRAME_INDENT_LITERAL : string := Py.str_mul " " FRAME_INDENT_NSPACES.

(** parent module of this script: [__name__.split('.')[-2]] for the module
    name [SCons.Tool.MSCommon.common] *)
Definition PARENT_MODULE : string := "MSCommon".

(** trace events of interest *)
Definition FRAME_TRACE_EVENTS (cfg : config) : list string :=
  if DISPLAY_RETURN_VALUES cfg then [ "call"; "return" ] else [ "call" ].

(** *** Class attributes the tracer assigns, and its sink *)

Record trace_state : Type := {
  FRAME_ENTRY_DEPTH : Z;
  FRAME_ENTRY_LOCATION : list (string * Z);
  FRAME_ENTRY_SLOT : Z;
  FRAME_LAST_CHAINLENGTH : Z;
  (** the lines written to [TRACE_FH] so far, oldest first *)
  TRACE_FH : list string
}.

(** start of new call chain *)
Definition initial : trace_state := {|
  FRAME_ENTRY_DEPTH := 0;
  FRAME_ENTRY_LOCATION := [];
  FRAME_ENTRY_SLOT := -1;
  FRAME_LAST_CHAINLENGTH := 0;
  TRACE_FH := []
|}.

(** Computations of the tracer: they read and assign the class attributes,
    write lines, and may raise. *)
Definition M (A : Type) : Type := trace_state -> result A * trace_state.

Definition ret {A : Type} (a : A) : M A := fun st => (Ok a, st).

Definition raise {A : Type} (e : exn) : M A := fun st => (Raise e, st).

Definition lift {A : Type} (r : result A) : M A := fun st => (r, st).

Definition mbind {A B : Type} (m : M A) (k : A -> M B) : M B :=
  fun st =>
    match m st with
    | (Ok a, st') => k a st'
    | (Raise e, st') => (Raise e, st')
    end.

Definition get : M trace_state := fun st => (Ok st, st).

Notation "x <~ m ;; k" := (mbind m (fun x => k))
  (at level 61, m at next level, right associativity).

Notation "m ;;> k" := (mbind m (fun _ => k))
  (at level 61, right associativity).

Definition print_message (message : string) : M unit :=
  fun st =>
    (Ok tt,
     {| FRAME_ENTRY_DEPTH := FRAME_ENTRY_DEPTH st;
        FRAME_ENTRY_LOCATION := FRAME_ENTRY_LOCATION st;
        FRAME_ENTRY_SLOT := FRAME_ENTRY_SLOT st;
        FRAME_LAST_CHAINLENGTH := FRAME_LAST_CHAINLENGTH st;
        TRACE_FH := (TRACE_FH st ++ [message])%list |}).

(** save the entry point location information *)
Definition save_entry (entry_slot : Z) (entry_location : list (string * Z))
    (entry_depth : Z) : M unit :=
  fun st =>
    (Ok tt,
     {| FRAME_ENTRY_DEPTH := entry_depth;
        FRAME_ENTRY_LOCATION := entry_location;
        FRAME_ENTRY_SLOT := entry_slot;
        FRAME_LAST_CHAINLENGTH := FRAME_LAST_CHAINLENGTH st;
        TRACE_FH := TRACE_FH st |}).

Definition save_chainlength (n : Z) : M unit :=
  fun st =>
    (Ok tt,
     {| FRAME_ENTRY_DEPTH := FRAME_ENTRY_DEPTH st;
        FRAME_ENTRY_LOCATION := FRAME_ENTRY_LOCATION st;
        FRAME_ENTRY_SLOT := FRAME_ENTRY_SLOT st;
        FRAME_LAST_CHAINLENGTH := n;
        TRACE_FH := TRACE_FH st |}).

(** *** Rendering *)

Definition get_frame_arglist (frame : FrameType) : result string :=
  args <-
    fold_left
      (fun (acc : result string) (i : nat) =>
         args <- acc ;;
         let args := match i with O => args | S _ => args ++ ", " end in
         match nth_error (co_varnames (f_code frame)) i with
         | None => Raise (IndexError "tuple index out of range")
         | Some name =>
             let args := args ++ name in
             if existsb (String.eqb name) FRAME_ARGUMENT_VALUES
             then match Dict.get (f_locals frame) name with
                  | Some value_repr => Ok (args ++ "=" ++ value_repr)
                  | None => Raise (KeyError name)
                  end
             else Ok args
         end)
      (seq 0 (co_argcount (f_code frame))) (Ok "(") ;;
  Ok (args ++ ")").

Definition display_frame (cfg : config) (frame : FrameType) (indent : string)
    (divider : bool) : M unit :=
  let current_func := co_name (f_code frame) in
  let location :=
    if DISPLAY_FUNCTION_LOCATION cfg then
      let current_file :=
        MSCOMMON.get_relative_filename (co_filename (f_code frame))
          MSCOMMON.modulelist_trace in
      let from_where :=
        match f_back frame with
        | Some back =>
            let from_file :=
              MSCOMMON.get_relative_filename (co_filename (f_code back))
                MSCOMMON.modulelist_trace in
            let from_line := f_lineno back in
            if String.eqb (co_filename (f_code back)) (co_filename (f_code frame))
            then " from " ++ Py.fmt_d from_line
            else " from " ++ from_file ++ ":" ++ Py.fmt_d from_line
        | None => ""
        end in
      " <" ++ current_file ++ ":" ++ Py.fmt_d (f_lineno frame) ++ from_where ++ ">"
    else "" in
  arglist <~ (if DISPLAY_FUNCTION_ARGLIST cfg
              then lift (get_frame_arglist frame)
              else ret "") ;;
  let outstr := indent ++ current_func ++ arglist ++ location in
  print_message outstr ;;>
  if divider && (1 <? FRAME_CALLER_FRAMES)
  then print_message (indent ++ Py.str_mul "-" (Z.of_nat (String.length outstr)))
  else ret tt.

Definition display_frame_return (cfg : config) (frame : FrameType)
    (arg : string) (indent : string) : M unit :=
  let current_func := co_name (f_code frame) in
  let location :=
    if DISPLAY_FUNCTION_LOCATION cfg then
      let current_file :=
        List.last (Py.split "\" (co_filename (f_code frame))) "" in
      "(" ++ current_file ++ ":" ++ Py.fmt_d (f_lineno frame) ++ ") "
    else " " in
  print_message (indent ++ "return " ++ current_func ++ location ++ "-> " ++ arg).

(** *** The scope filter *)

(** [modname.split('/')[-2:]], with [None] in front when one piece is left. *)
Definition parent_and_leaf (modname : string) : option string * option string :=
  match Py.last_items 2 (Py.split "/" modname) with
  | [parent; leaf] => (Some parent, Some leaf)
  | [leaf] => (None, Some leaf)
  | _ => (None, None)
  end.

Definition get_relmodule_caller_callee (frame : option FrameType)
  : string * (option string * option string) * (option string * option string) :=
  let rval : option string * option string := (None, None) in
  match frame with
  | None => ("", rval, rval)
  | Some frame =>
      let relmodule :=
        MSCOMMON.get_relative_module (co_filename (f_code frame))
          MSCOMMON.modulelist_trace in
      let callee := parent_and_leaf (MSCOMMON.get_module (co_filename (f_code frame))) in
      match f_back frame with
      | None => (relmodule, rval, callee)
      | Some back =>
          let caller := parent_and_leaf (MSCOMMON.get_module (co_filename (f_code back))) in
          (relmodule, caller, callee)
      end
  end.

Definition pair_in (pair : string * string) (l : list (string * string)) : bool :=
  existsb (fun p => String.eqb (fst p) (fst pair) && String.eqb (snd p) (snd pair)) l.

Definition is_allowed (cfg : config) (event relmodule function : string) : bool :=
  let pair := (relmodule, function) in
  if DISPLAY_ALLFRAMES_ONEBELOW cfg then true
  else if String.eqb event "call"
          && (DEBUG_ALLOWLIST_ENABLED cfg && pair_in pair DEBUG_ALLOWLIST_FUNCTIONS)
  then true
  else false.

(** [function[0]] raises on an empty name. *)
Definition is_ignored (cfg : config) (event relmodule function : string)
  : result bool :=
  let pair := (relmodule, function) in
  if String.eqb event "return" then
    if RETURN_IGNORELIST_ENABLED && pair_in pair RETURN_IGNORELIST_FUNCTIONS
    then Ok true
    else Ok false
  else
    if DEBUG_IGNORELIST_ENABLED && pair_in pair (DEBUG_IGNORELIST_FUNCTIONS cfg)
    then Ok true
    else if DISPLAY_ALLFRAMES_ONEBELOW cfg then Ok false
    else match function with
         | "" => Raise (IndexError "string index out of range")
         | String c _ => if Ascii.eqb c "<" then Ok true else Ok false
         end.

Definition is_parent (module : option string) : bool :=
  match module with
  | Some name => String.eqb name PARENT_MODULE
  | None => false
  end.

(** *** Chain reconstruction *)

(** What [trace_current_module] returns: itself, or [None]. *)
Inductive local_tracer : Type :=
| rval
| rval_None.

(** walk the stack frames above the current call; save the slot for the
    top-most module entry point; construct a frame chain: root -> current
    frame *)
Fixpoint walk (f : FrameType) (entry_slot : option Z) (frame_chain : list FrameType)
  : option Z * list FrameType :=
  let entry_slot :=
    if Py.contains PARENT_MODULE (co_filename (f_code f))
    then Some (Z.of_nat (List.length frame_chain))
    else entry_slot in
  let frame_chain := f :: frame_chain in
  match f_back f with
  | Some back => walk back entry_slot frame_chain
  | None => (entry_slot, frame_chain)
  end.

(** [l[offset:]] *)
Definition slice_from {A : Type} (offset : Z) (l : list A) : list A :=
  if offset <? 0 then Py.last_items (Z.to_nat (- offset)) l
  else skipn (Z.to_nat offset) l.

(** The entry slot and the window: the frame chain cut to start at most
    [FRAME_CALLER_FRAMES] frames above the entry point. *)
Definition window (frame : FrameType) : result (Z * list FrameType) :=
  let '(entry_slot, frame_chain) := walk frame None [] in
  match entry_slot with
  | None =>
      Raise (TypeError "unsupported operand type(s) for +: 'NoneType' and 'int'")
  | Some entry_slot =>
      (* calculate the starting slot: up to n frames above the entry point *)
      let len := Z.of_nat (List.length frame_chain) in
      let top := entry_slot + FRAME_CALLER_FRAMES in
      let top := if len <=? top then len - 1 else top in
      (* adjust the frame chain: starting slot -> current frame *)
      let offset := len - top - 1 in
      Ok (entry_slot, slice_from offset frame_chain)
  end.

Definition location_eqb (a b : list (string * Z)) : bool :=
  (List.length a =? List.length b)%nat
  && forallb (fun '((fa, la), (fb, lb)) => String.eqb fa fb && (la =? lb))
       (combine a b).

(** new call chain: write all of the frames; [i] is the position of the
    first frame of [frame_chain] in the window *)
Fixpoint display_chain (cfg : config) (i : Z) (indent : string)
    (frame_chain : list FrameType) : M unit :=
  match frame_chain with
  | [] => ret tt
  | f :: rest =>
      let divider_index := FRAME_CALLER_FRAMES - 1 in
      let indent := if i =? 0 then indent else indent ++ FRAME_INDENT_LITERAL in
      display_frame cfg f indent (i =? divider_index) ;;>
      display_chain cfg (i + 1) indent rest
  end.

(** positive gap greater than one: fill in missing frames *)
Fixpoint display_missing (cfg : config) (indent : string)
    (frames : list FrameType) : M unit :=
  match frames with
  | [] => ret tt
  | f :: rest =>
      display_frame cfg f indent false ;;>
      display_missing cfg (indent ++ FRAME_INDENT_LITERAL) rest
  end.

(** Lines 564-642 of [trace_current_module]: what happens to an event that
    passed the scope filter. *)
Definition reconstruct (cfg : config) (frame : FrameType)
    (event arg : string) : M local_tracer :=
  w <~ lift (window frame) ;;
  let '(entry_slot, frame_chain) := w in
  let len := Z.of_nat (List.length frame_chain) in
  (* entry location is the filename and line number of the first frame *)
  let entry_location :=
    map (fun f => (co_filename (f_code f), f_lineno f)) (firstn 1 frame_chain) in
  st <~ get ;;
  let start_new_chain :=
    match FRAME_ENTRY_LOCATION st with
    | [] => true
    | _ :: _ => negb (location_eqb entry_location (FRAME_ENTRY_LOCATION st))
    end in
  (if start_new_chain then
     (match FRAME_ENTRY_LOCATION st with
      | [] => ret tt
      | _ :: _ => print_message ""
      end) ;;>
     display_chain cfg 0 "" frame_chain ;;>
     save_entry entry_slot entry_location (len - 1)
   else
     (* existing call chain *)
     let gap := len - FRAME_LAST_CHAINLENGTH st in
     (if 1 <? gap then
        let n_indent := FRAME_ENTRY_DEPTH st in
        let n_indent := n_indent + (entry_slot - FRAME_ENTRY_SLOT st - gap) in
        let n_indent := n_indent + 1 in
        let indent := Py.str_mul FRAME_INDENT_LITERAL n_indent in
        display_missing cfg indent (skipn 1 (firstn (Z.to_nat gap) frame_chain))
      else ret tt) ;;>
     (* display current frame *)
     let n_indent := FRAME_ENTRY_DEPTH st in
     let n_indent := n_indent + (entry_slot - FRAME_ENTRY_SLOT st) in
     let indent := Py.str_mul FRAME_INDENT_LITERAL n_indent in
     if String.eqb event "return"
     then display_frame_return cfg frame arg (indent ++ FRAME_INDENT_LITERAL)
     else display_frame cfg frame indent false) ;;>
  save_chainlength len ;;>
  ret rval.

(** [trace_current_module(frame, event, arg)]; [arg] is the [repr] of the
    value that comes with the event. *)
Definition trace_current_module (cfg : config) (frame : FrameType)
    (event arg : string) : M local_tracer :=
  if negb (existsb (String.eqb event) (FRAME_TRACE_EVENTS cfg)) then ret rval
  else
    let '(relmodule, (caller_parent, _), (callee_parent, _)) :=
      get_relmodule_caller_callee (Some frame) in
    (* ignore events that are more than one frame below parent module *)
    if negb (is_parent callee_parent)
       && (negb (is_parent caller_parent) (* at most one frame deep *)
           || negb (is_allowed cfg event relmodule (co_name (f_code frame))))
    then ret rval
    else
      (* ignore frames that are explicitly listed *)
      ignored <~ lift (is_ignored cfg event relmodule (co_name (f_code frame))) ;;
      if ignored then ret rval_None
      else reconstruct cfg frame event arg.

End MSCOMMON_TRACE.

(** ** Notions the statements below are phrased in *)

Import MSCOMMON MSCOMMON_TRACE.

(** The number a fresh scan of the directory allocates to a marked template. *)
Definition fresh_scan (h : host) (name : string) : result Z :=
  let '(root, ext) := OsPath.splitext h name in
  _get_next_serialnbr h (Py.drop_last root ++ "*" ++ ext).

(** The marked template [name] with the number [n] in place of its marker. *)
Definition numbered (h : host) (name : string) (n : Z) : string :=
  let '(root, ext) := OsPath.splitext h name in
  _get_filename (Py.drop_last root) n ext.

(** The four long names and their short aliases. *)
Definition closed_symbol_table : list string :=
  [ "TRACE_DISPLAY_FUNCTION_ARGLIST"; "FUNCTION_ARGLIST";
    "TRACE_DISPLAY_FUNCTION_LOCATION"; "FUNCTION_LOCATION";
    "TRACE_DISPLAY_RETURN_VALUES"; "RETURN_VALUES";
    "TRACE_DISPLAY_ALLFRAMES_ONEBELOW"; "ALLFRAMES_ONEBELOW" ].

(** Stripping one matching outer quote pair, as the specification words it:
    the text must start and end with the same quote character.  A pair of
    triple double quotes is three such pairs. *)
Definition strip_pair (s : string) : option string :=
  match s with
  | String q rest =>
      if (Ascii.eqb q "034" || Ascii.eqb q "039")
         && (1 <=? String.length rest)%nat
         && String.eqb (Py.last_chars 1 rest) (String q "")
      then Some (Py.drop_last rest)
      else None
  | "" => None
  end.

(** The text is empty after at most [n] such strippings. *)
Fixpoint empties_within (n : nat) (s : string) : bool :=
  match s with
  | "" => true
  | _ =>
      match n with
      | O => false
      | S n' =>
          match strip_pair s with
          | Some inner => empties_within n' inner
          | None => false
          end
      end
  end.

Definition empty_after_stripping_pairs (s : string) : bool :=
  empties_within (String.length s) s.

(** The enclosing modules the scope filter compares with the home module. *)
Definition callee_parent (frame : FrameType) : option string :=
  fst (snd (get_relmodule_caller_callee (Some frame))).

Definition caller_parent (frame : FrameType) : option string :=
  fst (snd (fst (get_relmodule_caller_callee (Some frame)))).

Definition relmodule_of (frame : FrameType) : string :=
  fst (fst (get_relmodule_caller_callee (Some frame))).

(** The (module, function) pair of the event is on the ignore list of its
    kind: the returns list for a return event, the calls list otherwise. *)
Definition on_ignore_list (cfg : config) (event : string) (frame : FrameType)
  : bool :=
  let pair := (relmodule_of frame, co_name (f_code frame)) in
  if String.eqb event "return"
  then pair_in pair RETURN_IGNORELIST_FUNCTIONS
  else pair_in pair (DEBUG_IGNORELIST_FUNCTIONS cfg).

(** The event passes lines 544-562 of [trace_current_module] and reaches
    chain reconstruction. *)
Definition accepted (cfg : config) (frame : FrameType) (event : string) : bool :=
  existsb (String.eqb event) (FRAME_TRACE_EVENTS cfg)
  && (is_parent (callee_parent frame)
      || is_parent (caller_parent frame)
         && is_allowed cfg event (relmodule_of frame) (co_name (f_code frame)))
  && match is_ignored cfg event (relmodule_of frame) (co_name (f_code frame)) with
     | Ok false => true
     | _ => false
     end.

(** The live stack, the current frame first, the root last. *)
Fixpoint stack_of (f : FrameType) : list FrameType :=
  f :: match f_back f with
       | Some back => stack_of back
       | None => []
       end.

(** A frame of the home module, as the stack walk tests it. *)
Definition is_home (f : FrameType) : bool :=
  Py.contains PARENT_MODULE (co_filename (f_code f)).

(** The number of frames from the current frame to the innermost frame of the
    home module. *)
Fixpoint innermost_home (stack : list FrameType) : option Z :=
  match stack with
  | [] => None
  | f :: rest =>
      if is_home f then Some 0
      else option_map Z.succ (innermost_home rest)
  end.

(** The same for the outermost frame of the home module. *)
Fixpoint outermost_home (stack : list FrameType) : option Z :=
  match stack with
  | [] => None
  | f :: rest =>
      match outermost_home rest with
      | Some k => Some (k + 1)
      | None => if is_home f then Some 0 else None
      end
  end.

(** The lines an event adds to the sink, given the states before and after. *)
Definition lines_written (before after : trace_state) : list string :=
  skipn (List.length (TRACE_FH before)) (TRACE_FH after).

(** The entry location of a window, and whether it starts a new chain. *)
Definition entry_location_of (frame_chain : list FrameType) : list (string * Z) :=
  map (fun f => (co_filename (f_code f), f_lineno f)) (firstn 1 frame_chain).

Definition starts_new_chain (st : trace_state) (frame_chain : list FrameType)
  : bool :=
  match FRAME_ENTRY_LOCATION st with
  | [] => true
  | _ :: _ =>
      negb (location_eqb (entry_location_of frame_chain) (FRAME_ENTRY_LOCATION st))
  end.

(** ** Sample stacks *)

Module Samples.

(** every flag set, debug output not going to a log file *)
Definition all_flags : config := {| TRACEFLAGS := 15; DEBUG_LOGGING := false |}.

Definition code_at (name filename : string) : CodeType :=
  {| co_name := name; co_filename := filename;
     co_argcount := 0; co_varnames := [] |}.

(** [main] calls [get_output] of the home module, which creates a
    [subprocess.Popen], whose [__init__] calls [_execute_child]. *)
Definition main : FrameType :=
  Frame (code_at "main" "C:\scons\SCons\Script\Main.py") 10 [] None.

Definition get_output : FrameType :=
  Frame (code_at "get_output" "C:\scons\SCons\Tool\MSCommon\common.py") 800 []
    (Some main).

Definition Popen_init : FrameType :=
  Frame (code_at "__init__" "C:\Python\lib\subprocess.py") 900 []
    (Some get_output).

Definition execute_child : FrameType :=
  Frame (code_at "_execute_child" "C:\Python\lib\subprocess.py") 1400 []
    (Some Popen_init).

(** [debug] of the home module called from [find_vc_pdir]. *)
Definition find_vc_pdir : FrameType :=
  Frame (code_at "find_vc_pdir" "C:\scons\SCons\Tool\MSCommon\vc.py") 447 []
    (Some main).

Definition debug : FrameType :=
  Frame {| co_name := "debug";
           co_filename := "C:\scons\SCons\Tool\MSCommon\common.py";
           co_argcount := 1; co_varnames := ["x"] |} 320 [("x", "'msg'")]
    (Some find_vc_pdir).

(** [n] nested calls inside the home module, below [caller]. *)
Fixpoint home_calls (n : nat) (caller : FrameType) : FrameType :=
  match n with
  | O => caller
  | S n' =>
      home_calls n'
        (Frame (code_at "msvc_find" "C:\scons\SCons\Tool\MSCommon\vc.py")
           (100 + Z.of_nat n) [] (Some caller))
  end.

Definition three_deep : FrameType := home_calls 3 main.
Definition seven_deep : FrameType := home_calls 7 main.

End Samples.

(** ** Notions the proofs are phrased in *)

(** [sub] occurs in [s]. *)
Definition Occurs (sub s : string) : Prop := exists a b, s = a ++ sub ++ b.

(** Texts made of nested quote pairs. *)
Definition is_quote (q : ascii) : Prop := q = "034"%char \/ q = "039"%char.

Inductive Nested : string -> Prop :=
| Nested_empty : Nested ""
| Nested_pair (q : ascii) (inner : string) :
    is_quote q -> Nested inner -> Nested (String q (inner ++ String q "")).

(** Two states with the same chain attributes; the sink may differ. *)
Definition same_chain (a b : trace_state) : Prop :=
  FRAME_ENTRY_DEPTH a = FRAME_ENTRY_DEPTH b
  /\ FRAME_ENTRY_LOCATION a = FRAME_ENTRY_LOCATION b
  /\ FRAME_ENTRY_SLOT a = FRAME_ENTRY_SLOT b
  /\ FRAME_LAST_CHAINLENGTH a = FRAME_LAST_CHAINLENGTH b.

(** A computation that may write lines but assigns no chain attribute. *)
Definition Rendering {A : Type} (m : M A) : Prop :=
  forall st, same_chain st (snd (m st)).

(** Runs of word characters and of white space. *)
Fixpoint all_word (w : string) : bool :=
  match w with
  | "" => true
  | String c w' => MiniPy.is_word_char c && all_word w'
  end.

Fixpoint all_space (s : string) : bool :=
  match s with
  | "" => true
  | String c s' => Py.is_space c && all_space s'
  end.

(** The digits of a literal, as [scan_magnitude] reads them after a base
    prefix or without one. *)
Definition digit_run (base : Z) (body : string) : option (Z * string) :=
  match body with
  | "" => None
  | String c _ =>
      if Ascii.eqb c "_" then None
      else if Py.is_digit_of base c then Py.scan_digits base false 0 body
      else None
  end.

(** The sign of a literal, as [int_of_str] splits it off. *)
Definition sign_split (s : string) : bool * string :=
  match s with
  | String "+" s' => (false, s')
  | String "-" s' => (true, s')
  | _ => (false, s)
  end.

(** ** Module-level functions

    What these functions see of the operating system: the answers of
    [os.environ.get], of [os.path.join] on two arguments, and the
    separator [os.pathsep]. *)
Record os_env : Type := {
  environ : string -> option string;
  path_join : string -> string -> string;
  pathsep : ascii
}.

(** [os.environ.get(key, default)] *)
Definition environ_get (os : os_env) (key default : string) : string :=
  match environ os key with
  | Some value => value
  | None => default
  end.

(** the truth value of [os.environ.get(key)] *)
Definition environ_true (os : os_env) (key : string) : bool :=
  match environ os key with
  | Some (String _ _) => true
  | _ => false
  end.

(** [is_win64()]; [_is_win64] is the module global, [None] until the first
    call.  The result comes with the global as the call leaves it. *)
Definition is_win64 (os : os_env) (_is_win64 : option bool)
  : bool * option bool :=
  match _is_win64 with
  | Some answer => (answer, _is_win64)
  | None =>
      let _is_win64 := false in
      let _is_win64 :=
        if negb (String.eqb (environ_get os "PROCESSOR_ARCHITECTURE" "x86") "x86")
        then true else _is_win64 in
      let _is_win64 :=
        if environ_true os "PROCESSOR_ARCHITEW6432" then true else _is_win64 in
      let _is_win64 :=
        if environ_true os "ProgramW6432" then true else _is_win64 in
      (_is_win64, Some _is_win64)
  end.

(** *** [normalize_env]

    A shell environment is a dictionary from names to texts. *)

(** [for k, v in env.items(): normenv[k] = copy.deepcopy(v)] *)
Definition copy_items (env : list (string * string)) : list (string * string) :=
  fold_left (fun normenv '(k, v) => Dict.set normenv k v) env [].

(** [for k in keys: if k in os.environ and (force or k not in normenv):
    normenv[k] = os.environ[k]] *)
Definition import_keys (os : os_env) (keys : list string) (force : bool)
    (normenv : list (string * string)) : list (string * string) :=
  fold_left
    (fun normenv k =>
       match environ os k with
       | Some value =>
           if force || negb (Dict.mem normenv k)
           then Dict.set normenv k value
           else normenv
       | None => normenv
       end)
    keys normenv.

(** [if dir not in normenv["PATH"]:
       normenv["PATH"] = normenv["PATH"] + os.pathsep + dir] *)
Definition add_to_PATH (os : os_env) (dir : string)
    (normenv : list (string * string)) : result (list (string * string)) :=
  match Dict.get normenv "PATH" with
  | None => Raise (KeyError "PATH")
  | Some path =>
      if negb (Py.contains dir path)
      then Ok (Dict.set normenv "PATH" (path ++ String (pathsep os) dir))
      else Ok normenv
  end.

Definition sys32_dir (os : os_env) : string :=
  path_join os
    (environ_get os "SystemRoot" (environ_get os "windir" "C:\Windows"))
    "System32".

Definition sys32_wbem_dir (os : os_env) : string :=
  path_join os (sys32_dir os) "Wbem".

Definition sys32_ps_dir (os : os_env) : string :=
  path_join os (sys32_dir os) "WindowsPowerShell\v1.0".

(** [normalize_env(env, keys, force)]; [env] is [None] for Python's [None].
    The result comes with the messages handed to [debug]. *)
Definition normalize_env (os : os_env) (env : option (list (string * string)))
    (keys : list string) (force : bool)
  : result (list (string * string)) * list string :=
  let normenv :=
    match env with
    | Some (item :: items) =>
        import_keys os keys force (copy_items (item :: items))
    | _ => []
    end in
  let extended :=
    normenv <- add_to_PATH os (sys32_dir os) normenv ;;
    normenv <- add_to_PATH os (sys32_wbem_dir os) normenv ;;
    normenv <- add_to_PATH os (sys32_ps_dir os) normenv ;;
    match Dict.get normenv "PATH" with
    | Some path => Ok (normenv, "PATH: " ++ path)
    | None => Raise (KeyError "PATH")
    end in
  match extended with
  | Ok (normenv, message) => (Ok normenv, [message])
  | Raise e => (Raise e, [])
  end.

(** *** [parse_output] *)

Definition KEEPLIST : list string :=
  [ "INCLUDE"; "LIB"; "LIBPATH"; "PATH"; "VSCMD_ARG_app_plat";
    "VCINSTALLDIR"; "VCToolsInstallDir" ].

(** The line boundaries of [str.splitlines] among the first 256 code
    points: LF, VT, FF, CR, FS, GS, RS and NEL. *)
Definition is_linebreak (c : ascii) : bool :=
  let n := nat_of_ascii c in
  ((10 <=? n) && (n <=? 13) || (28 <=? n) && (n <=? 30) || (n =? 133))%nat.

(** [s.splitlines()]: the lines without their boundaries, CR LF being one
    boundary; no empty last line after a final boundary. *)
Fixpoint splitlines (s : string) : list string :=
  match s with
  | "" => []
  | String c s' =>
      if is_linebreak c then
        "" :: match c, s' with
              | "013"%char, String "010" s'' => splitlines s''
              | _, _ => splitlines s'
              end
      else
        match splitlines s' with
        | [] => [String c ""]
        | line :: lines => String c line :: lines
        end
  end.

(** Case folding of the ASCII letters. *)
Definition lower (c : ascii) : ascii :=
  let n := nat_of_ascii c in
  if ((65 <=? n) && (n <=? 90))%nat then ascii_of_nat (n + 32) else c.

(** What [.*] matches at the start of a text: everything up to a line
    feed. *)
Fixpoint dot_star (s : string) : string :=
  match s with
  | "" => ""
  | String c s' => if Ascii.eqb c "010" then "" else String c (dot_star s')
  end.

(** [rdk[key].match(line)], where [rdk[key]] is compiled with [re.I] from
    the key, an equals sign and a group of [.*], for a key of letters,
    digits and underscores, which the pattern holds literally: group 1 of
    the match, [None] without a match. *)
Fixpoint re_match (key line : string) : option string :=
  match key, line with
  | "", String "=" value => Some (dot_star value)
  | String k key', String c line' =>
      if Ascii.eqb (lower k) (lower c) then re_match key' line' else None
  | _, _ => None
  end.

(** [dkeep[key].append(path)] *)
Definition append_path (dkeep : list (string * list string)) (key path : string)
  : result (list (string * list string)) :=
  match Dict.get dkeep key with
  | Some path_list => Ok (Dict.set dkeep key (path_list ++ [path])%list)
  | None => Raise (KeyError key)
  end.

(** the nested function [add_env(rmatch, key)], given group 1 of the match *)
Definition add_env (os : os_env) (group1 key : string)
    (dkeep : list (string * list string))
  : result (list (string * list string)) :=
  fold_left
    (fun (acc : result (list (string * list string))) path =>
       dkeep <- acc ;;
       match path with
       | "" => Ok dkeep
       | _ => append_path dkeep key (Py.strip DQUOTE path)
       end)
    (Py.split (pathsep os) group1) (Ok dkeep).

(** [parse_output(output, keep)].  The outer [option] is [None] when a key
    of [keep] has a character that is not a letter, a digit or an
    underscore: its pattern is then outside what [re_match] covers. *)
Definition parse_output (os : os_env) (output : string) (keep : list string)
  : option (result (list (string * list string))) :=
  if forallb all_word keep then
    let dkeep := fold_left (fun d i => Dict.set d i (@nil string)) keep [] in
    let rdk := fold_left (fun d i => Dict.set d i i) keep [] in
    Some
      (fold_left
         (fun (acc : result (list (string * list string))) line =>
            fold_left
              (fun (acc : result (list (string * list string))) '(k, value) =>
                 dkeep <- acc ;;
                 match re_match value line with
                 | Some group1 => add_env os group1 k dkeep
                 | None => Ok dkeep
                 end)
              rdk acc)
         (splitlines output) (Ok dkeep))
  else None.

(** ** Further notions the statements are phrased in *)

(** The pattern [rewrite_filename] hands to [glob] for a marked template. *)
Definition template_glob (h : host) (name : string) : string :=
  let '(root, ext) := OsPath.splitext h name in
  Py.drop_last root ++ "*" ++ ext.

(** A text of decimal digits. *)
Fixpoint all_decimal (s : string) : bool :=
  match s with
  | "" => true
  | String c s' => MiniPy.is_decimal_digit c && all_decimal s'
  end.

(** A non-empty text without a dot and without a path separator. *)
Definition plain (t : string) : Prop :=
  t <> ""
  /\ Py.char_in "." t = false
  /\ Py.char_in "/" t = false
  /\ Py.char_in "\" t = false.

(** The index [os.path.splitext] computes for the last separator. *)
Definition sep_index (h : host) (p : string) : Z :=
  match os_altsep h with
  | Some alt => Z.max (Py.rfind_chr (os_sep h) p) (Py.rfind_chr alt p)
  | None => Py.rfind_chr (os_sep h) p
  end.

(** A text without the host's path separators. *)
Definition sep_free (h : host) (t : string) : Prop :=
  Py.char_in (os_sep h) t = false
  /\ match os_altsep h with
     | Some alt => Py.char_in alt t = false
     | None => True
     end.

(** A list in which every item is below, in string order, the items that
    follow it. *)
Fixpoint ascending (l : list string) : Prop :=
  match l with
  | [] => True
  | x :: l' => (forall y, In y l' -> String.leb x y = true) /\ ascending l'
  end.

(** The marked template [name] with the text [t] in place of its marker:
    the names the pattern of [rewrite_filename] is meant to match. *)
Definition substituted (h : host) (name t : string) : string :=
  let '(root, ext) := OsPath.splitext h name in
  Py.drop_last root ++ t ++ ext.

(** ** Sample directories *)

Module SampleHosts.

(** three numbered logs beside a template *)
Definition logs : host :=
  Directory.posix
    [ "logs/scons-0002.log"; "logs/scons-0010.log"; "logs/scons-0009.log";
      "logs/other.log" ].

(** the numbering has gone past four digits *)
Definition crowded : host :=
  Directory.posix
    [ "logs/scons-10000.log"; "logs/scons-9999.log"; "logs/scons-0001.log" ].

(** a file of another naming scheme matches the pattern *)
Definition stray : host :=
  Directory.posix [ "logs/scons-0002.log"; "logs/scons-old.log" ].

(** an empty directory *)
Definition empty : host := Directory.posix [].

End SampleHosts.

(** ** class [_MSCommon_Filter]

    The attributes of a [logging.LogRecord] that the filter reads and
    assigns. *)
Module MSCommon_Filter.

Record LogRecord : Type := {
  pathname : string;
  relfilename : option string
}.

(** [filter(self, record)]: the answer, and the record as the call leaves
    it. *)
Definition filter (record : LogRecord) : bool * LogRecord :=
  let relfilename :=
    MSCOMMON.get_relative_filename (pathname record) MSCOMMON.modulelist_debug in
  let relfilename := Py.replace "\" "/" relfilename in
  (true, {| pathname := pathname record; relfilename := Some relfilename |}).

End MSCommon_Filter.

(** A non-empty text that neither starts nor ends with a quote character. *)
Definition is_quote_chr (c : ascii) : bool :=
  Ascii.eqb c "034" || Ascii.eqb c "039".

Definition unquoted (t : string) : bool :=
  match t with
  | "" => false
  | String c _ =>
      negb (is_quote_chr c)
      && match Py.last_chars 1 t with
         | String d _ => negb (is_quote_chr d)
         | "" => false
         end
  end.

(** ** Notions for the rendering of events *)

(** One argument of an argument list: its name, with the [repr] of its
    value when the name is among [FRAME_ARGUMENT_VALUES]. *)
Definition arg_item (locals : list (string * string)) (name : string)
  : result string :=
  if existsb (String.eqb name) FRAME_ARGUMENT_VALUES
  then match Dict.get locals name with
       | Some value_repr => Ok (name ++ "=" ++ value_repr)
       | None => Raise (KeyError name)
       end
  else Ok name.

Fixpoint arg_items (locals : list (string * string)) (names : list string)
  : result (list string) :=
  match names with
  | [] => Ok []
  | name :: rest =>
      item <- arg_item locals name ;;
      items <- arg_items locals rest ;;
      Ok (item :: items)
  end.

(** The body of the loop of [get_frame_arglist]. *)
Definition arglist_step (frame : FrameType) (acc : result string) (i : nat)
  : result string :=
  args <- acc ;;
  let args := match i with O => args | S _ => args ++ ", " end in
  match nth_error (co_varnames (f_code frame)) i with
  | None => Raise (IndexError "tuple index out of range")
  | Some name =>
      let args := args ++ name in
      if existsb (String.eqb name) FRAME_ARGUMENT_VALUES
      then match Dict.get (f_locals frame) name with
           | Some value_repr => Ok (args ++ "=" ++ value_repr)
           | None => Raise (KeyError name)
           end
      else Ok args
  end.

(** The frame can be displayed under the configuration: its argument list
    is not asked for, or it renders. *)
Definition arglist_ok (f : FrameType) : bool :=
  match get_frame_arglist f with
  | Ok _ => true
  | Raise _ => false
  end.

Definition frame_ok (cfg : config) (f : FrameType) : bool :=
  negb (DISPLAY_FUNCTION_ARGLIST cfg) || arglist_ok f.

(** What the chain attributes satisfy between events. *)
Definition chain_ok (st : trace_state) : Prop :=
  -1 <= FRAME_ENTRY_SLOT st
  /\ FRAME_ENTRY_SLOT st <= FRAME_ENTRY_DEPTH st
  /\ FRAME_ENTRY_DEPTH st <= FRAME_ENTRY_SLOT st + FRAME_CALLER_FRAMES
  /\ 0 <= FRAME_LAST_CHAINLENGTH st
  /\ (List.length (FRAME_ENTRY_LOCATION st) <= 1)%nat
  /\ (FRAME_ENTRY_LOCATION st = [] \/ 0 <= FRAME_ENTRY_SLOT st).

(** The number of lines an accepted event writes when nothing raises: a new
    chain writes its window, after a blank line when a chain came before and
    with a divider under the frame at index [FRAME_CALLER_FRAMES - 1]; a
    continuation writes the frames the window has grown by, at least the
    current one. *)
Definition expected_lines (st : trace_state) (frame_chain : list FrameType) : Z :=
  let len := Z.of_nat (List.length frame_chain) in
  if starts_new_chain st frame_chain then
    (match FRAME_ENTRY_LOCATION st with [] => 0 | _ :: _ => 1 end)
    + len + (if FRAME_CALLER_FRAMES <=? len then 1 else 0)
  else Z.max 1 (len - FRAME_LAST_CHAINLENGTH st).

(** A computation that only appends lines [lines] to the sink, with an
    outcome [r] such that [Q r lines]. *)
Definition Writes {A : Type} (m : M A) (Q : result A -> list string -> Prop)
  : Prop :=
  forall st,
    exists lines,
      TRACE_FH (snd (m st)) = (TRACE_FH st ++ lines)%list
      /\ Q (fst (m st)) lines.

(** ** Sample frames with arguments *)

Module SampleFrames.

(** [msvc_find(version, env)] of the home module, called from
    [Samples.main], with both arguments bound *)
Definition msvc_find : FrameType :=
  Frame {| co_name := "msvc_find";
           co_filename := "C:\scons\SCons\Tool\MSCommon\vc.py";
           co_argcount := 2; co_varnames := ["version"; "env"; "found"] |}
    210 [("version", "'14.3'"); ("env", "<Environment>")]
    (Some Samples.main).

End SampleFrames.

(** ** Notions for the module-level functions *)

(** The value [normalize_env] gives a key before it extends [PATH]: that of
    [os.environ] for a key of [keys] that is set there, when [force] is given
    or the environment lacks the key, and that of the environment
    otherwise. *)
Definition imported (os : os_env) (env : list (string * string))
    (keys : list string) (force : bool) (k : string) : option string :=
  if existsb (String.eqb k) keys then
    match environ os k with
    | Some value =>
        if force || negb (Dict.mem env k) then Some value else Dict.get env k
    | None => Dict.get env k
    end
  else Dict.get env k.

(** The paths one line of output gives a key. *)
Definition paths_of_line (os : os_env) (key line : string) : list string :=
  match re_match key line with
  | Some group1 =>
      map (Py.strip DQUOTE)
        (filter (fun path => negb (String.eqb path ""))
           (Py.split (pathsep os) group1))
  | None => []
  end.

(** The keys of a dictionary, in insertion order. *)
Definition keys_of {V : Type} (d : list (string * V)) : list string :=
  map fst d.

(** A list of keys without its repetitions, in the order of the first
    occurrences. *)
Fixpoint distinct (seen keep : list string) : list string :=
  match keep with
  | [] => []
  | i :: keep' =>
      if existsb (String.eqb i) seen then distinct seen keep'
      else i :: distinct (seen ++ [i]) keep'
  end.

(** ** Sample operating systems *)

Module SampleOs.

(** A Windows host: [os.path.join] as it is for a directory without a
    trailing separator and a relative name. *)
Definition windows (vars : list (string * string)) : os_env :=
  {| environ := Dict.get vars;
     path_join := fun a b => a ++ "\" ++ b;
     pathsep := ";" |}.

Definition win32 : os_env :=
  windows [ ("SystemRoot", "C:\WINDOWS"); ("PROCESSOR_ARCHITECTURE", "x86");
            ("COMSPEC", "C:\WINDOWS\system32\cmd.exe") ].

Definition wow64 : os_env :=
  windows [ ("SystemRoot", "C:\WINDOWS"); ("PROCESSOR_ARCHITECTURE", "x86");
            ("PROCESSOR_ARCHITEW6432", "AMD64");
            ("COMSPEC", "C:\WINDOWS\system32\cmd.exe") ].

End SampleOs.

(** [PATH] after one directory, and after the three directories, were added
    where missing. *)
Definition extend_path (os : os_env) (dir path : string) : string :=
  if negb (Py.contains dir path) then path ++ String (pathsep os) dir else path.

Definition extended_PATH (os : os_env) (path : string) : string :=
  extend_path os (sys32_ps_dir os)
    (extend_path os (sys32_wbem_dir os)
       (extend_path os (sys32_dir os) path)).

(** Whether [normalize_env] finds a [PATH] to extend: the environment is not
    empty and holds one, or imports one. *)
Definition has_PATH (os : os_env) (env : option (list (string * string)))
    (keys : list string) : bool :=
  match env with
  | Some (item :: items) =>
      Dict.mem (item :: items) "PATH"
      || existsb (String.eqb "PATH") keys
         && match environ os "PATH" with Some _ => true | None => false end
  | _ => false
  end.

(** Boolean comparisons of the hypotheses, as propositions. *)
Ltac zbool :=
  repeat match goal with
         | H : (_ <=? _) = true |- _ => apply Z.leb_le in H
         | H : (_ <=? _) = false |- _ => apply Z.leb_gt in H
         | H : (_ <? _) = true |- _ => apply Z.ltb_lt in H
         | H : (_ <? _) = false |- _ => apply Z.ltb_ge in H
         | H : (_ =? _) = true |- _ => apply Z.eqb_eq in H
         | H : (_ =? _) = false |- _ => apply Z.eqb_neq in H
         end.

(** * Properties *)

(** ** Log rotation *)

Section Rotation.

Variable h : host.

Lemma rewrite_filename_unmarked (name : string) (sync : bool) (st : state) :
  is_marked h name = false ->
  rewrite_filename h (Some name) sync st = (Ok (Some name), st).
Proof.
  unfold is_marked, rewrite_filename. intros Hm.
  destruct name as [|c name]; [reflexivity|].
  destruct (OsPath.splitext h (String c name)) as [root ext].
  destruct (String.eqb root ""); simpl in *; [reflexivity|].
  rewrite Hm. reflexivity.
Qed.

Lemma rewrite_filename_marked (name : string) (sync : bool) (st : state) :
  is_marked h name = true ->
  rewrite_filename h (Some name) sync st =
  match sync, _last_n st with
  | true, Some n => (Ok (Some (numbered h name n)), st)
  | _, _ =>
      match fresh_scan h name with
      | Ok n => (Ok (Some (numbered h name n)), if sync then st else set_last_n st n)
      | Raise e => (Raise e, st)
      end
  end.
Proof.
  unfold is_marked, rewrite_filename, fresh_scan, numbered. intros Hm.
  destruct name as [|c name].
  - exfalso. revert Hm. destruct (OsPath.splitext h "") as [root ext] eqn:E.
    unfold OsPath.splitext in E. simpl in E.
    destruct (os_altsep h); simpl in E; inversion E; subst; discriminate.
  - destruct (OsPath.splitext h (String c name)) as [root ext].
    apply andb_true_iff in Hm as [Hr Hs]. apply negb_true_iff in Hr.
    rewrite Hr, Hs. simpl.
    destruct sync, (_last_n st); reflexivity.
Qed.

End Rotation.

(** C10.  The last-allocated rotation number [_last_n] is assigned only by a
    [sync=False] call of [rewrite_filename] on a marked template, which sets
    it to the freshly scanned number: after such a call [_last_n] is that
    number, whatever it was before.  A [sync=True] call leaves it as it is:
    it reuses the stored number when there is one and otherwise scans afresh
    without recording the result.  A call on an absent, empty or unmarked
    file name changes nothing and returns the file name as given, and a scan
    that raises assigns nothing. *)
Theorem rewrite_filename_last_n_frame
    (h : host) (filename : option string) (sync : bool) (st : state) :
  let out := rewrite_filename h filename sync st in
  (* absent, empty or unmarked: verbatim, nothing assigned *)
  (match filename with
   | Some name => is_marked h name = false -> out = (Ok filename, st)
   | None => out = (Ok filename, st)
   end)
  /\
  (* marked *)
  (forall name, filename = Some name -> is_marked h name = true ->
     match sync, _last_n st with
     | true, Some n => out = (Ok (Some (numbered h name n)), st)
     | true, None =>
         out = (match fresh_scan h name with
                | Ok n => Ok (Some (numbered h name n))
                | Raise e => Raise e
                end, st)
     | false, _ =>
         out = match fresh_scan h name with
               | Ok n => (Ok (Some (numbered h name n)), set_last_n st n)
               | Raise e => (Raise e, st)
               end
     end)
  /\
  (* the only writer *)
  (_last_n (snd out) <> _last_n st ->
     sync = false
     /\ exists name n,
          filename = Some name /\ is_marked h name = true
          /\ fresh_scan h name = Ok n /\ _last_n (snd out) = Some n)
  /\ _TRACEFLAGS (snd out) = _TRACEFLAGS st
  /\
  (* the writer stores the scanned number *)
  (forall name n,
     filename = Some name -> is_marked h name = true ->
     sync = false -> fresh_scan h name = Ok n ->
     fst out = Ok (Some (numbered h name n)) /\ _last_n (snd out) = Some n)
  /\
  (* every other call leaves the stored number alone *)
  (sync = true -> _last_n (snd out) = _last_n st)
  /\
  (match filename with
   | Some name => is_marked h name = false -> _last_n (snd out) = _last_n st
   | None => _last_n (snd out) = _last_n st
   end)
  /\
  (forall name e,
     filename = Some name -> is_marked h name = true ->
     sync = false -> fresh_scan h name = Raise e ->
     fst out = Raise e /\ _last_n (snd out) = _last_n st).
Proof.
  intros out. subst out.
  assert (Hmarked : forall name, filename = Some name -> is_marked h name = true ->
            rewrite_filename h filename sync st =
            match sync, _last_n st with
            | true, Some n => (Ok (Some (numbered h name n)), st)
            | _, _ =>
                match fresh_scan h name with
                | Ok n => (Ok (Some (numbered h name n)),
                           if sync then st else set_last_n st n)
                | Raise e => (Raise e, st)
                end
            end).
  { intros name -> Hm. now apply rewrite_filename_marked. }
  repeat apply conj.
  - destruct filename as [name|]; [|reflexivity].
    intros Hm. now apply rewrite_filename_unmarked.
  - intros name Hn Hm. rewrite (Hmarked name Hn Hm).
    destruct sync, (_last_n st), (fresh_scan h name); reflexivity.
  - destruct filename as [name|]; [|simpl; congruence].
    destruct (is_marked h name) eqn:Hm.
    + rewrite (Hmarked name eq_refl Hm).
      destruct sync, (_last_n st) eqn:Hl, (fresh_scan h name) eqn:Hs;
        simpl; try congruence;
        intros _; (split; [reflexivity|]); exists name, a; auto.
    + rewrite (rewrite_filename_unmarked h name sync st Hm). simpl. congruence.
  - destruct filename as [name|]; [|reflexivity].
    destruct (is_marked h name) eqn:Hm.
    + rewrite (Hmarked name eq_refl Hm).
      destruct sync, (_last_n st), (fresh_scan h name); reflexivity.
    + rewrite (rewrite_filename_unmarked h name sync st Hm). reflexivity.
  - intros name n Hn Hm -> Hs. rewrite (Hmarked name Hn Hm), Hs.
    destruct (_last_n st) eqn:Hl; split; reflexivity.
  - intros ->. destruct filename as [name|]; [|reflexivity].
    destruct (is_marked h name) eqn:Hm.
    + rewrite (Hmarked name eq_refl Hm).
      destruct (_last_n st) eqn:Hl, (fresh_scan h name); simpl; congruence.
    + rewrite (rewrite_filename_unmarked h name true st Hm). reflexivity.
  - destruct filename as [name|]; [|reflexivity].
    intros Hm. rewrite (rewrite_filename_unmarked h name sync st Hm). reflexivity.
  - intros name e Hn Hm -> Hs. rewrite (Hmarked name Hn Hm), Hs.
    destruct (_last_n st) eqn:Hl; split; simpl; congruence.
Qed.

(** [sorted] on a list that holds two values only. *)
Lemma sorted_two_valued (a b : string) (l : list string) :
  String.leb a b = true -> String.leb b a = false ->
  (forall x, In x l -> x = a \/ x = b) ->
  exists i j,
    Py.sorted l = (repeat a i ++ repeat b j)%list
    /\ (In a l -> (0 < i)%nat) /\ (In b l -> (0 < j)%nat).
Proof.
  intros Hab Hba. induction l as [|x l IH]; intros Hl.
  - exists 0%nat, 0%nat. simpl. repeat split; intros [].
  - destruct IH as (i & j & Hs & Hi & Hj).
    { intros y Hy. apply Hl. now right. }
    assert (Haa : String.leb a a = true).
    { destruct (String.leb_total a a); assumption. }
    assert (Hbb : String.leb b b = true).
    { destruct (String.leb_total b b); assumption. }
    assert (Hne : a <> b) by (intros ->; congruence).
    simpl. rewrite Hs. destruct (Hl x (or_introl eq_refl)) as [-> | ->].
    + exists (S i), j. split; [|split].
      * destruct i as [|i]; simpl.
        -- destruct j as [|j]; simpl; [reflexivity|]. now rewrite Hab.
        -- now rewrite Haa.
      * intros _. lia.
      * intros [E|H]; [congruence|auto].
    + exists i, (S j). split; [|split].
      * clear Hs Hi Hj. induction i as [|i IHi]; simpl.
        -- destruct j as [|j]; simpl; [reflexivity|]. now rewrite Hbb.
        -- rewrite Hba. f_equal. exact IHi.
      * intros [E|H]; [congruence|auto].
      * intros _. lia.
Qed.

Lemma last_app_nonempty {A : Type} (l1 l2 : list A) (d : A) :
  l2 <> [] -> List.last (l1 ++ l2)%list d = List.last l2 d.
Proof.
  intros Hne. induction l1 as [|x l1 IH]; [reflexivity|].
  simpl. destruct (l1 ++ l2)%list eqn:E; [|exact IH].
  apply app_eq_nil in E. tauto.
Qed.

Lemma last_repeat (b d : string) (j : nat) :
  (0 < j)%nat -> List.last (repeat b j) d = b.
Proof.
  destruct j as [|j]; [lia|]. intros _.
  induction j as [|j IH]; [reflexivity|]. exact IH.
Qed.

Lemma splitext_run_template (h : host) :
  posixpath h \/ ntpath h ->
  OsPath.splitext h "run-#.log" = ("run-#", ".log")
  /\ OsPath.splitext h "run-0003.log" = ("run-0003", ".log").
Proof.
  destruct h as [glob sep altsep]. unfold posixpath, ntpath. cbn [os_sep os_altsep].
  intros [[-> ->] | [-> ->]]; split; reflexivity.
Qed.

(** C8.  On a host where [glob] finds exactly [run-0001.log] and
    [run-0003.log] for the pattern [run-*.log], in whatever order,
    [rewrite_filename] turns the template [run-#.log] into [run-0004.log],
    one past the number of the greatest match; where [glob] finds nothing it
    gives [run-0001.log]. *)
Theorem rewrite_filename_rotation (h : host) (st : state) :
  posixpath h \/ ntpath h ->
  let rewritten := fst (rewrite_filename h (Some "run-#.log") false st) in
  ((forall p, In p (glob_glob h "run-*.log") <->
              p = "run-0001.log" \/ p = "run-0003.log") ->
   rewritten = Ok (Some "run-0004.log"))
  /\
  (glob_glob h "run-*.log" = [] -> rewritten = Ok (Some "run-0001.log")).
Proof.
  intros Hpath rewritten. subst rewritten.
  destruct (splitext_run_template h Hpath) as [Htemplate Hgreatest].
  assert (Hmarked : is_marked h "run-#.log" = true).
  { unfold is_marked. rewrite Htemplate. reflexivity. }
  rewrite (rewrite_filename_marked h "run-#.log" false st Hmarked).
  unfold fresh_scan, numbered. rewrite Htemplate.
  change (Py.drop_last "run-#" ++ "*" ++ ".log") with "run-*.log".
  unfold _get_next_serialnbr.
  set (matches := glob_glob h "run-*.log").
  split.
  - intros Hexact.
    assert (Hin : forall x, In x matches -> x = "run-0001.log" \/ x = "run-0003.log").
    { intros x Hx. now apply Hexact. }
    assert (H3 : In "run-0003.log" matches) by (apply Hexact; now right).
    destruct (sorted_two_valued "run-0001.log" "run-0003.log" matches
                eq_refl eq_refl Hin) as (i & j & Hs & _ & Hj).
    specialize (Hj H3).
    destruct matches as [|m ms] eqn:Em; [destruct H3|].
    rewrite Hs, last_app_nonempty, (last_repeat _ _ _ Hj), Hgreatest.
    + reflexivity.
    + destruct j; [lia|discriminate].
  - intros ->. reflexivity.
Qed.

(** A directory that holds the two numbered logs next to other files, and one
    that holds none. *)
Lemma rewrite_filename_rotation_witness :
  fst (rewrite_filename
         (Directory.posix ["build.log"; "run-0003.log"; "run.log"; "run-0001.log"])
         (Some "run-#.log") false MSCOMMON.initial) = Ok (Some "run-0004.log")
  /\ fst (rewrite_filename (Directory.posix ["build.log"])
            (Some "run-#.log") false MSCOMMON.initial) = Ok (Some "run-0001.log").
Proof.
  split.
  - apply (proj1 (rewrite_filename_rotation
                    (Directory.posix
                       ["build.log"; "run-0003.log"; "run.log"; "run-0001.log"])
                    MSCOMMON.initial (or_introl (conj eq_refl eq_refl)))).
    intros p.
    change (glob_glob
              (Directory.posix
                 ["build.log"; "run-0003.log"; "run.log"; "run-0001.log"])
              "run-*.log")
      with ["run-0003.log"; "run-0001.log"].
    simpl. intuition.
  - apply (proj2 (rewrite_filename_rotation (Directory.posix ["build.log"])
                    MSCOMMON.initial (or_introl (conj eq_refl eq_refl)))).
    reflexivity.
Defined.

(** ** The configuration resolver *)

Lemma length_lstrip (chars s : string) :
  (String.length (Py.lstrip chars s) <= String.length s)%nat.
Proof.
  induction s as [|c s IH]; simpl; [lia|].
  destruct (Py.char_in c chars); simpl; lia.
Qed.

Lemma length_rstrip (chars s : string) :
  (String.length (Py.rstrip chars s) <= String.length s)%nat.
Proof.
  induction s as [|c s IH]; simpl; [lia|].
  destruct (Py.rstrip chars s); [destruct (Py.char_in c chars)|]; simpl in *; lia.
Qed.

Lemma prefix_cons (q c : ascii) (p s : string) :
  String.prefix (String q p) (String c s) = true <->
  q = c /\ String.prefix p s = true.
Proof.
  cbn [String.prefix]. destruct (Ascii.ascii_dec q c) as [E|E].
  - tauto.
  - split; [discriminate|tauto].
Qed.

Lemma prefix_empty (s : string) : String.prefix "" s = true.
Proof. destruct s; reflexivity. Qed.

(** Stripping a character the text starts with shortens the text. *)
Lemma length_strip_startswith (q : ascii) (chars s : string) :
  Py.char_in q chars = true ->
  Py.startswith s (String q "") = true ->
  (String.length (Py.strip chars s) < String.length s)%nat.
Proof.
  intros Hq Hs. destruct s as [|c s]; [discriminate|].
  unfold Py.startswith in Hs. apply prefix_cons in Hs as [-> _].
  unfold Py.strip. cbn [Py.lstrip String.length]. rewrite Hq.
  pose proof (length_rstrip chars (Py.lstrip chars s)).
  pose proof (length_lstrip chars s). lia.
Qed.

Lemma startswith_DQUOTE3 (s : string) :
  Py.startswith s DQUOTE3 = true -> Py.startswith s DQUOTE = true.
Proof.
  destruct s as [|c s]; [discriminate|].
  unfold Py.startswith, DQUOTE3, DQUOTE. cbn [append].
  intros Hp. apply prefix_cons in Hp as [-> _].
  apply prefix_cons. split; [reflexivity|apply prefix_empty].
Qed.

(** The quote loop ends within [String.length envstr + 1] rounds. *)
Lemma strip_outer_quotes_enough (rounds : nat) (envstr : string) :
  (String.length envstr < rounds)%nat ->
  strip_outer_quotes rounds envstr <> None.
Proof.
  revert envstr. induction rounds as [|rounds IH]; intros envstr Hlen; [lia|].
  assert (Hagain : forall q chars, Py.char_in q chars = true ->
            Py.startswith envstr (String q "") = true ->
            match Py.strip chars envstr with
            | "" => Some Emptied
            | String _ _ => strip_outer_quotes rounds (Py.strip chars envstr)
            end <> None).
  { intros q chars Hq Hs.
    pose proof (length_strip_startswith q chars envstr Hq Hs) as Hlt.
    destruct (Py.strip chars envstr) eqn:E; [discriminate|].
    apply IH. lia. }
  simpl.
  destruct (Py.startswith envstr DQUOTE && Py.endswith envstr DQUOTE) eqn:E1.
  { apply andb_true_iff in E1 as [E1 _]. now apply (Hagain "034"%char). }
  destruct (Py.startswith envstr SQUOTE && Py.endswith envstr SQUOTE) eqn:E2.
  { apply andb_true_iff in E2 as [E2 _]. now apply (Hagain "039"%char). }
  destruct (Py.startswith envstr DQUOTE3 && Py.endswith envstr DQUOTE3) eqn:E3.
  { apply andb_true_iff in E3 as [E3 _].
    apply (Hagain "034"%char); [reflexivity|]. now apply startswith_DQUOTE3. }
  discriminate.
Qed.

(** [get_trace_display_traceflags] always comes back, with a mask or with an
    exception. *)
Lemma get_trace_display_traceflags_total `{PyBuiltins}
    (TRACEFLAGS_ENV : option string) (st : state) :
  get_trace_display_traceflags TRACEFLAGS_ENV st <> None.
Proof.
  unfold get_trace_display_traceflags.
  destruct (_TRACEFLAGS st); [discriminate|].
  destruct TRACEFLAGS_ENV as [env|]; [|discriminate].
  pose proof (strip_outer_quotes_enough (S (String.length env)) env
                (Nat.lt_succ_diag_r _)) as Ht.
  destruct (strip_outer_quotes (S (String.length env)) env) as [[|envstr]|];
    [discriminate|discriminate|congruence].
Qed.

(** The symbol table holds the four long names and their short aliases and
    nothing else. *)
Lemma symbols_closed (id : string) :
  Dict.mem symbols id = true <-> In id closed_symbol_table.
Proof.
  unfold Dict.mem. change symbols with
    [ ("TRACE_DISPLAY_FUNCTION_ARGLIST", 1); ("FUNCTION_ARGLIST", 1);
      ("TRACE_DISPLAY_FUNCTION_LOCATION", 2); ("FUNCTION_LOCATION", 2);
      ("TRACE_DISPLAY_RETURN_VALUES", 4); ("RETURN_VALUES", 4);
      ("TRACE_DISPLAY_ALLFRAMES_ONEBELOW", 8); ("ALLFRAMES_ONEBELOW", 8) ].
  unfold closed_symbol_table. cbn [Dict.get In].
  repeat match goal with
         | |- context [String.eqb ?k id] =>
             destruct (String.eqb_spec k id); [subst; split; intros; auto 10|]
         end.
  split; [discriminate|]. intuition congruence.
Qed.

Lemma first_undefined_spec (names : list string) (id : string) :
  first_undefined names = Some id ->
  In id names /\ ~ In id closed_symbol_table.
Proof.
  unfold first_undefined. intros Hf. apply find_some in Hf as [Hin Hm].
  split; [assumption|]. rewrite <- symbols_closed.
  apply negb_true_iff in Hm. congruence.
Qed.

Lemma first_undefined_exists (names : list string) (id : string) :
  In id names -> ~ In id closed_symbol_table ->
  exists id', first_undefined names = Some id'.
Proof.
  unfold first_undefined. intros Hin Hout.
  destruct (find _ names) as [id'|] eqn:Hf; [eauto|].
  exfalso. apply (find_none _ _ Hf) in Hin. apply negb_false_iff in Hin.
  apply symbols_closed in Hin. contradiction.
Qed.

(** C5.  Each of the verbosity texts [15], [0b1111], [0xF], [1+2+4+8] and
    [1|2|4|8] resolves to the mask 15, which the resolver also caches. *)
Theorem traceflags_fifteen (st : state) :
  _TRACEFLAGS st = None ->
  Forall
    (fun env =>
       get_trace_display_traceflags (H := MiniPy.builtins) (Some env) st
       = Some (Ok 15, set_TRACEFLAGS st 15))
    [ "15"; "0b1111"; "0xF"; "1+2+4+8"; "1|2|4|8" ].
Proof.
  intros Hnone. unfold get_trace_display_traceflags. rewrite Hnone.
  repeat constructor.
Qed.

Lemma traceflags_fifteen_witness :
  Forall
    (fun env =>
       get_trace_display_traceflags (H := MiniPy.builtins) (Some env) MSCOMMON.initial
       = Some (Ok 15, set_TRACEFLAGS MSCOMMON.initial 15))
    [ "15"; "0b1111"; "0xF"; "1+2+4+8"; "1|2|4|8" ].
Proof. apply (traceflags_fifteen MSCOMMON.initial). reflexivity. Defined.




(** C7, at the empty text.  The emptiness test sits inside the quote loop,
    after a strip; a text that is empty to begin with leaves the loop at once
    and is then refused by [int] and by [compile]. *)
Theorem traceflags_empty_text_raises :
  get_trace_display_traceflags (H := MiniPy.builtins) (Some "") MSCOMMON.initial
  = Some (Raise (ValueError "Trace display compilation failed: "),
          MSCOMMON.initial).
Proof. reflexivity. Qed.

(** *** Texts made of nested quote pairs *)

Lemma append_empty_r (s : string) : s ++ "" = s.
Proof. induction s as [|c s IH]; simpl; congruence. Qed.

Lemma append_assoc (a b c : string) : (a ++ b) ++ c = a ++ (b ++ c).
Proof. induction a as [|x a IH]; simpl; congruence. Qed.

Lemma length_append (a b : string) :
  String.length (a ++ b) = (String.length a + String.length b)%nat.
Proof. induction a as [|x a IH]; simpl; congruence. Qed.

Lemma drop_append (a b : string) : Py.drop (String.length a) (a ++ b) = b.
Proof. induction a as [|x a IH]; simpl; [destruct b; reflexivity|exact IH]. Qed.

Lemma take_append (a b : string) : Py.take (String.length a) (a ++ b) = a.
Proof. induction a as [|x a IH]; simpl; [destruct b; reflexivity|congruence]. Qed.

Lemma last_chars_snoc (a : string) (c : ascii) :
  Py.last_chars 1 (a ++ String c "") = String c "".
Proof.
  unfold Py.last_chars. rewrite length_append. simpl.
  replace (String.length a + 1 - 1)%nat with (String.length a) by lia.
  apply drop_append.
Qed.

Lemma drop_last_snoc (a : string) (c : ascii) :
  Py.drop_last (a ++ String c "") = a.
Proof.
  unfold Py.drop_last. rewrite length_append. simpl.
  replace (String.length a + 1 - 1)%nat with (String.length a) by lia.
  apply take_append.
Qed.

(** A non-empty text is its last character after the rest. *)
Lemma snoc_decompose (s : string) :
  s <> "" -> exists a c, s = a ++ String c "".
Proof.
  induction s as [|x s IH]; [congruence|]. intros _.
  destruct s as [|y s].
  - exists "", x. reflexivity.
  - destruct IH as (a & c & E); [discriminate|].
    exists (String x a), c. simpl. now rewrite <- E.
Qed.

Lemma strip_pair_inv (s inner : string) :
  strip_pair s = Some inner ->
  exists q, is_quote q /\ s = String q (inner ++ String q "").
Proof.
  unfold strip_pair. destruct s as [|q rest]; [discriminate|].
  destruct ((Ascii.eqb q "034" || Ascii.eqb q "039")
            && (1 <=? String.length rest)%nat
            && String.eqb (Py.last_chars 1 rest) (String q "")) eqn:E;
    [|discriminate].
  intros [= <-].
  apply andb_true_iff in E as [E Hlast].
  apply andb_true_iff in E as [Hq Hlen].
  apply String.eqb_eq in Hlast.
  destruct (snoc_decompose rest) as (a & c & ->).
  { intros ->. discriminate. }
  rewrite last_chars_snoc in Hlast. injection Hlast as ->.
  rewrite drop_last_snoc. exists q. split; [|reflexivity].
  apply orb_true_iff in Hq as [Hq|Hq]; apply Ascii.eqb_eq in Hq; [left|right];
    assumption.
Qed.

Lemma empties_within_Nested (n : nat) (s : string) :
  empties_within n s = true -> Nested s.
Proof.
  revert s. induction n as [|n IH]; intros s; destruct s as [|c s];
    cbn [empties_within]; intros Hin;
    [constructor|discriminate|constructor|].
  destruct (strip_pair (String c s)) as [inner|] eqn:E; [|discriminate].
  revert Hin.
  intros Hin. apply strip_pair_inv in E as (q & Hq & E).
  rewrite E. constructor; [assumption|]. now apply IH.
Qed.

(** [strip] on a text wrapped in one more pair of the stripped character, and
    of another character. *)
Lemma lstrip_snoc (q : ascii) (u : string) :
  Py.lstrip (String q "") (u ++ String q "")
  = match Py.lstrip (String q "") u with
    | "" => ""
    | kept => kept ++ String q ""
    end.
Proof.
  induction u as [|c u IH]; cbn [append Py.lstrip Py.char_in].
  - rewrite Ascii.eqb_refl. reflexivity.
  - destruct (Ascii.eqb c q); cbn [orb]; [exact IH|reflexivity].
Qed.

Lemma rstrip_snoc_same (q : ascii) (v : string) :
  Py.rstrip (String q "") (v ++ String q "") = Py.rstrip (String q "") v.
Proof.
  induction v as [|c v IH]; cbn [append Py.rstrip Py.char_in].
  - rewrite Ascii.eqb_refl. reflexivity.
  - rewrite IH. reflexivity.
Qed.

Lemma rstrip_snoc_other (q c : ascii) (v : string) :
  c <> q ->
  Py.rstrip (String q "") (v ++ String c "") = v ++ String c "".
Proof.
  intros Hne. apply Ascii.eqb_neq in Hne.
  induction v as [|x v IH]; cbn [append Py.rstrip Py.char_in].
  - rewrite Hne. reflexivity.
  - rewrite IH. destruct (v ++ String c "") eqn:E; [|reflexivity].
    destruct v; discriminate.
Qed.

Lemma strip_wrapped_same (q : ascii) (u : string) :
  Py.strip (String q "") (String q (u ++ String q ""))
  = Py.strip (String q "") u.
Proof.
  unfold Py.strip. cbn [Py.lstrip Py.char_in]. rewrite Ascii.eqb_refl.
  cbn [orb]. rewrite lstrip_snoc.
  destruct (Py.lstrip (String q "") u) eqn:E; [reflexivity|].
  apply rstrip_snoc_same.
Qed.

Lemma strip_wrapped_other (q c : ascii) (u : string) :
  c <> q ->
  Py.strip (String q "") (String c (u ++ String c ""))
  = String c (u ++ String c "").
Proof.
  intros Hne. unfold Py.strip. cbn [Py.lstrip Py.char_in].
  rewrite (proj2 (Ascii.eqb_neq c q) Hne). cbn [orb].
  change (String c (u ++ String c "")) with (String c u ++ String c "").
  now apply rstrip_snoc_other.
Qed.

Lemma Nested_strip (q : ascii) (t : string) :
  Nested t -> Nested (Py.strip (String q "") t).
Proof.
  induction 1 as [|c inner Hc Hin IH]; [constructor|].
  destruct (Ascii.ascii_dec c q) as [->|Hne].
  - rewrite strip_wrapped_same. exact IH.
  - rewrite strip_wrapped_other by assumption. now constructor.
Qed.

Lemma endswith_snoc (a : string) (c : ascii) :
  Py.endswith (a ++ String c "") (String c "") = true.
Proof.
  unfold Py.endswith. rewrite last_chars_snoc, String.eqb_refl, length_append.
  rewrite andb_true_r. apply Nat.leb_le. simpl. lia.
Qed.

(** On a non-empty text of nested quote pairs the loop ends with the empty
    text. *)
Lemma strip_outer_quotes_Nested (rounds : nat) (s : string) :
  (String.length s < rounds)%nat -> Nested s -> s <> "" ->
  strip_outer_quotes rounds s = Some Emptied.
Proof.
  revert s. induction rounds as [|rounds IH]; intros s Hlen Hs Hne; [lia|].
  destruct Hs as [|q inner Hq Hin]; [congruence|]. clear Hne.
  set (s := String q (inner ++ String q "")) in *.
  assert (Hstart : Py.startswith s (String q "") = true).
  { apply prefix_cons. split; [reflexivity|apply prefix_empty]. }
  assert (Hend : Py.endswith s (String q "") = true).
  { apply (endswith_snoc (String q inner) q). }
  assert (Hagain :
            match Py.strip (String q "") s with
            | "" => Some Emptied
            | String _ _ => strip_outer_quotes rounds (Py.strip (String q "") s)
            end = Some Emptied).
  { pose proof (length_strip_startswith q (String q "") s
                  (eq_trans (f_equal (fun b => orb b false) (Ascii.eqb_refl q)) eq_refl)
                  Hstart) as Hlt.
    pose proof (Nested_strip q s (Nested_pair q inner Hq Hin)) as Hn.
    destruct (Py.strip (String q "") s) eqn:E; [reflexivity|].
    apply IH; [lia|assumption|discriminate]. }
  cbn [strip_outer_quotes]. destruct Hq as [-> | ->].
  - change (String "034" "") with DQUOTE in *. rewrite Hstart, Hend. exact Hagain.
  - change (String "039" "") with SQUOTE in *.
    replace (Py.startswith s DQUOTE) with false by reflexivity.
    cbn [andb]. rewrite Hstart, Hend. exact Hagain.
Qed.

(** C7, away from the empty text: a non-empty text that is empty after
    stripping matching outer quote pairs resolves to the default mask. *)
Lemma traceflags_quotes_only_default `{PyBuiltins} (env : string) (st : state) :
  _TRACEFLAGS st = None -> env <> "" ->
  empty_after_stripping_pairs env = true ->
  get_trace_display_traceflags (Some env) st
  = Some (Ok TRACE_DISPLAY_DEFAULT, set_TRACEFLAGS st TRACE_DISPLAY_DEFAULT).
Proof.
  intros Hnone Hne Hempty. unfold get_trace_display_traceflags.
  rewrite Hnone, strip_outer_quotes_Nested; auto.
  apply (empties_within_Nested _ _ Hempty).
Qed.

(** *** Integer literals mention no name *)

Lemma lstrip_space_empty (s : string) :
  Py.lstrip_space s = "" -> all_space s = true.
Proof.
  induction s as [|c s IH]; cbn [Py.lstrip_space all_space]; [reflexivity|].
  destruct (Py.is_space c); [exact IH|discriminate].
Qed.

Lemma digit_value_word (c : ascii) (d : Z) :
  Py.digit_value c = Some d -> MiniPy.is_word_char c = true.
Proof.
  unfold Py.digit_value, MiniPy.is_word_char.
  set (n := Z.of_nat (nat_of_ascii c)).
  destruct ((48 <=? n) && (n <=? 57)); [reflexivity|].
  destruct ((97 <=? n) && (n <=? 122)); [reflexivity|].
  destruct ((65 <=? n) && (n <=? 90)); [reflexivity|discriminate].
Qed.

Lemma digit_of_10_decimal (c : ascii) :
  Py.is_digit_of 10 c = true -> MiniPy.is_decimal_digit c = true.
Proof.
  unfold Py.is_digit_of, Py.digit_value, MiniPy.is_decimal_digit.
  set (n := Z.of_nat (nat_of_ascii c)).
  destruct ((48 <=? n) && (n <=? 57)) eqn:E1; [reflexivity|].
  destruct ((97 <=? n) && (n <=? 122)) eqn:E2.
  { intros H. apply Z.ltb_lt in H. apply andb_true_iff in E2 as [E2 _].
    apply Z.leb_le in E2. lia. }
  destruct ((65 <=? n) && (n <=? 90)) eqn:E3; [|discriminate].
  intros H. apply Z.ltb_lt in H. apply andb_true_iff in E3 as [E3 _].
  apply Z.leb_le in E3. lia.
Qed.

(** The digit run reads word characters only. *)
Lemma scan_digits_word (base : Z) (s : string) :
  forall prev_us acc v rest,
    Py.scan_digits base prev_us acc s = Some (v, rest) ->
    exists w, s = w ++ rest /\ all_word w = true.
Proof.
  induction s as [|c s IH]; intros prev_us acc v rest; cbn [Py.scan_digits].
  - destruct prev_us; [discriminate|]. intros [= <- <-]. now exists "".
  - destruct (Ascii.eqb c "_") eqn:Eus.
    + destruct prev_us; [discriminate|]. intros H.
      destruct (IH _ _ _ _ H) as (w & -> & Hw).
      exists (String c w). split; [reflexivity|]. cbn [all_word]. rewrite Hw.
      apply Ascii.eqb_eq in Eus. subst c. reflexivity.
    + destruct (Py.digit_value c) as [d|] eqn:Ed.
      * destruct (d <? base).
        -- intros H. destruct (IH _ _ _ _ H) as (w & -> & Hw).
           exists (String c w). split; [reflexivity|]. cbn [all_word].
           now rewrite Hw, (digit_value_word _ _ Ed).
        -- destruct prev_us; [discriminate|]. intros [= <- <-]. now exists "".
      * destruct prev_us; [discriminate|]. intros [= <- <-]. now exists "".
Qed.

Lemma lex_unfold_word (word : string) (c : ascii) (s : string) :
  MiniPy.is_word_char c = true ->
  MiniPy.lex word (String c s) = MiniPy.lex (word ++ String c "") s.
Proof. intros H. cbn [MiniPy.lex]. now rewrite H. Qed.

(** The tokenizer reads a run of word characters into the current word. *)
Lemma lex_word (w : string) :
  forall word rest,
    all_word w = true ->
    MiniPy.lex word (w ++ rest) = MiniPy.lex (word ++ w) rest.
Proof.
  induction w as [|c w IH]; intros word rest Hw.
  - cbn [append]. f_equal. clear. induction word; simpl; congruence.
  - cbn [all_word] in Hw. apply andb_true_iff in Hw as [Hc Hw].
    cbn [append]. rewrite lex_unfold_word by assumption. rewrite IH by assumption.
    f_equal. clear. induction word; simpl; congruence.
Qed.

(** White space after the last word adds no token. *)
Lemma lex_spaces (rest : string) :
  all_space rest = true ->
  forall word ts,
    MiniPy.lex word rest = Some ts -> MiniPy.flush word (Some []) = Some ts.
Proof.
  induction rest as [|c rest IH]; intros Hs word ts; [trivial|].
  cbn [all_space] in Hs. apply andb_true_iff in Hs as [Hc Hs].
  assert (Hnil : forall ts', MiniPy.lex "" rest = Some ts' -> ts' = []).
  { intros ts' H. apply (IH Hs) in H. now injection H. }
  destruct c as [[] [] [] [] [] [] [] []]; try discriminate Hc;
    cbn [MiniPy.lex MiniPy.is_word_char]; cbn;
    try (intros H; destruct (MiniPy.lex "" rest) as [ts'|] eqn:E;
         [rewrite (Hnil ts' eq_refl) in H; exact H
         |destruct word; discriminate H]);
    try (destruct word; discriminate).
Qed.

Lemma digit_run_word (base : Z) (body : string) (v : Z) (rest : string) :
  digit_run base body = Some (v, rest) ->
  exists c w, body = String c w ++ rest
              /\ Py.is_digit_of base c = true
              /\ all_word (String c w) = true.
Proof.
  unfold digit_run. destruct body as [|c body]; [discriminate|].
  destruct (Ascii.eqb c "_"); [discriminate|].
  destruct (Py.is_digit_of base c) eqn:Hd; [|discriminate].
  intros H. pose proof H as H'.
  apply scan_digits_word in H as (w & Hw & Hall).
  destruct w as [|c' w].
  - (* the run reads its first character *)
    exfalso. cbn [append] in Hw. subst rest.
    cbn [Py.scan_digits] in H'. unfold Py.is_digit_of in Hd.
    destruct (Ascii.eqb c "_") eqn:E.
    + apply Ascii.eqb_eq in E. subst c. discriminate Hd.
    + destruct (Py.digit_value c) as [d|]; [|discriminate Hd]. rewrite Hd in H'.
      apply scan_digits_word in H' as (w & Hw & _).
      apply (f_equal String.length) in Hw. rewrite length_append in Hw.
      cbn [String.length] in Hw. lia.
  - cbn [append] in Hw. injection Hw as <- ->. now exists c, w.
Qed.

Lemma prefixed_run_cases (base : Z) (body : string) (v : Z) (rest : string) :
  match body with
  | String "_" body' => digit_run base body'
  | _ => digit_run base body
  end = Some (v, rest) ->
  digit_run base body = Some (v, rest)
  \/ exists body', body = String "_" body' /\ digit_run base body' = Some (v, rest).
Proof.
  destruct body as [|u body']; [now left|].
  destruct u as [[] [] [] [] [] [] [] []]; try (now left).
  intros H. right. now exists body'.
Qed.

Lemma scan_magnitude_cases (s : string) (v : Z) (rest : string) :
  Py.scan_magnitude true s = Some (v, rest) ->
  digit_run 10 s = Some (v, rest)
  \/ exists x body base,
       s = String "0" (String x body) /\ MiniPy.is_word_char x = true
       /\ (digit_run base body = Some (v, rest)
           \/ exists body', body = String "_" body'
                            /\ digit_run base body' = Some (v, rest)).
Proof.
  destruct s as [|c s1]; [discriminate|].
  destruct c as [[] [] [] [] [] [] [] []]; try (intros H; left; exact H).
  destruct s1 as [|x body]; [intros H; left; exact H|].
  unfold Py.scan_magnitude.
  destruct (Py.char_in x "xX") eqn:E16.
  { intros H. right. exists x, body, 16. split; [reflexivity|]. split.
    - cbn in E16. apply orb_true_iff in E16 as [E|E];
        [|apply orb_true_iff in E as [E|E]; [|discriminate]];
        apply Ascii.eqb_eq in E; subst x; reflexivity.
    - now apply prefixed_run_cases. }
  destruct (Py.char_in x "oO") eqn:E8.
  { intros H. right. exists x, body, 8. split; [reflexivity|]. split.
    - cbn in E8. apply orb_true_iff in E8 as [E|E];
        [|apply orb_true_iff in E as [E|E]; [|discriminate]];
        apply Ascii.eqb_eq in E; subst x; reflexivity.
    - now apply prefixed_run_cases. }
  destruct (Py.char_in x "bB") eqn:E2.
  { intros H. right. exists x, body, 2. split; [reflexivity|]. split.
    - cbn in E2. apply orb_true_iff in E2 as [E|E];
        [|apply orb_true_iff in E as [E|E]; [|discriminate]];
        apply Ascii.eqb_eq in E; subst x; reflexivity.
    - now apply prefixed_run_cases. }
  intros H. left.
  change (match digit_run 10 (String "0" (String x body)) with
          | Some (v0, rest0) => if v0 =? 0 then Some (v0, rest0) else None
          | None => None
          end = Some (v, rest)) in H.
  destruct (digit_run 10 (String "0" (String x body))) as [[v0 rest0]|];
    [|discriminate].
  destruct (v0 =? 0); [assumption|discriminate].
Qed.

(** A literal is a word that starts with a decimal digit. *)
Lemma scan_magnitude_word (s : string) (v : Z) (rest : string) :
  Py.scan_magnitude true s = Some (v, rest) ->
  exists c w, s = String c w ++ rest
              /\ MiniPy.is_decimal_digit c = true
              /\ all_word (String c w) = true.
Proof.
  intros H. apply scan_magnitude_cases in H
    as [H | (x & body & base & -> & Hx & [H | (body' & -> & H)])].
  - apply digit_run_word in H as (c & w & -> & Hd & Hw).
    exists c, w. split; [reflexivity|]. split; [|assumption].
    now apply digit_of_10_decimal.
  - apply digit_run_word in H as (c & w & -> & _ & Hw).
    exists "0"%char, (String x (String c w)). split; [reflexivity|].
    split; [reflexivity|]. cbn [all_word] in *. now rewrite Hx.
  - apply digit_run_word in H as (c & w & -> & _ & Hw).
    exists "0"%char, (String x (String "_" (String c w))).
    split; [reflexivity|]. split; [reflexivity|].
    cbn [all_word] in *. now rewrite Hx.
Qed.

Lemma lex_literal (body : string) (v : Z) (rest : string) (ts : list MiniPy.token) :
  Py.scan_magnitude true body = Some (v, rest) ->
  Py.lstrip_space rest = "" ->
  MiniPy.lex "" body = Some ts ->
  exists m, ts = [MiniPy.TNumber m].
Proof.
  intros Hscan Hrest Hlex.
  apply scan_magnitude_word in Hscan as (c & w & -> & Hc & Hw).
  rewrite lex_word in Hlex by assumption. cbn [append] in Hlex.
  apply lex_spaces in Hlex; [|now apply lstrip_space_empty].
  cbn [MiniPy.flush] in Hlex. unfold MiniPy.word_token in Hlex.
  rewrite Hc in Hlex.
  destruct (Py.scan_magnitude true (String c w)) as [[m [|]]|];
    try discriminate Hlex.
  injection Hlex as <-. now exists m.
Qed.

Lemma compile_no_leading_space (c : ascii) (s : string) (e : MiniPy.expr) :
  MiniPy.compile (String c s) = Some e -> Py.is_space c = false.
Proof.
  destruct c as [[] [] [] [] [] [] [] []]; try reflexivity;
    cbn; try discriminate;
    destruct (MiniPy.lex "" s); discriminate.
Qed.

Lemma sign_split_other (c : ascii) (s : string) :
  c <> "+"%char -> c <> "-"%char -> sign_split (String c s) = (false, String c s).
Proof.
  intros Hp Hm.
  destruct c as [[] [] [] [] [] [] [] []]; try reflexivity; congruence.
Qed.

Lemma compile_unsigned (c : ascii) (s : string) :
  c <> " "%char -> c <> "009"%char ->
  MiniPy.compile (String c s)
  = match MiniPy.lex "" (String c s) with
    | Some ts => MiniPy.parse ts true [] []
    | None => None
    end.
Proof.
  intros Hs Ht.
  destruct c as [[] [] [] [] [] [] [] []]; try reflexivity; congruence.
Qed.

Lemma lex_plus (s : string) :
  MiniPy.lex "" (String "+" s)
  = MiniPy.cons_token (MiniPy.TSign false) (MiniPy.lex "" s).
Proof. cbn. destruct (MiniPy.lex "" s); reflexivity. Qed.

Lemma lex_minus (s : string) :
  MiniPy.lex "" (String "-" s)
  = MiniPy.cons_token (MiniPy.TSign true) (MiniPy.lex "" s).
Proof. cbn. destruct (MiniPy.lex "" s); reflexivity. Qed.

(** A text that [int(s, 0)] accepts compiles, if at all, to code without
    names: the integer attempt never pre-empts an expression that mentions
    an identifier. *)
Lemma int_literal_no_names (s : string) (n : Z) (e : MiniPy.expr) :
  Py.int_of_str true s = Some n ->
  MiniPy.compile s = Some e ->
  MiniPy.names_of e [] = [].
Proof.
  intros Hint Hc. destruct s as [|c s]; [discriminate Hc|].
  pose proof (compile_no_leading_space _ _ _ Hc) as Hns.
  unfold Py.int_of_str in Hint. cbn [Py.lstrip_space] in Hint. rewrite Hns in Hint.
  fold (sign_split (String c s)) in Hint.
  assert (Hsp : c <> " "%char) by (intros ->; discriminate Hns).
  assert (Htab : c <> "009"%char) by (intros ->; discriminate Hns).
  rewrite compile_unsigned in Hc by assumption.
  destruct (Ascii.ascii_dec c "+") as [->|Hp]; [|destruct (Ascii.ascii_dec c "-") as [->|Hm]].
  - cbn [sign_split] in Hint.
    destruct (Py.scan_magnitude true s) as [[v rest]|] eqn:Hscan; [|discriminate].
    destruct (Py.lstrip_space rest) eqn:Hrest; [|discriminate].
    rewrite lex_plus in Hc.
    destruct (MiniPy.lex "" s) as [ts|] eqn:Hlex; [|discriminate].
    destruct (lex_literal _ _ _ _ Hscan Hrest Hlex) as [m ->].
    cbn in Hc. injection Hc as <-. reflexivity.
  - cbn [sign_split] in Hint.
    destruct (Py.scan_magnitude true s) as [[v rest]|] eqn:Hscan; [|discriminate].
    destruct (Py.lstrip_space rest) eqn:Hrest; [|discriminate].
    rewrite lex_minus in Hc.
    destruct (MiniPy.lex "" s) as [ts|] eqn:Hlex; [|discriminate].
    destruct (lex_literal _ _ _ _ Hscan Hrest Hlex) as [m ->].
    cbn in Hc. injection Hc as <-. reflexivity.
  - rewrite sign_split_other in Hint by assumption.
    destruct (Py.scan_magnitude true (String c s)) as [[v rest]|] eqn:Hscan;
      [|discriminate].
    destruct (Py.lstrip_space rest) eqn:Hrest; [|discriminate].
    destruct (MiniPy.lex "" (String c s)) as [ts|] eqn:Hlex; [|discriminate].
    destruct (lex_literal _ _ _ _ Hscan Hrest Hlex) as [m ->].
    cbn in Hc. injection Hc as <-. reflexivity.
Qed.

(** With these built-ins the integer attempt needs no mention: an expression
    that compiles and mentions an identifier outside the symbol table makes
    the resolver raise [NameError]. *)
Lemma traceflags_unknown_name (env envstr : string) (st : state)
    (code : MiniPy.expr) (id : string) :
  _TRACEFLAGS st = None ->
  strip_outer_quotes (S (String.length env)) env = Some (Remaining envstr) ->
  MiniPy.compile envstr = Some code ->
  In id (MiniPy.names_of code []) -> ~ In id closed_symbol_table ->
  exists unknown,
    In unknown (MiniPy.names_of code []) /\ ~ In unknown closed_symbol_table
    /\ get_trace_display_traceflags (H := MiniPy.builtins) (Some env) st
       = Some (Raise (NameError ("Undefined trace display symbol: " ++ unknown)), st).
Proof.
  intros Hnone Hstrip Hc Hin Hout.
  assert (Hint : Py.int_of_str true envstr = None).
  { destruct (Py.int_of_str true envstr) as [n|] eqn:E; [|reflexivity].
    rewrite (int_literal_no_names _ _ _ E Hc) in Hin. destruct Hin. }
  destruct (first_undefined_exists (MiniPy.names_of code []) id Hin Hout)
    as [unknown Hu].
  destruct (first_undefined_spec _ _ Hu) as [Hin' Hout'].
  exists unknown. split; [assumption|]. split; [assumption|].
  unfold get_trace_display_traceflags. rewrite Hnone, Hstrip, Hint.
  cbn [py_compile co_names MiniPy.builtins]. rewrite Hc, Hu. reflexivity.
Qed.

(** ** The tracer *)

(** *** The scope filter *)

Lemma get_relmodule_caller_callee_eta (frame : FrameType) :
  get_relmodule_caller_callee (Some frame)
  = (relmodule_of frame,
     (caller_parent frame, snd (snd (fst (get_relmodule_caller_callee (Some frame))))),
     (callee_parent frame, snd (snd (get_relmodule_caller_callee (Some frame))))).
Proof.
  unfold relmodule_of, caller_parent, callee_parent.
  destruct (get_relmodule_caller_callee (Some frame)) as [[rm [cp cl]] [ep el]].
  reflexivity.
Qed.

(** An accepted event is handed to chain reconstruction. *)
Lemma trace_current_module_accepted (cfg : config) (frame : FrameType)
    (event arg : string) (st : trace_state) :
  accepted cfg frame event = true ->
  trace_current_module cfg frame event arg st = reconstruct cfg frame event arg st.
Proof.
  unfold accepted, trace_current_module. intros Ha.
  apply andb_true_iff in Ha as [Ha Hign]. apply andb_true_iff in Ha as [Hev Hscope].
  rewrite Hev. cbn [negb]. rewrite get_relmodule_caller_callee_eta.
  destruct (is_parent (callee_parent frame)); cbn [negb andb orb] in *.
  - destruct (is_ignored cfg event (relmodule_of frame) (co_name (f_code frame)))
      as [[|]|]; try discriminate. reflexivity.
  - apply andb_true_iff in Hscope as [-> ->]. cbn [negb orb].
    destruct (is_ignored cfg event (relmodule_of frame) (co_name (f_code frame)))
      as [[|]|]; try discriminate. reflexivity.
Qed.

(** Any other event writes nothing and assigns nothing. *)
Lemma trace_current_module_rejected (cfg : config) (frame : FrameType)
    (event arg : string) (st : trace_state) :
  accepted cfg frame event = false ->
  snd (trace_current_module cfg frame event arg st) = st.
Proof.
  unfold accepted, trace_current_module. intros Ha.
  destruct (existsb (String.eqb event) (FRAME_TRACE_EVENTS cfg)); [|reflexivity].
  cbn [negb andb] in *. rewrite get_relmodule_caller_callee_eta.
  destruct (is_parent (callee_parent frame)); cbn [negb andb orb] in *.
  - unfold mbind, lift.
    destruct (is_ignored cfg event (relmodule_of frame) (co_name (f_code frame)))
      as [[|]|]; try discriminate; reflexivity.
  - destruct (is_parent (caller_parent frame)); cbn [negb andb orb] in *;
      [|reflexivity].
    destruct (is_allowed cfg event (relmodule_of frame) (co_name (f_code frame)));
      cbn [negb andb orb] in *; [|reflexivity].
    unfold mbind, lift.
    destruct (is_ignored cfg event (relmodule_of frame) (co_name (f_code frame)))
      as [[|]|]; try discriminate; reflexivity.
Qed.

(** C4.  An event whose (relative module, function) pair is on the ignore
    list of its kind writes no line and leaves the chain state as it was,
    whatever the trace flags are: the tracer returns without raising. *)
Theorem ignored_event_writes_nothing (cfg : config) (frame : FrameType)
    (event arg : string) (st : trace_state) :
  on_ignore_list cfg event frame = true ->
  (exists r, trace_current_module cfg frame event arg st = (Ok r, st))
  /\ lines_written st (snd (trace_current_module cfg frame event arg st)) = [].
Proof.
  intros Hl.
  assert (H : exists r, trace_current_module cfg frame event arg st = (Ok r, st)).
  { unfold trace_current_module.
    destruct (existsb (String.eqb event) (FRAME_TRACE_EVENTS cfg));
      [|exists rval; reflexivity].
    cbn [negb]. rewrite get_relmodule_caller_callee_eta.
    match goal with
    | |- context [if ?b then ret rval else _] =>
        destruct b; [exists rval; reflexivity|]
    end.
    assert (Hi : is_ignored cfg event (relmodule_of frame) (co_name (f_code frame))
                 = Ok true).
    { unfold on_ignore_list in Hl. unfold is_ignored.
      destruct (String.eqb event "return"); rewrite Hl; reflexivity. }
    unfold mbind, lift. rewrite Hi. exists rval_None. reflexivity. }
  split; [exact H|].
  destruct H as [r ->]. unfold lines_written. cbn [snd]. apply skipn_all.
Qed.

Lemma ignored_event_writes_nothing_witness :
  (exists r, trace_current_module Samples.all_flags Samples.debug "call" "None"
               MSCOMMON_TRACE.initial
             = (Ok r, MSCOMMON_TRACE.initial))
  /\ lines_written MSCOMMON_TRACE.initial
       (snd (trace_current_module Samples.all_flags Samples.debug "call" "None"
               MSCOMMON_TRACE.initial)) = [].
Proof.
  apply (ignored_event_writes_nothing Samples.all_flags Samples.debug
           "call" "None" MSCOMMON_TRACE.initial).
  reflexivity.
Defined.

(** *** The stack walk *)

(** Induction along the caller links. *)
Lemma frame_back_ind (P : FrameType -> Prop) :
  (forall f, f_back f = None -> P f) ->
  (forall f back, f_back f = Some back -> P back -> P f) ->
  forall f, P f.
Proof.
  intros Hroot Hcall. fix IH 1. intros [c line locals [back|]].
  - apply (Hcall (Frame c line locals (Some back)) back eq_refl). apply IH.
  - apply Hroot. reflexivity.
Qed.

Lemma stack_of_unfold (f : FrameType) :
  stack_of f = f :: match f_back f with
                    | Some back => stack_of back
                    | None => []
                    end.
Proof. destruct f; reflexivity. Qed.

Lemma walk_unfold (f : FrameType) (entry_slot : option Z)
    (frame_chain : list FrameType) :
  walk f entry_slot frame_chain
  = let entry_slot :=
      if is_home f then Some (Z.of_nat (List.length frame_chain)) else entry_slot in
    match f_back f with
    | Some back => walk back entry_slot (f :: frame_chain)
    | None => (entry_slot, f :: frame_chain)
    end.
Proof. destruct f; reflexivity. Qed.

(** The walk yields the stack root first, and the slot of the outermost frame
    of the home module, counted from the current frame. *)
Lemma walk_spec (f : FrameType) :
  forall entry_slot frame_chain,
    walk f entry_slot frame_chain
    = (match outermost_home (stack_of f) with
       | Some k => Some (k + Z.of_nat (List.length frame_chain))
       | None => entry_slot
       end,
       (rev (stack_of f) ++ frame_chain)%list).
Proof.
  induction f as [f Hroot | f back Hback IH] using frame_back_ind;
    intros entry_slot frame_chain;
    rewrite walk_unfold, stack_of_unfold; cbv zeta.
  - rewrite Hroot. cbn [outermost_home rev app].
    destruct (is_home f); reflexivity.
  - rewrite Hback, IH. cbn [outermost_home rev].
    rewrite <- app_assoc. cbn [app]. f_equal.
    destruct (outermost_home (stack_of back)) as [k|].
    + f_equal. cbn [List.length]. lia.
    + destruct (is_home f); reflexivity.
Qed.

Lemma outermost_home_spec (stack : list FrameType) (k : Z) :
  outermost_home stack = Some k ->
  0 <= k < Z.of_nat (List.length stack)
  /\ (exists f, nth_error stack (Z.to_nat k) = Some f /\ is_home f = true)
  /\ (forall j f, (Z.to_nat k < j)%nat -> nth_error stack j = Some f ->
                  is_home f = false).
Proof.
  revert k. induction stack as [|f rest IH]; intros k; cbn [outermost_home];
    [discriminate|].
  destruct (outermost_home rest) as [k'|] eqn:E.
  - intros [= <-]. destruct (IH k' eq_refl) as (Hk & (g & Hg & Hh) & Hout).
    replace (Z.to_nat (k' + 1)) with (S (Z.to_nat k')) by lia.
    split; [cbn [List.length]; lia|]. split.
    + exists g. split; assumption.
    + intros j g' Hj Hn. destruct j as [|j]; [lia|].
      apply (Hout j g'); [lia|exact Hn].
  - destruct (is_home f) eqn:Hf; [|discriminate]. intros [= <-].
    split; [cbn [List.length]; lia|]. split.
    + exists f. split; [reflexivity|assumption].
    + intros j g Hj Hn. destruct j as [|j]; [simpl in Hj; lia|].
      cbn [nth_error] in Hn. clear Hj.
      revert j Hn E. clear. induction rest as [|r rest IH]; intros j Hn E.
      * destruct j; discriminate.
      * cbn [outermost_home] in E.
        destruct (outermost_home rest) eqn:E'; [discriminate|].
        destruct (is_home r) eqn:Hr; [discriminate|].
        destruct j as [|j]; [now injection Hn as <-|].
        now apply (IH j).
Qed.

Lemma outermost_home_none (stack : list FrameType) :
  outermost_home stack = None <-> forallb (fun f => negb (is_home f)) stack = true.
Proof.
  induction stack as [|f rest IH]; cbn [outermost_home forallb]; [tauto|].
  destruct (outermost_home rest).
  - split; [discriminate|]. intros H. apply andb_true_iff in H as [_ H].
    apply IH in H. discriminate.
  - destruct (is_home f); cbn [negb andb]; [split; discriminate|].
    split; intros _; [now apply IH|reflexivity].
Qed.

(** The innermost frame of the home module is never farther out. *)
Lemma innermost_le_outermost (stack : list FrameType) (i k : Z) :
  innermost_home stack = Some i -> outermost_home stack = Some k ->
  0 <= i <= k.
Proof.
  revert i k. induction stack as [|f rest IH]; intros i k;
    cbn [innermost_home outermost_home]; [discriminate|].
  destruct (outermost_home rest) as [k'|] eqn:Eo.
  - intros Hi [= <-]. destruct (is_home f).
    + injection Hi as <-.
      destruct (outermost_home_spec rest k' Eo) as [? _]. lia.
    + destruct (innermost_home rest) as [i'|]; [|discriminate].
      injection Hi as <-. specialize (IH i' k' eq_refl eq_refl). lia.
  - destruct (is_home f); [|discriminate]. intros [= <-] [= <-]. lia.
Qed.

(** *** The window *)

Lemma length_stack_of (f : FrameType) : (1 <= List.length (stack_of f))%nat.
Proof. rewrite stack_of_unfold. cbn [List.length]. lia. Qed.

Lemma window_spec (frame : FrameType) :
  window frame
  = match outermost_home (stack_of frame) with
    | None =>
        Raise (TypeError "unsupported operand type(s) for +: 'NoneType' and 'int'")
    | Some entry_slot =>
        let len := Z.of_nat (List.length (stack_of frame)) in
        Ok (entry_slot,
            skipn (Z.to_nat (len - Z.min (entry_slot + FRAME_CALLER_FRAMES + 1) len))
              (rev (stack_of frame)))
    end.
Proof.
  unfold window. rewrite walk_spec. rewrite app_nil_r.
  destruct (outermost_home (stack_of frame)) as [k|] eqn:E; [|reflexivity].
  cbn [List.length]. rewrite Z.add_0_r, length_rev. cbv zeta.
  destruct (outermost_home_spec _ _ E) as [Hk _].
  pose proof (length_stack_of frame) as Hlen.
  set (len := Z.of_nat (List.length (stack_of frame))) in *.
  unfold FRAME_CALLER_FRAMES. unfold slice_from.
  destruct (len <=? k + 5) eqn:Hc.
  - apply Z.leb_le in Hc.
    replace (len - (len - 1) - 1) with 0 by lia.
    replace (len - Z.min (k + 5 + 1) len) with 0 by lia. reflexivity.
  - apply Z.leb_gt in Hc.
    replace (len - (k + 5) - 1 <? 0) with false by (symmetry; apply Z.ltb_ge; lia).
    do 3 f_equal. lia.
Qed.

Lemma window_length (frame : FrameType) (entry_slot : Z)
    (frame_chain : list FrameType) :
  window frame = Ok (entry_slot, frame_chain) ->
  outermost_home (stack_of frame) = Some entry_slot
  /\ Z.of_nat (List.length frame_chain)
     = Z.min (entry_slot + FRAME_CALLER_FRAMES + 1)
         (Z.of_nat (List.length (stack_of frame))).
Proof.
  rewrite window_spec.
  destruct (outermost_home (stack_of frame)) as [k|] eqn:E; [|discriminate].
  cbv zeta. intros [= <- <-]. split; [reflexivity|].
  destruct (outermost_home_spec _ _ E) as [Hk _].
  rewrite length_skipn, length_rev. unfold FRAME_CALLER_FRAMES. lia.
Qed.

(** *** Occurrences of one text in another *)

Lemma prefix_iff (p s : string) :
  String.prefix p s = true <-> exists b, s = p ++ b.
Proof.
  revert s. induction p as [|c p IH]; intros s.
  - rewrite prefix_empty. split; [|reflexivity]. intros _. now exists s.
  - destruct s as [|d s].
    + split; [discriminate|]. intros [b Hb]. discriminate.
    + rewrite prefix_cons, IH. split.
      * intros [-> [b ->]]. now exists b.
      * intros [b [= -> ->]]. split; [reflexivity|now exists b].
Qed.

Lemma contains_iff (sub s : string) :
  Py.contains sub s = true <-> Occurs sub s.
Proof.
  induction s as [|c s IH]; cbn [Py.contains].
  - rewrite orb_false_r, prefix_iff. split.
    + intros [b Hb]. now exists "", b.
    + intros (a & b & Hab). destruct a; [now exists b|discriminate].
  - rewrite orb_true_iff, prefix_iff, IH. split.
    + intros [[b Hb] | (a & b & Hab)].
      * now exists "", b.
      * exists (String c a), b. simpl. now rewrite Hab.
    + intros (a & b & Hab). destruct a as [|x a].
      * left. now exists b.
      * right. injection Hab as _ Hab. now exists a, b.
Qed.

Lemma Occurs_append_r (sub s t : string) : Occurs sub s -> Occurs sub (s ++ t).
Proof.
  intros (a & b & ->). exists a, (b ++ t). now rewrite !append_assoc.
Qed.

Lemma Occurs_cons (sub s : string) (c : ascii) :
  Occurs sub s -> Occurs sub (String c s).
Proof. intros (a & b & ->). now exists (String c a), b. Qed.

Lemma take_drop (n : nat) (s : string) : Py.take n s ++ Py.drop n s = s.
Proof.
  revert s. induction n as [|n IH]; intros [|c s]; simpl; try reflexivity.
  now rewrite IH.
Qed.

Lemma Occurs_take (sub s : string) (n : nat) :
  Occurs sub (Py.take n s) -> Occurs sub s.
Proof.
  intros H. rewrite <- (take_drop n s). now apply Occurs_append_r.
Qed.

(** Every piece of a split occurs in the text that was split. *)
Lemma split_Occurs (sep : ascii) (s piece : string) :
  In piece (Py.split sep s) -> Occurs piece s.
Proof.
  revert piece. induction s as [|c s IH]; intros piece; cbn [Py.split].
  - intros [<-|[]]. now exists "", "".
  - destruct (Ascii.eqb c sep).
    + intros [<-|Hin].
      * now exists "", (String c s).
      * apply Occurs_cons. now apply IH.
    + destruct (Py.split sep s) as [|first rest] eqn:E.
      * intros [<-|[]]. now exists "", s.
      * intros [<-|Hin].
        -- destruct (IH first (or_introl eq_refl)) as (a & b & Hs).
           (* the first piece starts the text *)
           assert (Hpre : exists b', s = first ++ b').
           { clear IH Hs a b. revert first rest E.
             induction s as [|d s IHs]; intros first rest E; cbn [Py.split] in E.
             - injection E as <- <-. now exists "".
             - destruct (Ascii.eqb d sep).
               + injection E as <- <-. now exists (String d s).
               + destruct (Py.split sep s) as [|f r] eqn:E'.
                 * injection E as <- <-. exists s. reflexivity.
                 * injection E as <- <-.
                   destruct (IHs f r eq_refl) as [b' ->]. now exists b'. }
           destruct Hpre as [b' ->]. now exists "", b'.
        -- apply Occurs_cons. apply IH. now right.
Qed.

Lemma In_skipn {A : Type} (n : nat) (l : list A) (x : A) :
  In x (skipn n l) -> In x l.
Proof.
  revert l. induction n as [|n IH]; intros [|y l]; simpl; auto.
Qed.

(** A text without the character [b] that occurs after [a] was replaced by
    [b] occurred before. *)
Lemma replace_append_inv (a b : ascii) (s x y : string) :
  Py.replace a b s = x ++ y ->
  exists sx sy, s = sx ++ sy /\ Py.replace a b sx = x /\ Py.replace a b sy = y.
Proof.
  revert s. induction x as [|c x IH]; intros s H.
  - now exists "", s.
  - destruct s as [|d s]; [discriminate|]. cbn [Py.replace append] in H.
    injection H as Hc H. destruct (IH s H) as (sx & sy & -> & Hx & Hy).
    exists (String d sx), sy. cbn [Py.replace append]. now rewrite Hc, Hx.
Qed.

Lemma replace_fixed (a b : ascii) (s sub : string) :
  Py.char_in b sub = false -> Py.replace a b s = sub -> s = sub.
Proof.
  revert sub. induction s as [|c s IH]; intros sub Hb H; cbn [Py.replace] in H.
  - assumption.
  - destruct sub as [|d sub]; [discriminate|]. injection H as Hc H.
    cbn [Py.char_in] in Hb. apply orb_false_iff in Hb as [Hbd Hb].
    rewrite (IH sub Hb H). f_equal.
    destruct (Ascii.eqb c a); [|assumption].
    subst d. now rewrite Ascii.eqb_refl in Hbd.
Qed.

Lemma Occurs_replace (a b : ascii) (s sub : string) :
  Py.char_in b sub = false -> Occurs sub (Py.replace a b s) -> Occurs sub s.
Proof.
  intros Hb (x & y & H).
  apply replace_append_inv in H as (sx & s' & -> & _ & H).
  apply replace_append_inv in H as (ssub & sy & -> & H & _).
  apply (replace_fixed a b _ _ Hb) in H as ->. now exists sx, sy.
Qed.

Lemma Occurs_get_module (filename sub : string) :
  Py.char_in "/" sub = false ->
  Occurs sub (get_module filename) -> Occurs sub filename.
Proof.
  intros Hsub. unfold get_module, strip_extension.
  destruct filename as [|c rest]; [auto|].
  set (filename := String c rest).
  assert (Hgen : Occurs sub
                   (Py.replace "\" "/"
                      match Py.rfind "." filename with
                      | Some ind => Py.take ind filename
                      | None => filename
                      end) -> Occurs sub filename).
  { intros H. apply Occurs_replace in H; [|assumption].
    destruct (Py.rfind "." filename); [now apply Occurs_take in H|assumption]. }
  destruct c as [[] [] [] [] [] [] [] []]; auto.
Qed.

(** A frame whose enclosing module is the home module is a frame of the home
    module for the stack walk as well. *)
Lemma is_parent_is_home (filename : string) :
  is_parent (fst (parent_and_leaf (get_module filename))) = true ->
  Py.contains PARENT_MODULE filename = true.
Proof.
  unfold parent_and_leaf. intros Hp. apply contains_iff.
  apply Occurs_get_module; [reflexivity|].
  destruct (Py.last_items 2 (Py.split "/" (get_module filename)))
    as [|parent [|leaf [|]]] eqn:E; try discriminate Hp.
  cbn [fst is_parent] in Hp. apply String.eqb_eq in Hp. subst parent.
  apply (split_Occurs "/"). apply (In_skipn (List.length (Py.split "/" (get_module filename)) - 2)).
  unfold Py.last_items in E. rewrite E. now left.
Qed.

Lemma callee_parent_eq (frame : FrameType) :
  callee_parent frame
  = fst (parent_and_leaf (get_module (co_filename (f_code frame)))).
Proof.
  unfold callee_parent, get_relmodule_caller_callee.
  destruct (f_back frame); reflexivity.
Qed.

Lemma caller_parent_eq (frame : FrameType) :
  caller_parent frame
  = match f_back frame with
    | Some back => fst (parent_and_leaf (get_module (co_filename (f_code back))))
    | None => None
    end.
Proof.
  unfold caller_parent, get_relmodule_caller_callee.
  destruct (f_back frame); reflexivity.
Qed.

Lemma accepted_scope (cfg : config) (frame : FrameType) (event : string) :
  accepted cfg frame event = true ->
  is_parent (callee_parent frame) = true \/ is_parent (caller_parent frame) = true.
Proof.
  unfold accepted. intros H. apply andb_true_iff in H as [H _].
  apply andb_true_iff in H as [_ H]. apply orb_true_iff in H as [H|H]; [now left|].
  apply andb_true_iff in H as [H _]. now right.
Qed.

(** An accepted event has a frame of the home module at distance 0 or 1. *)
Lemma accepted_home_frame (cfg : config) (frame : FrameType) (event : string) :
  accepted cfg frame event = true ->
  is_home frame = true
  \/ exists back, f_back frame = Some back /\ is_home back = true.
Proof.
  intros H. apply accepted_scope in H as [H|H].
  - left. rewrite callee_parent_eq in H. now apply is_parent_is_home.
  - right. rewrite caller_parent_eq in H.
    destruct (f_back frame) as [back|]; [|discriminate].
    exists back. split; [reflexivity|]. now apply is_parent_is_home.
Qed.

Lemma accepted_outermost_home (cfg : config) (frame : FrameType) (event : string) :
  accepted cfg frame event = true ->
  exists entry_slot, outermost_home (stack_of frame) = Some entry_slot.
Proof.
  intros H. destruct (outermost_home (stack_of frame)) as [k|] eqn:E; [eauto|].
  exfalso. apply outermost_home_none in E. rewrite stack_of_unfold in E.
  cbn [forallb] in E. apply andb_true_iff in E as [Hf E].
  apply accepted_home_frame in H as [H | (back & Hb & H)].
  - rewrite H in Hf. discriminate.
  - rewrite Hb, stack_of_unfold in E. cbn [forallb] in E.
    rewrite H in E. discriminate.
Qed.

(** *** Acceptance with AllFramesOneBelow *)

(** C1, as stated, fails: with every flag set, the call of
    [subprocess._execute_child] two frames below the home module is not on an
    ignore list, yet it is rejected, because neither its module nor its
    caller's is the home module. *)
Lemma allframes_two_below_rejected :
  DISPLAY_ALLFRAMES_ONEBELOW Samples.all_flags = true
  /\ is_parent (callee_parent Samples.execute_child) = false
  /\ is_parent (caller_parent Samples.execute_child) = false
  /\ on_ignore_list Samples.all_flags "call" Samples.execute_child = false
  /\ accepted Samples.all_flags Samples.execute_child "call" = false
  /\ trace_current_module Samples.all_flags Samples.execute_child "call" "None"
       MSCOMMON_TRACE.initial
     = (Ok rval, MSCOMMON_TRACE.initial).
Proof. repeat split. Qed.

(** C1, amended.  With AllFramesOneBelow set, the allow list is bypassed, not
    the one-caller-level restriction: a traced event (a call, or a return
    when return values are displayed) whose pair is not on the ignore list of
    its kind is accepted exactly when the callee's or the caller's enclosing
    module is the home module.  Accepted events go to chain reconstruction;
    the others leave no trace. *)
Theorem allframes_acceptance (cfg : config) (frame : FrameType) (event : string) :
  DISPLAY_ALLFRAMES_ONEBELOW cfg = true ->
  event = "call" \/ (event = "return" /\ DISPLAY_RETURN_VALUES cfg = true) ->
  on_ignore_list cfg event frame = false ->
  (accepted cfg frame event = true <->
   is_parent (callee_parent frame) = true \/ is_parent (caller_parent frame) = true)
  /\ (forall arg st,
        trace_current_module cfg frame event arg st
        = if accepted cfg frame event
          then reconstruct cfg frame event arg st
          else (Ok rval, st)).
Proof.
  intros Hall Hev Hign.
  assert (Htraced : existsb (String.eqb event) (FRAME_TRACE_EVENTS cfg) = true).
  { unfold FRAME_TRACE_EVENTS.
    destruct Hev as [-> | [-> ->]]; [destruct (DISPLAY_RETURN_VALUES cfg)|];
      reflexivity. }
  assert (Hallowed : is_allowed cfg event (relmodule_of frame) (co_name (f_code frame))
                     = true).
  { unfold is_allowed. now rewrite Hall. }
  assert (Hnot : is_ignored cfg event (relmodule_of frame) (co_name (f_code frame))
                 = Ok false).
  { unfold on_ignore_list in Hign. unfold is_ignored.
    destruct (String.eqb event "return"); rewrite Hign, ?Hall, ?andb_false_r;
      reflexivity. }
  assert (Hacc : accepted cfg frame event
                 = is_parent (callee_parent frame) || is_parent (caller_parent frame)).
  { unfold accepted. rewrite Htraced, Hallowed, Hnot, !andb_true_r. reflexivity. }
  split.
  - rewrite Hacc. apply orb_true_iff.
  - intros arg st. destruct (accepted cfg frame event) eqn:Ha.
    + now apply trace_current_module_accepted.
    + unfold trace_current_module. rewrite Htraced. cbn [negb].
      rewrite get_relmodule_caller_callee_eta. symmetry in Hacc.
      apply orb_false_iff in Hacc as [-> ->]. reflexivity.
Qed.

Lemma allframes_acceptance_witness :
  (accepted Samples.all_flags Samples.Popen_init "return" = true <->
   is_parent (callee_parent Samples.Popen_init) = true
   \/ is_parent (caller_parent Samples.Popen_init) = true)
  /\ (forall arg st,
        trace_current_module Samples.all_flags Samples.Popen_init "return" arg st
        = if accepted Samples.all_flags Samples.Popen_init "return"
          then reconstruct Samples.all_flags Samples.Popen_init "return" arg st
          else (Ok rval, st)).
Proof.
  apply (allframes_acceptance Samples.all_flags Samples.Popen_init "return").
  - reflexivity.
  - right. split; reflexivity.
  - reflexivity.
Defined.

(** *** The entry slot is defined for accepted events *)

(** An accepted event has a window, cut at the outermost frame of the home
    module. *)
Lemma accepted_window (cfg : config) (frame : FrameType) (event : string) :
  accepted cfg frame event = true ->
  exists entry_slot frame_chain,
    window frame = Ok (entry_slot, frame_chain)
    /\ outermost_home (stack_of frame) = Some entry_slot.
Proof.
  intros Ha. destruct (accepted_outermost_home _ _ _ Ha) as [k Hk].
  pose proof (window_spec frame) as Hw. rewrite Hk in Hw. cbv zeta in Hw.
  eauto.
Qed.

(** C9.  For an event that passes the scope filter, the stack walk meets a
    frame whose file name contains the home module's name, so the entry slot
    is defined; the window arithmetic then goes through and cuts a non-empty
    tail off the frame chain. *)
Theorem accepted_event_has_entry_slot (cfg : config) (frame : FrameType)
    (event : string) :
  accepted cfg frame event = true ->
  (exists f, In f (stack_of frame) /\ is_home f = true)
  /\ exists entry_slot frame_chain dropped,
       walk frame None [] = (Some entry_slot, rev (stack_of frame))
       /\ window frame = Ok (entry_slot, frame_chain)
       /\ 0 <= entry_slot < Z.of_nat (List.length (stack_of frame))
       /\ rev (stack_of frame) = (dropped ++ frame_chain)%list
       /\ frame_chain <> [].
Proof.
  intros Ha. destruct (accepted_outermost_home _ _ _ Ha) as [k Hk].
  destruct (outermost_home_spec _ _ Hk) as (Hrange & (f & Hf & Hhome) & _).
  split.
  { exists f. split; [|assumption]. now apply nth_error_In in Hf. }
  pose proof (window_spec frame) as Hw. rewrite Hk in Hw. cbv zeta in Hw.
  set (n := Z.to_nat (Z.of_nat (List.length (stack_of frame))
                      - Z.min (k + FRAME_CALLER_FRAMES + 1)
                          (Z.of_nat (List.length (stack_of frame))))) in *.
  exists k, (skipn n (rev (stack_of frame))), (firstn n (rev (stack_of frame))).
  repeat split; try lia.
  - rewrite walk_spec, Hk, app_nil_r. cbn [List.length]. do 2 f_equal. lia.
  - exact Hw.
  - symmetry. apply firstn_skipn.
  - intros E. apply (f_equal (@List.length _)) in E.
    rewrite length_skipn, length_rev in E. cbn [List.length] in E.
    unfold FRAME_CALLER_FRAMES in n. lia.
Qed.

Lemma accepted_event_has_entry_slot_witness :
  (exists f, In f (stack_of Samples.Popen_init) /\ is_home f = true)
  /\ exists entry_slot frame_chain dropped,
       walk Samples.Popen_init None []
       = (Some entry_slot, rev (stack_of Samples.Popen_init))
       /\ window Samples.Popen_init = Ok (entry_slot, frame_chain)
       /\ 0 <= entry_slot < Z.of_nat (List.length (stack_of Samples.Popen_init))
       /\ rev (stack_of Samples.Popen_init) = (dropped ++ frame_chain)%list
       /\ frame_chain <> [].
Proof.
  apply (accepted_event_has_entry_slot Samples.all_flags Samples.Popen_init "call").
  reflexivity.
Defined.

(** *** The length of the window *)

(** C2, as stated, fails: after seven nested calls inside the home module the
    accepted call event has a window of eight frames, more than
    [FRAME_CALLER_FRAMES + 1]. *)
Lemma seven_deep_window_exceeds_cap :
  accepted Samples.all_flags Samples.seven_deep "call" = true
  /\ exists frame_chain,
       window Samples.seven_deep = Ok (6, frame_chain)
       /\ Z.of_nat (List.length frame_chain) = 8
       /\ ~ Z.of_nat (List.length frame_chain) <= FRAME_CALLER_FRAMES + 1.
Proof.
  split; [reflexivity|].
  eexists. split; [reflexivity|]. split; [reflexivity|].
  unfold FRAME_CALLER_FRAMES. simpl. lia.
Qed.

(** C2, amended.  For an accepted event the window holds at least one frame
    and at most [entry_slot + FRAME_CALLER_FRAMES + 1]: the frames from the
    outermost frame of the home module down to the current one, and up to
    [FRAME_CALLER_FRAMES] frames above them.  It is the whole stack when the
    stack is shorter.  The cap [FRAME_CALLER_FRAMES + 1] holds when the
    current frame is the outermost frame of the home module. *)
Theorem window_length_bounds (cfg : config) (frame : FrameType) (event : string) :
  accepted cfg frame event = true ->
  exists entry_slot frame_chain,
    window frame = Ok (entry_slot, frame_chain)
    /\ 1 <= Z.of_nat (List.length frame_chain)
         <= entry_slot + FRAME_CALLER_FRAMES + 1
    /\ Z.of_nat (List.length frame_chain)
       = Z.min (entry_slot + FRAME_CALLER_FRAMES + 1)
           (Z.of_nat (List.length (stack_of frame)))
    /\ (entry_slot = 0 ->
        Z.of_nat (List.length frame_chain) <= FRAME_CALLER_FRAMES + 1).
Proof.
  intros Ha.
  destruct (accepted_window _ _ _ Ha) as (k & chain & Hw & Hout).
  destruct (outermost_home_spec _ _ Hout) as [Hk _].
  exists k, chain. destruct (window_length _ _ _ Hw) as [_ Hlen].
  pose proof (length_stack_of frame) as Hdepth.
  unfold FRAME_CALLER_FRAMES in *. repeat split; try assumption; lia.
Qed.

Lemma window_length_bounds_witness :
  exists entry_slot frame_chain,
    window Samples.seven_deep = Ok (entry_slot, frame_chain)
    /\ 1 <= Z.of_nat (List.length frame_chain)
         <= entry_slot + FRAME_CALLER_FRAMES + 1
    /\ Z.of_nat (List.length frame_chain)
       = Z.min (entry_slot + FRAME_CALLER_FRAMES + 1)
           (Z.of_nat (List.length (stack_of Samples.seven_deep)))
    /\ (entry_slot = 0 ->
        Z.of_nat (List.length frame_chain) <= FRAME_CALLER_FRAMES + 1).
Proof.
  apply (window_length_bounds Samples.all_flags Samples.seven_deep "call").
  reflexivity.
Defined.

(** *** What rendering leaves alone *)

Lemma same_chain_refl (st : trace_state) : same_chain st st.
Proof. repeat split. Qed.

Lemma same_chain_trans (a b c : trace_state) :
  same_chain a b -> same_chain b c -> same_chain a c.
Proof. unfold same_chain. intuition congruence. Qed.

Lemma Rendering_ret {A : Type} (a : A) : Rendering (ret a).
Proof. intros st. apply same_chain_refl. Qed.

Lemma Rendering_lift {A : Type} (r : result A) : Rendering (lift r).
Proof. intros st. apply same_chain_refl. Qed.

Lemma Rendering_print (message : string) : Rendering (print_message message).
Proof. intros st. repeat split. Qed.

Lemma Rendering_bind {A B : Type} (m : M A) (k : A -> M B) :
  Rendering m -> (forall a, Rendering (k a)) -> Rendering (mbind m k).
Proof.
  intros Hm Hk st. unfold mbind. specialize (Hm st).
  destruct (m st) as [[a|e] st'] eqn:E; cbn [snd] in *; [|assumption].
  apply (same_chain_trans _ st'); [assumption|apply Hk].
Qed.

Create HintDb rendering.

#[local] Hint Resolve Rendering_ret Rendering_lift Rendering_print
  Rendering_bind : rendering.

Lemma Rendering_display_frame (cfg : config) (f : FrameType) (indent : string)
    (divider : bool) : Rendering (display_frame cfg f indent divider).
Proof.
  unfold display_frame. apply Rendering_bind.
  - destruct (DISPLAY_FUNCTION_ARGLIST cfg); auto with rendering.
  - intros arglist. apply Rendering_bind; [auto with rendering|].
    intros _. destruct (divider && (1 <? FRAME_CALLER_FRAMES)); auto with rendering.
Qed.

Lemma Rendering_display_frame_return (cfg : config) (f : FrameType)
    (arg indent : string) : Rendering (display_frame_return cfg f arg indent).
Proof. unfold display_frame_return. auto with rendering. Qed.

Lemma Rendering_display_chain (cfg : config) (frame_chain : list FrameType) :
  forall i indent, Rendering (display_chain cfg i indent frame_chain).
Proof.
  induction frame_chain as [|f rest IH]; intros i indent; cbn [display_chain].
  - auto with rendering.
  - apply Rendering_bind; [apply Rendering_display_frame|]. intros _. apply IH.
Qed.

Lemma Rendering_display_missing (cfg : config) (frames : list FrameType) :
  forall indent, Rendering (display_missing cfg indent frames).
Proof.
  induction frames as [|f rest IH]; intros indent; cbn [display_missing].
  - auto with rendering.
  - apply Rendering_bind; [apply Rendering_display_frame|]. intros _. apply IH.
Qed.

Lemma mbind_ok {A B : Type} (m : M A) (k : A -> M B)
    (st st' : trace_state) (b : B) :
  mbind m k st = (Ok b, st') ->
  exists a st1, m st = (Ok a, st1) /\ k a st1 = (Ok b, st').
Proof.
  unfold mbind. destruct (m st) as [[a|e] st1]; [eauto|discriminate].
Qed.

(** When chain reconstruction completes, the chain attributes are those it
    computed: a new chain records its entry slot and depth, a continuation
    keeps the recorded ones, and both record the length of the window. *)
Lemma reconstruct_records (cfg : config) (frame : FrameType)
    (event arg : string) (st st' : trace_state) (r : local_tracer)
    (entry_slot : Z) (frame_chain : list FrameType) :
  window frame = Ok (entry_slot, frame_chain) ->
  reconstruct cfg frame event arg st = (Ok r, st') ->
  FRAME_LAST_CHAINLENGTH st' = Z.of_nat (List.length frame_chain)
  /\ if starts_new_chain st frame_chain
     then FRAME_ENTRY_SLOT st' = entry_slot
          /\ FRAME_ENTRY_DEPTH st' = Z.of_nat (List.length frame_chain) - 1
          /\ FRAME_ENTRY_LOCATION st' = entry_location_of frame_chain
     else FRAME_ENTRY_SLOT st' = FRAME_ENTRY_SLOT st
          /\ FRAME_ENTRY_DEPTH st' = FRAME_ENTRY_DEPTH st
          /\ FRAME_ENTRY_LOCATION st' = FRAME_ENTRY_LOCATION st.
Proof.
  intros Hw H. unfold reconstruct in H. rewrite Hw in H.
  apply mbind_ok in H as (w & s1 & Hlift & H).
  unfold lift in Hlift. injection Hlift as <- <-.
  apply mbind_ok in H as (s & s2 & Hget & H).
  unfold get in Hget. injection Hget as <- <-.
  apply mbind_ok in H as (u & s3 & Hbranch & H).
  apply mbind_ok in H as (u' & s4 & Hsave & H).
  unfold save_chainlength in Hsave. injection Hsave as _ <-.
  unfold ret in H. injection H as _ <-.
  cbn [FRAME_LAST_CHAINLENGTH FRAME_ENTRY_SLOT FRAME_ENTRY_DEPTH
       FRAME_ENTRY_LOCATION].
  split; [reflexivity|].
  change (map (fun f => (co_filename (f_code f), f_lineno f)) (firstn 1 frame_chain))
    with (entry_location_of frame_chain) in Hbranch.
  change (match FRAME_ENTRY_LOCATION st with
          | [] => true
          | _ :: _ =>
              negb (location_eqb (entry_location_of frame_chain)
                      (FRAME_ENTRY_LOCATION st))
          end) with (starts_new_chain st frame_chain) in Hbranch.
  destruct (starts_new_chain st frame_chain).
  - apply mbind_ok in Hbranch as (u1 & s5 & _ & Hbranch).
    apply mbind_ok in Hbranch as (u2 & s6 & _ & Hbranch).
    unfold save_entry in Hbranch. injection Hbranch as _ <-.
    cbn. auto.
  - match type of Hbranch with
    | ?m st = _ =>
        assert (Hr : Rendering m);
        [|specialize (Hr st); rewrite Hbranch in Hr; cbn [snd] in Hr;
          unfold same_chain in Hr; intuition congruence]
    end.
    apply Rendering_bind.
    + destruct (1 <? Z.of_nat (List.length frame_chain) - FRAME_LAST_CHAINLENGTH st);
        [apply Rendering_display_missing|apply Rendering_ret].
    + intros _. destruct (String.eqb event "return");
        [apply Rendering_display_frame_return|apply Rendering_display_frame].
Qed.

(** *** Which frame of the home module the entry slot names *)

(** C3, as stated, fails: after three nested calls inside the home module the
    accepted call event has three frames of the home module on its stack, the
    innermost being the current frame (0 frames away, last in the window),
    and the entry slot computed and recorded is 2, the outermost one. *)
Lemma three_deep_entry_slot_is_not_innermost :
  accepted Samples.all_flags Samples.three_deep "call" = true
  /\ List.length (filter is_home (stack_of Samples.three_deep)) = 3%nat
  /\ innermost_home (stack_of Samples.three_deep) = Some 0
  /\ (exists frame_chain,
        window Samples.three_deep = Ok (2, frame_chain)
        /\ nth_error frame_chain 3 = Some Samples.three_deep)
  /\ FRAME_ENTRY_SLOT
       (snd (trace_current_module Samples.all_flags Samples.three_deep
               "call" "None" MSCOMMON_TRACE.initial)) = 2.
Proof.
  split; [reflexivity|]. split; [reflexivity|]. split; [reflexivity|].
  split; [|reflexivity]. eexists. split; reflexivity.
Qed.

(** C3, amended.  For an accepted event the entry slot is the number of
    frames from the current frame to the outermost frame of the home module:
    that frame's file name contains the home module's name and no frame
    farther out does, so the slot is at least that of the innermost such
    frame.  It is the slot recorded when the event starts a new chain. *)
Theorem entry_slot_is_outermost_home (cfg : config) (frame : FrameType)
    (event : string) :
  accepted cfg frame event = true ->
  exists entry_slot frame_chain,
    window frame = Ok (entry_slot, frame_chain)
    /\ outermost_home (stack_of frame) = Some entry_slot
    /\ (exists f, nth_error (stack_of frame) (Z.to_nat entry_slot) = Some f
                  /\ is_home f = true)
    /\ (forall j f, (Z.to_nat entry_slot < j)%nat ->
                    nth_error (stack_of frame) j = Some f -> is_home f = false)
    /\ (forall i, innermost_home (stack_of frame) = Some i -> 0 <= i <= entry_slot)
    /\ (forall arg st st' r,
          trace_current_module cfg frame event arg st = (Ok r, st') ->
          starts_new_chain st frame_chain = true ->
          FRAME_ENTRY_SLOT st' = entry_slot).
Proof.
  intros Ha.
  destruct (accepted_window _ _ _ Ha) as (k & chain & Hw & Hk).
  destruct (outermost_home_spec _ _ Hk) as (_ & Hat & Hout).
  exists k, chain. repeat split; try assumption.
  - now destruct (innermost_le_outermost _ _ _ H Hk).
  - now destruct (innermost_le_outermost _ _ _ H Hk).
  - intros arg st st' r Hrun Hnew.
    rewrite trace_current_module_accepted in Hrun by assumption.
    destruct (reconstruct_records _ _ _ _ _ _ _ _ _ Hw Hrun) as [_ Hrec].
    rewrite Hnew in Hrec. tauto.
Qed.

Lemma entry_slot_is_outermost_home_witness :
  exists entry_slot frame_chain,
    window Samples.three_deep = Ok (entry_slot, frame_chain)
    /\ outermost_home (stack_of Samples.three_deep) = Some entry_slot
    /\ (exists f, nth_error (stack_of Samples.three_deep) (Z.to_nat entry_slot) = Some f
                  /\ is_home f = true)
    /\ (forall j f, (Z.to_nat entry_slot < j)%nat ->
                    nth_error (stack_of Samples.three_deep) j = Some f ->
                    is_home f = false)
    /\ (forall i, innermost_home (stack_of Samples.three_deep) = Some i ->
                  0 <= i <= entry_slot)
    /\ (forall arg st st' r,
          trace_current_module Samples.all_flags Samples.three_deep "call" arg st
          = (Ok r, st') ->
          starts_new_chain st frame_chain = true ->
          FRAME_ENTRY_SLOT st' = entry_slot).
Proof.
  apply (entry_slot_is_outermost_home Samples.all_flags Samples.three_deep "call").
  reflexivity.
Defined.

(** ** Rotation numbers survive the file name *)

Lemma scan_digits_step (c : ascii) (d acc : Z) (s : string) :
  Ascii.eqb c "_" = false -> Py.digit_value c = Some d -> (d <? 10) = true ->
  Py.scan_digits 10 false acc (String c s) = Py.scan_digits 10 false (acc * 10 + d) s.
Proof. intros Hc Hd Hlt. cbn [Py.scan_digits]. now rewrite Hc, Hd, Hlt. Qed.

Lemma scan_digits_uint_acc (d : Decimal.uint) :
  forall p : positive,
    Py.scan_digits 10 false (Zpos p) (NilEmpty.string_of_uint d)
    = Some (Zpos (Pos.of_uint_acc d p), "").
Proof.
  induction d; intros p; cbn [NilEmpty.string_of_uint Pos.of_uint_acc];
    [reflexivity| | | | | | | | | |];
    erewrite scan_digits_step by reflexivity.
  all: rewrite <- IHd; f_equal;
    match goal with
    | |- context [Z.of_nat (nat_of_ascii ?c) - 48] =>
        let v := eval vm_compute in (Z.of_nat (nat_of_ascii c) - 48) in
        change (Z.of_nat (nat_of_ascii c) - 48) with v
    end; lia.
Qed.

Lemma scan_digits_uint (d : Decimal.uint) :
  Py.scan_digits 10 false 0 (NilEmpty.string_of_uint d)
  = Some (Z.of_N (Pos.of_uint d), "").
Proof.
  induction d; cbn [NilEmpty.string_of_uint Pos.of_uint];
    [reflexivity| | | | | | | | | |];
    erewrite scan_digits_step by reflexivity;
    [exact IHd| | | | | | | | |]; apply (scan_digits_uint_acc d).
Qed.

Lemma scan_digits_zeros (k : nat) (s : string) :
  Py.scan_digits 10 false 0 (Py.repeat_chr "0" k ++ s)
  = Py.scan_digits 10 false 0 s.
Proof.
  induction k as [|k IH]; [reflexivity|].
  cbn [Py.repeat_chr append]. erewrite scan_digits_step by reflexivity. exact IH.
Qed.

Lemma string_of_uint_decimal (d : Decimal.uint) :
  all_decimal (NilEmpty.string_of_uint d) = true.
Proof. induction d; cbn [NilEmpty.string_of_uint all_decimal]; auto. Qed.

Lemma to_uint_nonempty (n : N) : NilEmpty.string_of_uint (N.to_uint n) <> "".
Proof.
  destruct n as [|p]; cbn [N.to_uint]; [discriminate|].
  pose proof (DecimalPos.Unsigned.to_uint_nonnil p) as H.
  destruct (Pos.to_uint p); [congruence|..]; discriminate.
Qed.

Lemma all_decimal_app (a b : string) :
  all_decimal (a ++ b) = all_decimal a && all_decimal b.
Proof.
  induction a as [|c a IH]; cbn [append all_decimal]; [reflexivity|].
  now rewrite IH, andb_assoc.
Qed.

Lemma all_decimal_zeros (k : nat) : all_decimal (Py.repeat_chr "0" k) = true.
Proof. induction k; cbn [Py.repeat_chr all_decimal]; auto. Qed.

(** [int] reads back what [FILENAME_NBRFORMAT] wrote. *)
Lemma int_of_decimal (s : string) (c : ascii) (rest : string) (v : Z) :
  s = String c rest -> MiniPy.is_decimal_digit c = true ->
  Py.scan_digits 10 false 0 s = Some (v, "") ->
  Py.int_of_str false s = Some v.
Proof.
  intros -> Hc Hscan.
  assert (Hspace : Py.is_space c = false).
  { destruct c as [[] [] [] [] [] [] [] []]; try reflexivity; discriminate Hc. }
  assert (Hplus : c <> "+"%char) by (intros ->; discriminate Hc).
  assert (Hminus : c <> "-"%char) by (intros ->; discriminate Hc).
  assert (Hus : Ascii.eqb c "_" = false).
  { destruct (Ascii.eqb_spec c "_") as [->|]; [discriminate Hc|reflexivity]. }
  assert (Hdig : Py.is_digit_of 10 c = true).
  { destruct c as [[] [] [] [] [] [] [] []]; try discriminate Hc; reflexivity. }
  unfold Py.int_of_str. cbn [Py.lstrip_space]. rewrite Hspace.
  fold (sign_split (String c rest)). rewrite sign_split_other by assumption.
  change (Py.scan_magnitude false (String c rest))
    with (digit_run 10 (String c rest)).
  unfold digit_run. rewrite Hus, Hdig, Hscan. reflexivity.
Qed.

Lemma nbrformat_int (n : Z) :
  0 <= n -> Py.int_of_str false (FILENAME_NBRFORMAT n) = Some n.
Proof.
  intros Hn. unfold FILENAME_NBRFORMAT, Py.fmt_04d.
  replace (n <? 0) with false by (symmetry; apply Z.ltb_ge; lia).
  rewrite Z.abs_eq by assumption.
  set (digits := NilEmpty.string_of_uint (N.to_uint (Z.to_N n))).
  set (zeros := Py.repeat_chr "0" (4 - String.length digits)).
  assert (Hscan : Py.scan_digits 10 false 0 (zeros ++ digits) = Some (n, "")).
  { subst zeros digits. rewrite scan_digits_zeros, scan_digits_uint.
    change (Pos.of_uint (N.to_uint (Z.to_N n))) with (N.of_uint (N.to_uint (Z.to_N n))).
    rewrite DecimalN.Unsigned.of_to, Z2N.id by assumption. reflexivity. }
  assert (Hdec : all_decimal (zeros ++ digits) = true).
  { subst zeros digits.
    now rewrite all_decimal_app, all_decimal_zeros, string_of_uint_decimal. }
  destruct (zeros ++ digits) as [|c rest] eqn:E.
  - exfalso. destruct zeros; [|discriminate E]. cbn [append] in E.
    now apply (to_uint_nonempty (Z.to_N n)).
  - cbn [all_decimal] in Hdec. apply andb_true_iff in Hdec as [Hc _].
    now apply (int_of_decimal _ c rest).
Qed.

(** *** [rfind] and appended text *)

Lemma char_in_app (c : ascii) (a b : string) :
  Py.char_in c (a ++ b) = Py.char_in c a || Py.char_in c b.
Proof.
  induction a as [|x a IH]; cbn [append Py.char_in]; [reflexivity|].
  now rewrite IH, orb_assoc.
Qed.

Lemma prefix_chr (c x : ascii) (s : string) :
  String.prefix (String c "") (String x s) = Ascii.eqb c x.
Proof.
  destruct (Ascii.eqb_spec c x) as [->|Hne].
  - apply prefix_cons. split; [reflexivity|apply prefix_empty].
  - destruct (String.prefix (String c "") (String x s)) eqn:E; [|reflexivity].
    apply prefix_cons in E as [E _]. contradiction.
Qed.

Lemma rfind_absent (c : ascii) (t : string) :
  Py.char_in c t = false -> Py.rfind (String c "") t = None.
Proof.
  induction t as [|x t IH]; cbn [Py.char_in Py.rfind]; [reflexivity|].
  intros H. apply orb_false_iff in H as [Hx Ht].
  rewrite (IH Ht), prefix_chr, Hx. reflexivity.
Qed.

Lemma rfind_app_absent (c : ascii) (s t : string) :
  Py.char_in c t = false ->
  Py.rfind (String c "") (s ++ t) = Py.rfind (String c "") s.
Proof.
  intros Ht. induction s as [|x s IH]; cbn [append].
  - now rewrite rfind_absent.
  - cbn [Py.rfind]. rewrite IH, !prefix_chr. reflexivity.
Qed.

Lemma rfind_app_present (c : ascii) (s t : string) :
  Py.char_in c t = false ->
  Py.rfind (String c "") (s ++ String c t) = Some (String.length s).
Proof.
  intros Ht. induction s as [|x s IH]; cbn [append].
  - cbn [Py.rfind]. rewrite (rfind_absent c t Ht), prefix_chr, Ascii.eqb_refl.
    reflexivity.
  - cbn [Py.rfind String.length]. now rewrite IH.
Qed.

(** Where [rfind] finds the character, none follows. *)
Lemma rfind_found (c : ascii) (p : string) (i : nat) :
  Py.rfind (String c "") p = Some i ->
  exists a b, p = a ++ String c b /\ String.length a = i /\ Py.char_in c b = false.
Proof.
  revert i. induction p as [|x p IH]; intros i; cbn [Py.rfind]; [discriminate|].
  destruct (Py.rfind (String c "") p) as [j|] eqn:E.
  - intros [= <-]. destruct (IH j eq_refl) as (a & b & -> & Hlen & Hb).
    exists (String x a), b. cbn [append String.length]. auto.
  - rewrite prefix_chr. destruct (Ascii.eqb_spec c x) as [->|]; [|discriminate].
    intros [= <-]. exists "", p. repeat split.
    clear IH. induction p as [|y p IHp]; [reflexivity|].
    cbn [Py.rfind] in E. cbn [Py.char_in].
    destruct (Py.rfind (String x "") p); [discriminate|].
    rewrite prefix_chr in E. destruct (Ascii.eqb x y); [discriminate|].
    now apply IHp.
Qed.

Lemma rfind_chr_app_absent (c : ascii) (s t : string) :
  Py.char_in c t = false -> Py.rfind_chr c (s ++ t) = Py.rfind_chr c s.
Proof. intros H. unfold Py.rfind_chr. now rewrite rfind_app_absent. Qed.

Lemma rfind_chr_app_present (c : ascii) (s t : string) :
  Py.char_in c t = false ->
  Py.rfind_chr c (s ++ String c t) = Z.of_nat (String.length s).
Proof. intros H. unfold Py.rfind_chr. now rewrite rfind_app_present. Qed.

Lemma rfind_chr_range (c : ascii) (p : string) :
  -1 <= Py.rfind_chr c p < Z.of_nat (String.length p).
Proof.
  unfold Py.rfind_chr. destruct (Py.rfind (String c "") p) as [i|] eqn:E; [|lia].
  apply rfind_found in E as (a & b & -> & <- & _).
  rewrite length_append. cbn [String.length]. lia.
Qed.

(** A character found before the end of [s] does not occur in [t]. *)
Lemma rfind_chr_before (c : ascii) (s t : string) :
  Py.rfind_chr c (s ++ t) < Z.of_nat (String.length s) -> Py.char_in c t = false.
Proof.
  intros H. destruct (Py.char_in c t) eqn:E; [|reflexivity]. exfalso.
  (* split [t] at its last [c] *)
  assert (Hsplit : exists a b, t = a ++ String c b /\ Py.char_in c b = false).
  { clear H. induction t as [|x t IH]; [discriminate|].
    cbn [Py.char_in] in E. destruct (Py.char_in c t) eqn:Et.
    - destruct (IH eq_refl) as (a & b & -> & Hb). now exists (String x a), b.
    - rewrite orb_false_r in E. apply Ascii.eqb_eq in E. subst x.
      now exists "", t. }
  destruct Hsplit as (a & b & -> & Hb).
  rewrite <- append_assoc, rfind_chr_app_present, length_append in H by assumption.
  lia.
Qed.

(** *** [splitext] and the tail of the root *)

Lemma splitext_unfold (h : host) (p : string) :
  OsPath.splitext h p
  = let S := sep_index h p in
    let D := Py.rfind_chr "." p in
    if S <? D then
      if OsPath.all_dots (Py.take (Z.to_nat (D - (S + 1))) (Py.drop (Z.to_nat (S + 1)) p))
      then (p, "")
      else (Py.take (Z.to_nat D) p, Py.drop (Z.to_nat D) p)
    else (p, "").
Proof. unfold OsPath.splitext, sep_index. destruct (os_altsep h); reflexivity. Qed.

Lemma sep_index_app (h : host) (s t : string) :
  sep_free h t -> sep_index h (s ++ t) = sep_index h s.
Proof.
  unfold sep_free, sep_index. intros [Hs Ha].
  destruct (os_altsep h); now rewrite !rfind_chr_app_absent.
Qed.

Lemma sep_index_range (h : host) (p : string) :
  -1 <= sep_index h p < Z.of_nat (String.length p).
Proof.
  unfold sep_index. pose proof (rfind_chr_range (os_sep h) p).
  destruct (os_altsep h) as [alt|]; [|assumption].
  pose proof (rfind_chr_range alt p). lia.
Qed.

Lemma sep_index_before (h : host) (s t : string) :
  sep_index h (s ++ t) < Z.of_nat (String.length s) -> sep_free h t.
Proof.
  unfold sep_index, sep_free. destruct (os_altsep h) as [alt|]; intros H.
  - split; apply (rfind_chr_before _ s); lia.
  - split; [|exact I]. now apply (rfind_chr_before _ s).
Qed.

Lemma sep_free_app (h : host) (a b : string) :
  sep_free h a -> sep_free h b -> sep_free h (a ++ b).
Proof.
  unfold sep_free. intros [Ha Ha'] [Hb Hb']. rewrite char_in_app, Ha, Hb.
  split; [reflexivity|]. destruct (os_altsep h); [|exact I].
  now rewrite char_in_app, Ha', Hb'.
Qed.

Lemma plain_sep_free (h : host) (t : string) :
  posixpath h \/ ntpath h -> plain t -> sep_free h t.
Proof.
  unfold posixpath, ntpath, plain, sep_free.
  intros [[-> ->] | [-> ->]] (_ & _ & Hs & Hb); auto.
Qed.

Lemma length_take (n : nat) (s : string) :
  String.length (Py.take n s) = Nat.min n (String.length s).
Proof.
  revert s. induction n as [|n IH]; intros [|c s]; cbn [Py.take String.length];
    try reflexivity. now rewrite IH.
Qed.

Lemma drop_app_le (n : nat) (u t : string) :
  (n <= String.length u)%nat -> Py.drop n (u ++ t) = Py.drop n u ++ t.
Proof.
  revert u. induction n as [|n IH]; intros u Hn.
  - destruct u; destruct t; reflexivity.
  - destruct u as [|c u]; [cbn [String.length] in Hn; lia|].
    cbn [append Py.drop]. apply IH. cbn [String.length] in Hn. lia.
Qed.

Lemma take_app_le (n : nat) (u t : string) :
  (n <= String.length u)%nat -> Py.take n (u ++ t) = Py.take n u.
Proof.
  revert u. induction n as [|n IH]; intros u Hn.
  - destruct u; destruct t; reflexivity.
  - destruct u as [|c u]; [cbn [String.length] in Hn; lia|].
    cbn [append Py.take]. f_equal. apply IH. cbn [String.length] in Hn. lia.
Qed.

Lemma length_drop (n : nat) (s : string) :
  String.length (Py.drop n s) = (String.length s - n)%nat.
Proof.
  revert s. induction n as [|n IH]; intros [|c s]; cbn [Py.drop String.length];
    try reflexivity. apply IH.
Qed.

Lemma take_all (n : nat) (s : string) :
  (String.length s <= n)%nat -> Py.take n s = s.
Proof.
  revert s. induction n as [|n IH]; intros [|c s] H; cbn [Py.take];
    try reflexivity; cbn [String.length] in H; [lia|].
  f_equal. apply IH. lia.
Qed.

Lemma all_dots_app (a b : string) :
  OsPath.all_dots (a ++ b) = OsPath.all_dots a && OsPath.all_dots b.
Proof.
  induction a as [|c a IH]; cbn [append OsPath.all_dots]; [reflexivity|].
  now rewrite IH, andb_assoc.
Qed.

Lemma all_dots_plain (t : string) : plain t -> OsPath.all_dots t = false.
Proof.
  intros (Hne & Hdot & _). destruct t as [|c t]; [congruence|].
  cbn [Py.char_in] in Hdot. apply orb_false_iff in Hdot as [Hc _].
  cbn [OsPath.all_dots]. rewrite Ascii.eqb_sym in Hc. now rewrite Hc.
Qed.

(** [splitext] puts the path back together. *)
Lemma splitext_concat (h : host) (p root ext : string) :
  OsPath.splitext h p = (root, ext) -> p = root ++ ext.
Proof.
  rewrite splitext_unfold. cbv zeta.
  destruct (sep_index h p <? Py.rfind_chr "." p);
    [destruct (OsPath.all_dots _)|]; intros [= <- <-];
    now rewrite ?append_empty_r, ?take_drop.
Qed.

Lemma append_inj_length (a a' x x' : string) :
  a ++ x = a' ++ x' -> String.length a = String.length a' -> a = a' /\ x = x'.
Proof.
  revert a'. induction a as [|c a IH]; intros [|c' a'] H Hlen;
    cbn [String.length] in Hlen; try lia; cbn [append] in H.
  - auto.
  - injection H as -> H. destruct (IH a' H) as [-> ->]; [lia|auto].
Qed.

(** What [splitext] does depends on the tail of the root only through its
    being plain: one plain tail can be exchanged for another. *)
Lemma splitext_swap_tail (h : host) (u t1 t2 e : string) :
  posixpath h \/ ntpath h -> plain t1 -> plain t2 ->
  OsPath.splitext h (u ++ t1 ++ e) = (u ++ t1, e) ->
  OsPath.splitext h (u ++ t2 ++ e) = (u ++ t2, e).
Proof.
  intros Hh H1 H2.
  pose proof (plain_sep_free h t1 Hh H1) as Hs1.
  pose proof (plain_sep_free h t2 Hh H2) as Hs2.
  destruct H1 as (Hne1 & Hd1 & _). pose proof H2 as (Hne2 & Hd2 & _).
  rewrite !splitext_unfold. cbv zeta.
  destruct e as [|x e'].
  - (* no extension: the decision is taken inside [u] *)
    rewrite !append_empty_r.
    rewrite !sep_index_app, !rfind_chr_app_absent by assumption.
    pose proof (rfind_chr_range "." u) as HD.
    pose proof (sep_index_range h u) as HS.
    set (S := sep_index h u) in *. set (D := Py.rfind_chr "." u) in *.
    destruct (S <? D) eqn:Hlt; [|reflexivity]. apply Z.ltb_lt in Hlt.
    rewrite (drop_app_le _ u t1), (drop_app_le _ u t2) by lia.
    rewrite (take_app_le _ _ t1), (take_app_le _ _ t2)
      by (rewrite length_drop; lia).
    destruct (OsPath.all_dots _); [reflexivity|].
    intros [= _ Hdrop]. exfalso.
    apply (f_equal String.length) in Hdrop.
    rewrite length_drop, length_append in Hdrop. cbn [String.length] in Hdrop. lia.
  - (* an extension: it starts at the last dot, after every separator *)
    set (S1 := sep_index h (u ++ t1 ++ String x e')).
    set (D1 := Py.rfind_chr "." (u ++ t1 ++ String x e')).
    destruct (S1 <? D1) eqn:Hlt; [|intros [= _ E]; discriminate E].
    destruct (OsPath.all_dots _); [intros [= _ E]; discriminate E|].
    intros [= Htake _]. apply Z.ltb_lt in Hlt.
    pose proof (rfind_chr_range "." (u ++ t1 ++ String x e')) as HD. fold D1 in HD.
    pose proof (sep_index_range h (u ++ t1 ++ String x e')) as HS1. fold S1 in HS1.
    assert (HD1 : D1 = Z.of_nat (String.length (u ++ t1))).
    { apply (f_equal String.length) in Htake.
      rewrite length_take, !length_append in Htake.
      rewrite !length_append in HD. cbn [String.length] in *.
      rewrite length_append. lia. }
    (* the extension is a dot and dot-free text *)
    assert (Hext : x = "."%char /\ Py.char_in "." e' = false).
    { unfold D1, Py.rfind_chr in HD1.
      destruct (Py.rfind "." (u ++ t1 ++ String x e')) as [i|] eqn:E; [|lia].
      apply rfind_found in E as (a & b & Hp & Hlen & Hb).
      rewrite <- append_assoc in Hp.
      apply append_inj_length in Hp as [_ Hp]; [|lia].
      injection Hp as -> ->. auto. }
    destruct Hext as [-> Hdot].
    assert (Hse : sep_free h (String "." e')).
    { apply (sep_index_before h (u ++ t1)). fold S1.
      rewrite append_assoc. fold S1. lia. }
    (* the same for the other tail *)
    rewrite <- (append_assoc u t2), rfind_chr_app_present by assumption.
    rewrite (append_assoc u t2), sep_index_app by (now apply sep_free_app).
    pose proof (sep_index_range h u) as HS. set (S := sep_index h u) in *.
    rewrite length_append.
    replace (S <? Z.of_nat (String.length u + String.length t2)) with true
      by (symmetry; apply Z.ltb_lt; lia).
    rewrite drop_app_le by lia.
    rewrite <- (append_assoc _ t2).
    replace (Z.to_nat (Z.of_nat (String.length u + String.length t2) - (S + 1)))
      with (String.length (Py.drop (Z.to_nat (S + 1)) u ++ t2))
      by (rewrite length_append, length_drop; lia).
    rewrite take_append, all_dots_app, (all_dots_plain t2 H2), andb_false_r.
    rewrite Nat2Z.id, <- length_append, <- append_assoc.
    now rewrite take_append, drop_append.
Qed.

(** *** Numbered names *)

Lemma all_decimal_lacks (c : ascii) (t : string) :
  MiniPy.is_decimal_digit c = false -> all_decimal t = true ->
  Py.char_in c t = false.
Proof.
  intros Hc. induction t as [|x t IH]; cbn [all_decimal Py.char_in]; [reflexivity|].
  intros H. apply andb_true_iff in H as [Hx Ht]. rewrite (IH Ht), orb_false_r.
  destruct (Ascii.eqb_spec c x) as [->|]; [congruence|reflexivity].
Qed.

Lemma nbrformat_decimal (n : Z) :
  0 <= n -> all_decimal (FILENAME_NBRFORMAT n) = true /\ FILENAME_NBRFORMAT n <> "".
Proof.
  intros Hn. unfold FILENAME_NBRFORMAT, Py.fmt_04d.
  replace (n <? 0) with false by (symmetry; apply Z.ltb_ge; lia).
  split.
  - now rewrite all_decimal_app, all_decimal_zeros, string_of_uint_decimal.
  - intros E. apply (f_equal String.length) in E. rewrite length_append in E.
    cbn [String.length] in E.
    pose proof (to_uint_nonempty (Z.to_N (Z.abs n))) as Hne.
    destruct (NilEmpty.string_of_uint (N.to_uint (Z.to_N (Z.abs n))));
      [congruence|cbn [String.length] in E; lia].
Qed.

Lemma nbrformat_plain (n : Z) : 0 <= n -> plain (FILENAME_NBRFORMAT n).
Proof.
  intros Hn. destruct (nbrformat_decimal n Hn) as [Hd Hne].
  repeat split; [assumption|..]; now apply all_decimal_lacks.
Qed.

(** A marked template is a stem, the marker and an extension. *)
Lemma marked_decompose (h : host) (name : string) :
  is_marked h name = true ->
  exists stem ext,
    OsPath.splitext h name = (stem ++ "-" ++ "#", ext)
    /\ name = stem ++ "-" ++ "#" ++ ext.
Proof.
  unfold is_marked. destruct (OsPath.splitext h name) as [root ext] eqn:E.
  intros H. apply andb_true_iff in H as [_ H]. apply String.eqb_eq in H.
  unfold Py.last_chars, FILENAME_SERIALNBR in H.
  exists (Py.take (String.length root - 2) root), ext.
  assert (Hroot : root = Py.take (String.length root - 2) root ++ "-" ++ "#").
  { rewrite <- (take_drop (String.length root - 2) root) at 1.
    cbn [String.length] in H. now rewrite H. }
  split; [now rewrite <- Hroot|].
  apply splitext_concat in E. rewrite E at 1. rewrite Hroot at 1.
  now rewrite !append_assoc.
Qed.

Lemma numbered_eq (h : host) (name stem ext : string) (n : Z) :
  OsPath.splitext h name = (stem ++ "-" ++ "#", ext) ->
  numbered h name n = (stem ++ "-") ++ FILENAME_NBRFORMAT n ++ ext
  /\ template_glob h name = (stem ++ "-") ++ "*" ++ ext.
Proof.
  intros E. unfold numbered, template_glob, _get_filename. rewrite E.
  replace (stem ++ "-" ++ "#") with ((stem ++ "-") ++ "#")
    by now rewrite append_assoc.
  now rewrite drop_last_snoc.
Qed.

(** The last piece of a split is what follows the last separator. *)
Lemma split_none (c : ascii) (b : string) :
  Py.char_in c b = false -> Py.split c b = [b].
Proof.
  induction b as [|x b IH]; cbn [Py.char_in Py.split]; [reflexivity|].
  intros H. apply orb_false_iff in H as [Hx Hb].
  rewrite Ascii.eqb_sym in Hx. rewrite Hx, (IH Hb). reflexivity.
Qed.

Lemma split_nonempty (c : ascii) (s : string) : Py.split c s <> [].
Proof.
  destruct s as [|x s]; cbn [Py.split]; [discriminate|].
  destruct (Ascii.eqb x c); [discriminate|].
  destruct (Py.split c s); discriminate.
Qed.

Lemma split_app (c : ascii) (a b : string) :
  Py.split c (a ++ String c b) = (Py.split c a ++ Py.split c b)%list.
Proof.
  induction a as [|x a IH]; cbn [append Py.split].
  - now rewrite Ascii.eqb_refl.
  - rewrite IH. pose proof (split_nonempty c a) as Hne.
    destruct (Ascii.eqb x c); [reflexivity|].
    destruct (Py.split c a) as [|p ps]; [congruence|reflexivity].
Qed.

Lemma split_last (c : ascii) (a b : string) :
  Py.char_in c b = false ->
  List.last (Py.split c (a ++ String c b)) "" = b.
Proof.
  intros Hb. rewrite split_app, (split_none c b Hb).
  now rewrite last_app_nonempty by discriminate.
Qed.

Lemma plain_marker : plain "#".
Proof. repeat split; try reflexivity; discriminate. Qed.

Lemma substituted_eq (h : host) (name stem ext t : string) :
  OsPath.splitext h name = (stem ++ "-" ++ "#", ext) ->
  substituted h name t = (stem ++ "-") ++ t ++ ext.
Proof.
  intros E. unfold substituted. rewrite E.
  replace (stem ++ "-" ++ "#") with ((stem ++ "-") ++ "#")
    by now rewrite append_assoc.
  now rewrite drop_last_snoc.
Qed.

Lemma numbered_substituted (h : host) (name : string) (n : Z) :
  numbered h name n = substituted h name (FILENAME_NBRFORMAT n).
Proof.
  unfold numbered, substituted, _get_filename.
  now destruct (OsPath.splitext h name).
Qed.

(** The scan behind a marked template reads the text that stands for the
    marker in the greatest match. *)
Lemma fresh_scan_reads_tail (h : host) (name t : string) :
  posixpath h \/ ntpath h ->
  is_marked h name = true ->
  plain t -> Py.char_in FILENAME_SERIALNBR_0 t = false ->
  glob_glob h (template_glob h name) <> [] ->
  List.last (Py.sorted (glob_glob h (template_glob h name))) "" =
    substituted h name t ->
  fresh_scan h name =
    match Py.int_of_str false t with
    | Some n => Ok (n + 1)
    | None => Raise (ValueError (Py.invalid_literal t))
    end.
Proof.
  intros Hpath Hm Ht Hdash Hne Hlast.
  destruct (marked_decompose h name Hm) as (stem & ext & Hsplit & Hname).
  destruct (numbered_eq h name stem ext 0 Hsplit) as [_ Hglob].
  rewrite (substituted_eq h name stem ext t Hsplit) in Hlast.
  unfold fresh_scan. rewrite Hsplit.
  replace (Py.drop_last (stem ++ "-" ++ "#") ++ "*" ++ ext)
    with (template_glob h name)
    by (unfold template_glob; now rewrite Hsplit).
  unfold _get_next_serialnbr.
  destruct (glob_glob h (template_glob h name)) as [|m ms] eqn:Eg; [congruence|].
  rewrite Hlast.
  assert (Hsw : OsPath.splitext h ((stem ++ "-") ++ t ++ ext)
                = ((stem ++ "-") ++ t, ext)).
  { apply (splitext_swap_tail h (stem ++ "-") "#" t ext Hpath plain_marker Ht).
    replace ((stem ++ "-") ++ "#" ++ ext) with name
      by (rewrite Hname; now rewrite !append_assoc).
    rewrite Hsplit. now rewrite !append_assoc. }
  rewrite Hsw.
  replace ((stem ++ "-") ++ t)
    with (stem ++ String FILENAME_SERIALNBR_0 t)
    by (now rewrite append_assoc).
  now rewrite split_last.
Qed.

Lemma fresh_scan_successor (h : host) (name : string) (n : Z) :
  posixpath h \/ ntpath h ->
  is_marked h name = true ->
  0 <= n ->
  glob_glob h (template_glob h name) <> [] ->
  List.last (Py.sorted (glob_glob h (template_glob h name))) "" =
    numbered h name n ->
  fresh_scan h name = Ok (n + 1).
Proof.
  intros Hpath Hm Hn Hne Hlast. rewrite numbered_substituted in Hlast.
  destruct (nbrformat_decimal n Hn) as [Hd _].
  rewrite (fresh_scan_reads_tail h name (FILENAME_NBRFORMAT n) Hpath Hm
             (nbrformat_plain n Hn)
             (all_decimal_lacks FILENAME_SERIALNBR_0 _ eq_refl Hd) Hne Hlast).
  now rewrite (nbrformat_int n Hn).
Qed.

(** *** The string order [sorted] uses *)

Lemma ascii_compare_refl (c : ascii) : Ascii.compare c c = Eq.
Proof. unfold Ascii.compare. apply N.compare_refl. Qed.

Lemma ascii_compare_trans (a b c : ascii) :
  Ascii.compare a b = Lt -> Ascii.compare b c = Lt -> Ascii.compare a c = Lt.
Proof.
  unfold Ascii.compare. rewrite !N.compare_lt_iff. apply N.lt_trans.
Qed.

Lemma string_compare_refl (s : string) : String.compare s s = Eq.
Proof.
  induction s as [|c s IH]; [reflexivity|].
  cbn [String.compare]. now rewrite ascii_compare_refl.
Qed.

Lemma leb_unfold (s t : string) :
  String.leb s t = match String.compare s t with Gt => false | _ => true end.
Proof. unfold String.leb. destruct (String.compare s t); reflexivity. Qed.

Lemma leb_refl (s : string) : String.leb s s = true.
Proof. now rewrite leb_unfold, string_compare_refl. Qed.

Lemma leb_trans (a b c : string) :
  String.leb a b = true -> String.leb b c = true -> String.leb a c = true.
Proof.
  rewrite !leb_unfold. revert b c.
  induction a as [|x a IH]; intros [|y b] [|z c]; cbn [String.compare];
    try reflexivity; try discriminate.
  destruct (Ascii.compare x y) eqn:Exy; try discriminate;
    destruct (Ascii.compare y z) eqn:Eyz; try discriminate.
  - apply Ascii.compare_eq_iff in Exy, Eyz. subst.
    rewrite ascii_compare_refl. apply IH.
  - apply Ascii.compare_eq_iff in Exy. subst. now rewrite Eyz.
  - apply Ascii.compare_eq_iff in Eyz. subst. now rewrite Exy.
  - now rewrite (ascii_compare_trans x y z Exy Eyz).
Qed.

Lemma compare_app_l (u s t : string) :
  String.compare (u ++ s) (u ++ t) = String.compare s t.
Proof.
  induction u as [|c u IH]; [reflexivity|].
  cbn [append String.compare]. now rewrite ascii_compare_refl.
Qed.

Lemma compare_app_r (s t e : string) :
  String.length s = String.length t ->
  String.compare (s ++ e) (t ++ e) = String.compare s t.
Proof.
  revert t. induction s as [|c s IH]; intros [|d t] Hl; try discriminate.
  - cbn [append]. now rewrite string_compare_refl.
  - cbn [append String.compare]. injection Hl as Hl.
    destruct (Ascii.compare c d); auto.
Qed.

Lemma leb_between (u s t e : string) :
  String.length s = String.length t ->
  String.leb (u ++ s ++ e) (u ++ t ++ e) = String.leb s t.
Proof.
  intros Hl. now rewrite !leb_unfold, compare_app_l, compare_app_r.
Qed.

(** *** Insertion sort *)

Lemma In_insert_sorted (x y : string) (l : list string) :
  In y (Py.insert_sorted x l) <-> y = x \/ In y l.
Proof.
  induction l as [|z l IH]; cbn [Py.insert_sorted In]; [intuition|].
  destruct (String.leb x z); cbn [In]; rewrite ?IH; intuition.
Qed.

Lemma In_sorted (y : string) (l : list string) : In y (Py.sorted l) <-> In y l.
Proof.
  unfold Py.sorted. induction l as [|x l IH]; cbn [fold_right In]; [tauto|].
  rewrite In_insert_sorted, IH. intuition.
Qed.

Lemma ascending_insert (x : string) (l : list string) :
  ascending l -> ascending (Py.insert_sorted x l).
Proof.
  induction l as [|z l IH]; cbn [Py.insert_sorted ascending].
  - intros _. split; [intros y []|exact I].
  - intros [Hz Hl]. destruct (String.leb x z) eqn:E; cbn [ascending].
    + split; [|split; assumption].
      intros y [<-|Hy]; [assumption|]. apply (leb_trans x z y E). now apply Hz.
    + split; [|now apply IH].
      intros y Hy. apply In_insert_sorted in Hy as [->|Hy]; [|now apply Hz].
      destruct (String.leb_total x z) as [H|H]; congruence.
Qed.

Lemma ascending_sorted (l : list string) : ascending (Py.sorted l).
Proof.
  unfold Py.sorted. induction l as [|x l IH]; cbn [fold_right]; [exact I|].
  now apply ascending_insert.
Qed.

Lemma ascending_last (l : list string) (d x : string) :
  ascending l -> In x l -> String.leb x (List.last l d) = true.
Proof.
  induction l as [|z l IH]; [intros _ []|].
  intros [Hz Hl] Hx. destruct l as [|z' l].
  - destruct Hx as [->|[]]. apply leb_refl.
  - change (List.last (z :: z' :: l) d) with (List.last (z' :: l) d).
    destruct Hx as [->|Hx]; [|now apply IH].
    apply Hz. clear. generalize z'. induction l as [|w l IHl]; intros v.
    + now left.
    + right. apply IHl.
Qed.

Lemma last_In (l : list string) (d : string) : l <> [] -> In (List.last l d) l.
Proof.
  induction l as [|z l IH]; [congruence|]. intros _.
  destruct l as [|z' l]; [now left|]. right. apply IH. discriminate.
Qed.

(** [sorted(matches)[-1]] is the greatest match. *)
Lemma last_sorted_greatest (l : list string) (b : string) :
  In b l -> (forall x, In x l -> String.leb x b = true) ->
  List.last (Py.sorted l) "" = b.
Proof.
  intros Hb Hmax.
  assert (Hne : Py.sorted l <> []).
  { intros E. apply In_sorted in Hb. rewrite E in Hb. destruct Hb. }
  apply String.leb_antisym.
  - apply Hmax, In_sorted, last_In, Hne.
  - apply ascending_last; [apply ascending_sorted|now apply In_sorted].
Qed.

(** *** Numbers of four digits *)

(** Up to 9999 the formatted number has four characters, and the next number
    is not below it in string order. *)
Lemma four_digit_table :
  forallb
    (fun i =>
       let k := Z.of_nat i in
       (String.length (FILENAME_NBRFORMAT k) =? 4)%nat
       && ((k =? 9999)
           || String.leb (FILENAME_NBRFORMAT k) (FILENAME_NBRFORMAT (k + 1))))
    (seq 0 (Z.to_nat 10000)) = true.
Proof. vm_compute. reflexivity. Qed.

Lemma four_digit_entry (k : Z) :
  0 <= k <= 9999 ->
  String.length (FILENAME_NBRFORMAT k) = 4%nat
  /\ (k < 9999 ->
      String.leb (FILENAME_NBRFORMAT k) (FILENAME_NBRFORMAT (k + 1)) = true).
Proof.
  intros Hk. pose proof four_digit_table as H.
  rewrite forallb_forall in H. specialize (H (Z.to_nat k)).
  rewrite Z2Nat.id in H by lia. cbv zeta in H.
  assert (Hin : In (Z.to_nat k) (seq 0 (Z.to_nat 10000))) by (apply in_seq; lia).
  apply H in Hin. apply andb_true_iff in Hin as [Hlen Hstep].
  apply Nat.eqb_eq in Hlen. split; [exact Hlen|].
  intros Hlt. apply orb_true_iff in Hstep as [E|E]; [|exact E].
  apply Z.eqb_eq in E. lia.
Qed.

Lemma nbrformat_monotone (j k : Z) :
  0 <= j -> j <= k -> k <= 9999 ->
  String.leb (FILENAME_NBRFORMAT j) (FILENAME_NBRFORMAT k) = true.
Proof.
  intros Hj Hjk Hk.
  replace k with (j + Z.of_nat (Z.to_nat (k - j))) in * by lia.
  induction (Z.to_nat (k - j)) as [|d IH].
  - rewrite Z.add_0_r. apply leb_refl.
  - apply (leb_trans _ (FILENAME_NBRFORMAT (j + Z.of_nat d))).
    + apply IH; lia.
    + replace (j + Z.of_nat (S d)) with (j + Z.of_nat d + 1) by lia.
      apply four_digit_entry; lia.
Qed.

(** *** Rotation over a directory of numbered files *)

Lemma numbered_leb (h : host) (name : string) (j k : Z) :
  is_marked h name = true ->
  String.length (FILENAME_NBRFORMAT j) = String.length (FILENAME_NBRFORMAT k) ->
  String.leb (numbered h name j) (numbered h name k) =
  String.leb (FILENAME_NBRFORMAT j) (FILENAME_NBRFORMAT k).
Proof.
  intros Hm Hl.
  destruct (marked_decompose h name Hm) as (stem & ext & Hsplit & _).
  destruct (numbered_eq h name stem ext j Hsplit) as [-> _].
  destruct (numbered_eq h name stem ext k Hsplit) as [-> _].
  now apply leb_between.
Qed.

Lemma splitext_same_convention (h h' : host) (p : string) :
  os_sep h' = os_sep h -> os_altsep h' = os_altsep h ->
  OsPath.splitext h' p = OsPath.splitext h p.
Proof. intros Hs Ha. unfold OsPath.splitext. now rewrite Hs, Ha. Qed.

(** X1.  Rotation is right over the whole four-digit range.  On a POSIX or
    Windows host, when every match of the pattern of a marked template is
    that template numbered with some [k] between 0 and [m], the template
    numbered [m] is among them and [m <= 9999], [rewrite_filename] returns
    the template numbered [m + 1] and records [m + 1] as the last number,
    so that [_last_n] is [m + 1] afterwards and nothing else has changed:
    the zero padding makes the string order of [sorted] agree with the
    order of the numbers. *)
Theorem rotation_four_digits (h : host) (name : string) (m : Z) (st : state) :
  posixpath h \/ ntpath h ->
  is_marked h name = true ->
  (forall p, In p (glob_glob h (template_glob h name)) ->
     exists k, 0 <= k <= m /\ p = numbered h name k) ->
  In (numbered h name m) (glob_glob h (template_glob h name)) ->
  m <= 9999 ->
  rewrite_filename h (Some name) false st =
    (Ok (Some (numbered h name (m + 1))), set_last_n st (m + 1))
  /\ _last_n (snd (rewrite_filename h (Some name) false st)) = Some (m + 1)
  /\ _TRACEFLAGS (snd (rewrite_filename h (Some name) false st))
     = _TRACEFLAGS st.
Proof.
  intros Hpath Hm Hall Hin Hmax.
  destruct (Hall _ Hin) as (k0 & Hk0 & _).
  rewrite (rewrite_filename_marked h name false st Hm).
  rewrite (fresh_scan_successor h name m Hpath Hm);
    [repeat split; reflexivity|lia| |].
  - intros E. rewrite E in Hin. destruct Hin.
  - apply last_sorted_greatest; [exact Hin|].
    intros x Hx. destruct (Hall x Hx) as (k & Hk & ->).
    rewrite numbered_leb; [apply nbrformat_monotone; lia|exact Hm|].
    destruct (four_digit_entry k) as [-> _]; [lia|].
    destruct (four_digit_entry m) as [-> _]; [lia|reflexivity].
Qed.

Lemma rotation_four_digits_witness :
  rewrite_filename SampleHosts.logs (Some "logs/scons-#.log") false MSCOMMON.initial =
    (Ok (Some (numbered SampleHosts.logs "logs/scons-#.log" (10 + 1))),
     set_last_n MSCOMMON.initial (10 + 1))
  /\ _last_n (snd (rewrite_filename SampleHosts.logs (Some "logs/scons-#.log")
                     false MSCOMMON.initial)) = Some (10 + 1)
  /\ _TRACEFLAGS (snd (rewrite_filename SampleHosts.logs (Some "logs/scons-#.log")
                         false MSCOMMON.initial)) = _TRACEFLAGS MSCOMMON.initial.
Proof.
  apply (rotation_four_digits SampleHosts.logs "logs/scons-#.log" 10 MSCOMMON.initial).
  - left. split; reflexivity.
  - reflexivity.
  - intros p Hp. vm_compute in Hp.
    destruct Hp as [<-|[<-|[<-|[]]]];
      [exists 2|exists 10|exists 9]; (split; [lia|reflexivity]).
  - vm_compute. right. left. reflexivity.
  - lia.
Defined.

(** X2.  The numbering sticks at 10000.  When the matches are the template
    numbered with numbers up to 10000 and the one numbered 9999 is among
    them, [rewrite_filename] returns the template numbered 10000, whether or
    not that file exists already: in string order the five-digit name sorts
    below the four-digit ones. *)
Theorem rotation_sticks_at_10000 (h : host) (name : string) (st : state) :
  posixpath h \/ ntpath h ->
  is_marked h name = true ->
  (forall p, In p (glob_glob h (template_glob h name)) ->
     exists k, 0 <= k <= 10000 /\ p = numbered h name k) ->
  In (numbered h name 9999) (glob_glob h (template_glob h name)) ->
  rewrite_filename h (Some name) false st =
    (Ok (Some (numbered h name 10000)), set_last_n st 10000).
Proof.
  intros Hpath Hm Hall Hin.
  rewrite (rewrite_filename_marked h name false st Hm).
  rewrite (fresh_scan_successor h name 9999 Hpath Hm); [reflexivity|lia| |].
  - intros E. rewrite E in Hin. destruct Hin.
  - apply last_sorted_greatest; [exact Hin|].
    intros x Hx. destruct (Hall x Hx) as (k & Hk & ->).
    destruct (Z.eq_dec k 10000) as [->|Hne].
    + destruct (marked_decompose h name Hm) as (stem & ext & Hsplit & _).
      destruct (numbered_eq h name stem ext 10000 Hsplit) as [-> _].
      destruct (numbered_eq h name stem ext 9999 Hsplit) as [-> _].
      rewrite leb_unfold, compare_app_l. reflexivity.
    + rewrite numbered_leb; [apply nbrformat_monotone; lia|exact Hm|].
      destruct (four_digit_entry k) as [-> _]; [lia|reflexivity].
Qed.

Lemma rotation_sticks_at_10000_witness :
  In (numbered SampleHosts.crowded "logs/scons-#.log" 10000)
    (glob_glob SampleHosts.crowded
       (template_glob SampleHosts.crowded "logs/scons-#.log"))
  /\ rewrite_filename SampleHosts.crowded (Some "logs/scons-#.log") false MSCOMMON.initial =
       (Ok (Some (numbered SampleHosts.crowded "logs/scons-#.log" 10000)),
        set_last_n MSCOMMON.initial 10000).
Proof.
  split; [vm_compute; left; reflexivity|].
  apply (rotation_sticks_at_10000 SampleHosts.crowded "logs/scons-#.log" MSCOMMON.initial).
  - left. split; reflexivity.
  - reflexivity.
  - intros p Hp. vm_compute in Hp.
    destruct Hp as [<-|[<-|[<-|[]]]];
      [exists 10000|exists 9999|exists 1]; (split; [lia|reflexivity]).
  - vm_compute. right. left. reflexivity.
Defined.

(** X3.  A [sync=True] call repeats what the preceding [sync=False] call
    returned.  Whatever the file name, once [rewrite_filename(filename)]
    has returned, [rewrite_filename(filename, sync=True)] returns the same
    name and assigns nothing, also when the directory has changed in
    between: on a marked template it takes the recorded number and does not
    scan. *)
Theorem sync_repeats_last_name (h h' : host) (filename r : option string)
    (st st' : state) :
  os_sep h' = os_sep h -> os_altsep h' = os_altsep h ->
  rewrite_filename h filename false st = (Ok r, st') ->
  rewrite_filename h' filename true st' = (Ok r, st').
Proof.
  intros Hs Ha Hfirst.
  destruct filename as [name|]; [|cbn in *; congruence].
  assert (Hmk : is_marked h' name = is_marked h name).
  { unfold is_marked. now rewrite (splitext_same_convention h h' name Hs Ha). }
  assert (Hnum : forall n, numbered h' name n = numbered h name n).
  { intros n. unfold numbered.
    now rewrite (splitext_same_convention h h' name Hs Ha). }
  destruct (is_marked h name) eqn:Hm.
  - rewrite (rewrite_filename_marked h name false st Hm) in Hfirst.
    rewrite (rewrite_filename_marked h' name true st') by congruence.
    destruct (fresh_scan h name) as [n|e]; [|discriminate].
    injection Hfirst as <- <-. cbn [_last_n set_last_n]. now rewrite Hnum.
  - rewrite (rewrite_filename_unmarked h name false st Hm) in Hfirst.
    rewrite (rewrite_filename_unmarked h' name true st') by congruence.
    congruence.
Qed.

Lemma sync_repeats_last_name_witness :
  rewrite_filename SampleHosts.empty (Some "logs/scons-#.log") true
    (set_last_n MSCOMMON.initial 11) =
  (Ok (Some "logs/scons-0011.log"), set_last_n MSCOMMON.initial 11).
Proof.
  apply (sync_repeats_last_name SampleHosts.logs SampleHosts.empty
           (Some "logs/scons-#.log") (Some "logs/scons-0011.log") MSCOMMON.initial);
    reflexivity.
Defined.

(** X4.  A stray match breaks the rotation.  When the greatest match of the
    pattern, in string order, has in place of the marker a text [t] without
    a dot, a separator or a dash that [int] does not read, a call of
    [rewrite_filename] that scans raises the [ValueError] of [int(t)], whose
    message ends with [repr(t)] cut after 200 characters, and assigns
    nothing. *)
Theorem rotation_stray_match (h : host) (name t : string) (sync : bool)
    (st : state) :
  posixpath h \/ ntpath h ->
  is_marked h name = true ->
  plain t -> Py.char_in FILENAME_SERIALNBR_0 t = false ->
  Py.int_of_str false t = None ->
  glob_glob h (template_glob h name) <> [] ->
  List.last (Py.sorted (glob_glob h (template_glob h name))) "" =
    substituted h name t ->
  sync = false \/ _last_n st = None ->
  rewrite_filename h (Some name) sync st =
    (Raise (ValueError
              ("invalid literal for int() with base 10: "
               ++ Py.take 200 (Py.repr_str t))), st).
Proof.
  intros Hpath Hm Ht Hdash Hint Hne Hlast Hscan.
  rewrite (rewrite_filename_marked h name sync st Hm).
  rewrite (fresh_scan_reads_tail h name t Hpath Hm Ht Hdash Hne Hlast), Hint.
  destruct Hscan as [->| ->]; [reflexivity|now destruct sync].
Qed.

Lemma rotation_stray_match_witness :
  rewrite_filename SampleHosts.stray (Some "logs/scons-#.log") false MSCOMMON.initial =
    (Raise (ValueError "invalid literal for int() with base 10: 'old'"),
     MSCOMMON.initial).
Proof.
  apply (rotation_stray_match SampleHosts.stray "logs/scons-#.log" "old" false
           MSCOMMON.initial).
  - left. split; reflexivity.
  - reflexivity.
  - repeat split; try reflexivity; discriminate.
  - reflexivity.
  - reflexivity.
  - vm_compute. discriminate.
  - reflexivity.
  - left. reflexivity.
Defined.

(** ** Relative file names and module names *)

Lemma rfind_none_suffix (sub s : string) :
  Py.rfind sub s = None ->
  forall a b, s = a ++ b -> String.prefix sub b = false.
Proof.
  induction s as [|c s IH]; cbn [Py.rfind].
  - intros H a b E. destruct a; [|discriminate]. cbn [append] in E. subst b.
    destruct (String.prefix sub ""); [discriminate|reflexivity].
  - destruct (Py.rfind sub s) as [j|]; [discriminate|].
    intros H [|x a] b E.
    + cbn [append] in E. subst b.
      destruct (String.prefix sub (String c s)); [discriminate|reflexivity].
    + cbn [append] in E. injection E as _ E. now apply (IH eq_refl a b).
Qed.

Lemma rfind_none_iff (sub s : string) :
  Py.rfind sub s = None <-> ~ Occurs sub s.
Proof.
  split.
  - intros H (a & b & E).
    assert (Hp : String.prefix sub (sub ++ b) = true)
      by (apply prefix_iff; now exists b).
    now rewrite (rfind_none_suffix sub s H a (sub ++ b) E) in Hp.
  - intros Hno. destruct (Py.rfind sub s) as [i|] eqn:E; [|reflexivity].
    exfalso. apply Hno. clear Hno. revert i E.
    induction s as [|c s IH]; intros i; cbn [Py.rfind].
    + destruct (String.prefix sub "") eqn:Ep; [|discriminate].
      intros _. apply prefix_iff in Ep as [b Hb]. now exists "", b.
    + destruct (Py.rfind sub s) as [j|].
      * intros _. apply Occurs_cons. now apply (IH j).
      * destruct (String.prefix sub (String c s)) eqn:Ep; [|discriminate].
        intros _. apply prefix_iff in Ep as [b Hb]. now exists "", b.
Qed.

(** [rfind] gives the start of the last occurrence. *)
Lemma rfind_some (sub s : string) (i : nat) :
  Py.rfind sub s = Some i ->
  String.prefix sub (Py.drop i s) = true
  /\ (i <= String.length s)%nat
  /\ forall a b, s = a ++ b -> String.prefix sub b = true ->
                 (String.length a <= i)%nat.
Proof.
  revert i. induction s as [|c s IH]; intros i; cbn [Py.rfind].
  - destruct (String.prefix sub "") eqn:Ep; [|discriminate].
    intros [= <-]. repeat split; [assumption|lia|].
    intros [|x a] b E; [cbn [String.length]; lia|discriminate].
  - destruct (Py.rfind sub s) as [j|] eqn:Ej.
    + intros [= <-]. destruct (IH j eq_refl) as (Hp & Hl & Hlast).
      repeat split; [exact Hp|cbn [String.length]; lia|].
      intros [|x a] b E Hb; cbn [String.length]; [lia|].
      cbn [append] in E. injection E as _ E. specialize (Hlast a b E Hb). lia.
    + destruct (String.prefix sub (String c s)) eqn:Ep; [|discriminate].
      intros [= <-]. repeat split; [exact Ep|lia|].
      intros [|x a] b E Hb; cbn [String.length]; [lia|].
      cbn [append] in E. injection E as _ E.
      now rewrite (rfind_none_suffix sub s Ej a b E) in Hb.
Qed.

Lemma rfind_drop_none (sub s : string) (i : nat) :
  Py.rfind sub s = None -> Py.rfind sub (Py.drop i s) = None.
Proof.
  revert i. induction s as [|c s IH]; intros [|i] H; try exact H.
  cbn [Py.drop]. apply IH. cbn [Py.rfind] in H.
  destruct (Py.rfind sub s); [discriminate|reflexivity].
Qed.

Lemma rfind_drop_self (sub s : string) (i : nat) :
  Py.rfind sub s = Some i -> Py.rfind sub (Py.drop i s) = Some 0%nat.
Proof.
  revert i. induction s as [|c s IH]; intros i; cbn [Py.rfind].
  - destruct (String.prefix sub "") eqn:Ep; [|discriminate].
    intros [= <-]. cbn [Py.drop Py.rfind]. now rewrite Ep.
  - destruct (Py.rfind sub s) as [j|] eqn:Ej.
    + intros [= <-]. cbn [Py.drop]. now apply IH.
    + destruct (String.prefix sub (String c s)) eqn:Ep; [|discriminate].
      intros [= <-]. cbn [Py.drop Py.rfind]. now rewrite Ej, Ep.
Qed.

Lemma drop_drop (i j : nat) (s : string) :
  Py.drop i (Py.drop j s) = Py.drop (j + i) s.
Proof.
  revert s. induction j as [|j IH]; intros s; [reflexivity|].
  destruct s as [|c s]; cbn [Py.drop Nat.add]; [now destruct i|apply IH].
Qed.

Lemma get_relative_filename_from_drop (filename : string) (l : list string) :
  exists k, get_relative_filename_from filename l = Py.drop k filename.
Proof.
  induction l as [|m l IH]; cbn [get_relative_filename_from].
  - now exists 0%nat.
  - destruct (Py.rfind m filename) as [ind|]; [now exists ind|exact IH].
Qed.

Lemma get_relative_filename_from_fixed (filename : string) (l : list string) :
  get_relative_filename_from (get_relative_filename_from filename l) l
  = get_relative_filename_from filename l.
Proof.
  induction l as [|m l IH]; cbn [get_relative_filename_from]; [reflexivity|].
  destruct (Py.rfind m filename) as [ind|] eqn:E.
  - cbn [get_relative_filename_from]. now rewrite (rfind_drop_self m filename ind E).
  - destruct (get_relative_filename_from_drop filename l) as [k Hk].
    cbn [get_relative_filename_from].
    rewrite Hk at 1. rewrite (rfind_drop_none m filename k E).
    exact IH.
Qed.

Lemma get_relative_filename_from_skip (filename : string) (l1 l2 : list string) :
  (forall x, In x l1 -> ~ Occurs x filename) ->
  get_relative_filename_from filename (l1 ++ l2)%list
  = get_relative_filename_from filename l2.
Proof.
  induction l1 as [|x l1 IH]; intros Hno; [reflexivity|].
  cbn [app get_relative_filename_from].
  assert (E : Py.rfind x filename = None)
    by (apply rfind_none_iff, Hno; now left).
  rewrite E. apply IH. intros y Hy. apply Hno. now right.
Qed.

Lemma replace_lacks (a b : ascii) (s : string) :
  a <> b -> Py.char_in a (Py.replace a b s) = false.
Proof.
  intros Hne. induction s as [|c s IH]; cbn [Py.replace Py.char_in]; [reflexivity|].
  rewrite IH, orb_false_r. destruct (Ascii.eqb_spec c a) as [->|Hc].
  - now apply Ascii.eqb_neq.
  - apply Ascii.eqb_neq. congruence.
Qed.

Lemma replace_app (a b : ascii) (s t : string) :
  Py.replace a b (s ++ t) = Py.replace a b s ++ Py.replace a b t.
Proof.
  induction s as [|c s IH]; cbn [append Py.replace]; [reflexivity|].
  now rewrite IH.
Qed.

Lemma replace_idem (a b : ascii) (s : string) :
  a <> b -> Py.replace a b (Py.replace a b s) = Py.replace a b s.
Proof.
  intros Hne. induction s as [|c s IH]; cbn [Py.replace]; [reflexivity|].
  rewrite IH. f_equal. destruct (Ascii.eqb_spec c a) as [->|Hc].
  - destruct (Ascii.eqb_spec b a); congruence.
  - destruct (Ascii.eqb_spec c a); congruence.
Qed.

Lemma rfind_replace_chr (a b c : ascii) (s : string) :
  c <> a -> c <> b ->
  Py.rfind (String c "") (Py.replace a b s) = Py.rfind (String c "") s.
Proof.
  intros Ha Hb. induction s as [|x s IH]; cbn [Py.replace Py.rfind]; [reflexivity|].
  rewrite IH, !prefix_chr. destruct (Py.rfind (String c "") s); [reflexivity|].
  destruct (Ascii.eqb_spec x a) as [->|Hx]; [|reflexivity].
  destruct (Ascii.eqb_spec c b), (Ascii.eqb_spec c a); congruence.
Qed.

Lemma take_replace (a b : ascii) (n : nat) (s : string) :
  Py.take n (Py.replace a b s) = Py.replace a b (Py.take n s).
Proof.
  revert s. induction n as [|n IH]; intros [|c s]; cbn [Py.take Py.replace];
    try reflexivity.
  now rewrite IH.
Qed.

(** The cut at the last dot, and [get_module] off the synthetic names. *)
Lemma strip_extension_dot (a b : string) :
  Py.char_in "." b = false ->
  strip_extension (a ++ String "." b) = Py.replace "\" "/" a.
Proof.
  intros Hb. unfold strip_extension. rewrite (rfind_app_present "." a b Hb).
  f_equal. rewrite take_app_le by lia. apply take_all. lia.
Qed.

Lemma get_module_plain (filename : string) :
  Py.startswith filename "<" = false ->
  get_module filename = strip_extension filename.
Proof.
  intros Hlt. unfold get_module. destruct filename as [|c s]; [reflexivity|].
  destruct (Ascii.eqb_spec c "<") as [->|Hc].
  - unfold Py.startswith in Hlt. rewrite prefix_chr in Hlt. discriminate.
  - destruct c as [[] [] [] [] [] [] [] []]; try reflexivity. congruence.
Qed.

(** *** Where the names are cut *)

(** X5.  [get_relative_filename] cuts the file name at the last occurrence
    of the first listed module that occurs in it.  For a non-empty file
    name in which no module of [l1] occurs and [m] occurs, the result for
    the list [l1 ++ m :: l2] is a suffix of the file name that starts with
    [m], and no occurrence of [m] starts further right. *)
Theorem relative_filename_cut (filename m : string) (l1 l2 : list string) :
  filename <> "" ->
  (forall x, In x l1 -> ~ Occurs x filename) ->
  Occurs m filename ->
  exists pre,
    filename = pre ++ get_relative_filename filename (l1 ++ m :: l2)%list
    /\ String.prefix m (get_relative_filename filename (l1 ++ m :: l2)%list) = true
    /\ forall a b, filename = a ++ b -> String.prefix m b = true ->
                   (String.length a <= String.length pre)%nat.
Proof.
  intros Hne Hno Hm.
  assert (E : get_relative_filename filename (l1 ++ m :: l2)%list
              = get_relative_filename_from filename (m :: l2)).
  { unfold get_relative_filename. destruct filename; [congruence|].
    now apply get_relative_filename_from_skip. }
  rewrite E. cbn [get_relative_filename_from].
  destruct (Py.rfind m filename) as [ind|] eqn:Er.
  - destruct (rfind_some m filename ind Er) as (Hp & Hl & Hlast).
    exists (Py.take ind filename). split; [now rewrite take_drop|].
    split; [exact Hp|]. intros a b Hab Hb.
    rewrite length_take. specialize (Hlast a b Hab Hb). lia.
  - apply rfind_none_iff in Er. contradiction.
Qed.

Lemma relative_filename_cut_witness :
  exists pre,
    "C:\Python\lib\site-packages\SCons\Tool\MSCommon\vc.py"
    = pre ++ get_relative_filename
               "C:\Python\lib\site-packages\SCons\Tool\MSCommon\vc.py"
               ([] ++ "lib" :: ["SCons"; "test"; "scons"])%list
    /\ String.prefix "lib"
         (get_relative_filename
            "C:\Python\lib\site-packages\SCons\Tool\MSCommon\vc.py"
            ([] ++ "lib" :: ["SCons"; "test"; "scons"])%list) = true
    /\ forall a b,
         "C:\Python\lib\site-packages\SCons\Tool\MSCommon\vc.py" = a ++ b ->
         String.prefix "lib" b = true ->
         (String.length a <= String.length pre)%nat.
Proof.
  apply (relative_filename_cut
           "C:\Python\lib\site-packages\SCons\Tool\MSCommon\vc.py" "lib" []
           ["SCons"; "test"; "scons"]).
  - discriminate.
  - intros x [].
  - exists "C:\Python\", "\site-packages\SCons\Tool\MSCommon\vc.py". reflexivity.
Defined.

(** X6.  [get_relative_filename] is idempotent: applied to its own result
    with the same module list it changes nothing. *)
Theorem relative_filename_idempotent (filename : string) (l : list string) :
  get_relative_filename (get_relative_filename filename l) l
  = get_relative_filename filename l.
Proof.
  unfold get_relative_filename. destruct filename as [|c s]; [reflexivity|].
  destruct (get_relative_filename_from (String c s) l) as [|d r] eqn:Er;
    [reflexivity|].
  rewrite <- Er. apply get_relative_filename_from_fixed.
Qed.

(** X7.  [get_module] cuts at the last dot of the whole path, not of the
    last component: for a name that does not start with [<], whatever
    follows the last dot goes, separators included, and the backslashes of
    what remains become slashes. *)
Theorem get_module_cuts_at_last_dot (a b : string) :
  Py.char_in "." b = false ->
  Py.startswith (a ++ String "." b) "<" = false ->
  get_module (a ++ String "." b) = Py.replace "\" "/" a.
Proof.
  intros Hb Hlt. rewrite (get_module_plain _ Hlt).
  now apply strip_extension_dot.
Qed.

Lemma get_module_cuts_at_last_dot_witness :
  get_module ("C:\build.d\SCons\Tool\MSCommon" ++ String "." "d\common")
  = Py.replace "\" "/" "C:\build.d\SCons\Tool\MSCommon".
Proof.
  apply (get_module_cuts_at_last_dot "C:\build.d\SCons\Tool\MSCommon" "d\common");
    reflexivity.
Defined.

(** X8.  Module names do not depend on the flavour of the separators: for
    a path that does not start with [<], [get_module] gives the same for
    the path and for the path with its backslashes turned into slashes, and
    its result holds no backslash. *)
Theorem get_module_separators (filename : string) :
  Py.startswith filename "<" = false ->
  get_module (Py.replace "\" "/" filename) = get_module filename
  /\ Py.char_in "\" (get_module filename) = false.
Proof.
  intros Hsw.
  assert (Hstrip : forall s,
             strip_extension (Py.replace "\" "/" s) = strip_extension s
             /\ Py.char_in "\" (strip_extension s) = false).
  { intros s. unfold strip_extension.
    rewrite rfind_replace_chr by discriminate.
    split.
    - destruct (Py.rfind "." s) as [ind|].
      + now rewrite take_replace, replace_idem by discriminate.
      + now rewrite replace_idem by discriminate.
    - destruct (Py.rfind "." s); now apply replace_lacks. }
  destruct filename as [|c s]; [split; reflexivity|].
  assert (Hc : c <> "<"%char).
  { intros ->. unfold Py.startswith in Hsw.
    assert (Hp : String.prefix "<" (String "<" s) = true)
      by (apply prefix_cons; split; [reflexivity|apply prefix_empty]).
    congruence. }
  destruct (Hstrip (String c s)) as [H1 H2].
  assert (Hg : get_module (String c s) = strip_extension (String c s)).
  { unfold get_module.
    destruct c as [[] [] [] [] [] [] [] []]; try reflexivity. congruence. }
  assert (Hg' : get_module (Py.replace "\" "/" (String c s))
                = strip_extension (Py.replace "\" "/" (String c s))).
  { cbn [Py.replace]. unfold get_module.
    destruct c as [[] [] [] [] [] [] [] []]; try reflexivity. congruence. }
  rewrite Hg', Hg. split; assumption.
Qed.

Lemma get_module_separators_witness :
  get_module (Py.replace "\" "/" "C:\scons\SCons\Tool\MSCommon\vc.py")
  = get_module "C:\scons\SCons\Tool\MSCommon\vc.py"
  /\ Py.char_in "\" (get_module "C:\scons\SCons\Tool\MSCommon\vc.py") = false.
Proof.
  apply (get_module_separators "C:\scons\SCons\Tool\MSCommon\vc.py").
  reflexivity.
Defined.

(** X9.  The logging filter never rejects a record, leaves [pathname] as it
    is, and stores in [relfilename] a text without backslashes that is the
    tail of the path name once its backslashes are turned into slashes. *)
Theorem filter_stores_relative_name (record : MSCommon_Filter.LogRecord) :
  exists pre rel,
    MSCommon_Filter.filter record
    = (true, {| MSCommon_Filter.pathname := MSCommon_Filter.pathname record;
                MSCommon_Filter.relfilename := Some rel |})
    /\ Py.replace "\" "/" (MSCommon_Filter.pathname record) = pre ++ rel
    /\ Py.char_in "\" rel = false.
Proof.
  unfold MSCommon_Filter.filter.
  set (path := MSCommon_Filter.pathname record).
  assert (Hk : exists k, get_relative_filename path modulelist_debug
                         = Py.drop k path).
  { unfold get_relative_filename. destruct path as [|c s] eqn:E.
    - now exists 0%nat.
    - apply get_relative_filename_from_drop. }
  destruct Hk as [k Hk].
  exists (Py.replace "\" "/" (Py.take k path)),
         (Py.replace "\" "/" (get_relative_filename path modulelist_debug)).
  split; [reflexivity|]. split.
  - now rewrite Hk, <- replace_app, take_drop.
  - now apply replace_lacks.
Qed.

(** ** The trace-flag resolver: caching, quoting, symbols *)

(** X10.  The resolver evaluates the environment variable once.  When a call
    returns a mask, every later call returns that mask and assigns nothing,
    whatever the variable holds by then; when a call raises, it has assigned
    nothing, so that the next call starts afresh.  This holds whatever
    [compile] and [eval] are. *)
Theorem traceflags_evaluated_once `{PyBuiltins}
    (env : option string) (st st' : state) (r : result Z) :
  get_trace_display_traceflags env st = Some (r, st') ->
  match r with
  | Ok v => forall env', get_trace_display_traceflags env' st' = Some (Ok v, st')
  | Raise _ => st' = st
  end.
Proof.
  assert (Hset : forall s v env',
             get_trace_display_traceflags env' (set_TRACEFLAGS s v)
             = Some (Ok v, set_TRACEFLAGS s v)) by reflexivity.
  unfold get_trace_display_traceflags at 1.
  destruct (_TRACEFLAGS st) as [flags|] eqn:Hc.
  - intros [= <- <-] env'. unfold get_trace_display_traceflags. now rewrite Hc.
  - destruct env as [env|]; [|intros [= <- <-]; apply Hset].
    destruct (strip_outer_quotes (S (String.length env)) env) as [[|envstr]|];
      [intros [= <- <-]; apply Hset| |discriminate].
    destruct (Py.int_of_str true envstr) as [flags|];
      [intros [= <- <-]; apply Hset|].
    destruct (py_compile envstr) as [code|]; [|now intros [= <- <-]].
    destruct (first_undefined (co_names code)); [now intros [= <- <-]|].
    destruct (py_eval code symbols) as [flags|]; [|now intros [= <- <-]].
    intros [= <- <-]. apply Hset.
Qed.

Lemma traceflags_evaluated_once_witness :
  get_trace_display_traceflags (H := MiniPy.builtins) (Some "0b1000")
    (set_TRACEFLAGS MSCOMMON.initial 5)
  = Some (Ok 5, set_TRACEFLAGS MSCOMMON.initial 5).
Proof.
  apply (traceflags_evaluated_once (H := MiniPy.builtins) (Some "1|4")
           MSCOMMON.initial (set_TRACEFLAGS MSCOMMON.initial 5) (Ok 5)).
  reflexivity.
Defined.

Lemma unquoted_inv (t : string) :
  unquoted t = true ->
  exists c u v d,
    t = String c u /\ t = v ++ String d ""
    /\ is_quote_chr c = false /\ is_quote_chr d = false.
Proof.
  unfold unquoted. destruct t as [|c u]; [discriminate|].
  destruct (snoc_decompose (String c u)) as (v & d & Hvd); [discriminate|].
  rewrite Hvd at 1. rewrite last_chars_snoc.
  intros H. apply andb_true_iff in H as [Hc Hd].
  apply negb_true_iff in Hc, Hd. now exists c, u, v, d.
Qed.

Lemma is_quote_chr_false (c : ascii) :
  is_quote_chr c = false -> c <> "034"%char /\ c <> "039"%char.
Proof.
  unfold is_quote_chr. intros H. apply orb_false_iff in H as [H1 H2].
  split; now apply Ascii.eqb_neq.
Qed.

Lemma startswith_other (c q : ascii) (u p : string) :
  c <> q -> Py.startswith (String c u) (String q p) = false.
Proof.
  intros Hne. unfold Py.startswith.
  destruct (String.prefix (String q p) (String c u)) eqn:E; [|reflexivity].
  apply prefix_cons in E as [E _]. congruence.
Qed.

Lemma startswith_same (q : ascii) (u : string) :
  Py.startswith (String q u) (String q "") = true.
Proof. apply prefix_cons. split; [reflexivity|apply prefix_empty]. Qed.

(** An unquoted text leaves the quote loop as it is. *)
Lemma strip_outer_quotes_unquoted (rounds : nat) (t : string) :
  unquoted t = true -> strip_outer_quotes (S rounds) t = Some (Remaining t).
Proof.
  intros Hu. apply unquoted_inv in Hu as (c & u & v & d & -> & _ & Hc & _).
  apply is_quote_chr_false in Hc as [Hd Hs].
  cbn [strip_outer_quotes]. unfold DQUOTE, SQUOTE, DQUOTE3. cbn [append].
  rewrite (startswith_other c "034" u "" Hd).
  rewrite (startswith_other c "039" u "" Hs).
  change (DQUOTE ++ DQUOTE ++ DQUOTE)
    with (String "034" (String "034" (String "034" ""))).
  rewrite (startswith_other c "034" u _ Hd). reflexivity.
Qed.

Lemma strip_unquoted (q : ascii) (t : string) :
  is_quote_chr q = true -> unquoted t = true ->
  Py.strip (String q "") (String q (t ++ String q "")) = t.
Proof.
  intros Hq Hu. rewrite strip_wrapped_same.
  apply unquoted_inv in Hu as (c & u & v & d & Ec & Ed & Hc & Hd).
  assert (Hcq : c <> q) by (intros ->; congruence).
  assert (Hdq : d <> q) by (intros ->; congruence).
  unfold Py.strip.
  assert (Hl : Py.lstrip (String q "") t = t).
  { rewrite Ec. cbn [Py.lstrip Py.char_in].
    now rewrite (proj2 (Ascii.eqb_neq c q) Hcq). }
  rewrite Hl, Ed. now apply rstrip_snoc_other.
Qed.

Lemma strip_outer_quotes_wrapped (q : ascii) (t : string) :
  is_quote_chr q = true -> unquoted t = true ->
  strip_outer_quotes (S (String.length (String q (t ++ String q ""))))
    (String q (t ++ String q ""))
  = Some (Remaining t).
Proof.
  intros Hq Hu.
  set (env := String q (t ++ String q "")).
  assert (Hlen : String.length env = S (S (String.length t))).
  { unfold env. cbn [String.length]. rewrite length_append.
    cbn [String.length]. lia. }
  rewrite Hlen.
  assert (Hend : Py.endswith env (String q "") = true)
    by apply (endswith_snoc (String q t) q).
  assert (Hstart : Py.startswith env (String q "") = true)
    by apply startswith_same.
  assert (Hstrip : Py.strip (String q "") env = t) by now apply strip_unquoted.
  assert (Hne : t <> "") by (destruct t; [discriminate|discriminate]).
  assert (Hnext : strip_outer_quotes (S (S (String.length t))) t
                  = Some (Remaining t)) by now apply strip_outer_quotes_unquoted.
  unfold is_quote_chr in Hq. apply orb_true_iff in Hq as [Hq|Hq];
    apply Ascii.eqb_eq in Hq; subst q.
  - change (String "034" "") with DQUOTE in *.
    cbn [strip_outer_quotes]. rewrite Hstart, Hend. cbn [andb].
    rewrite Hstrip. destruct t; [congruence|exact Hnext].
  - change (String "039" "") with SQUOTE in *.
    assert (Hd : Py.startswith env DQUOTE = false)
      by (apply startswith_other; discriminate).
    cbn [strip_outer_quotes]. rewrite Hd, Hstart, Hend. cbn [andb].
    rewrite Hstrip. destruct t; [congruence|exact Hnext].
Qed.

(** X11.  The value may be quoted.  For a text that neither starts nor ends
    with a quote character, the resolver returns for the text in one pair of
    single or double quotes the mask it returns for the text itself,
    whatever [compile] and [eval] are. *)
Theorem traceflags_quoted_value `{PyBuiltins}
    (q : ascii) (t : string) (st st' : state) (v : Z) :
  is_quote_chr q = true -> unquoted t = true ->
  get_trace_display_traceflags (Some t) st = Some (Ok v, st') ->
  get_trace_display_traceflags (Some (String q (t ++ String q ""))) st
  = Some (Ok v, st').
Proof.
  intros Hq Hu. unfold get_trace_display_traceflags.
  destruct (_TRACEFLAGS st); [auto|].
  rewrite (strip_outer_quotes_unquoted (String.length t) t Hu).
  rewrite (strip_outer_quotes_wrapped q t Hq Hu).
  destruct (Py.int_of_str true t); [auto|].
  destruct (py_compile t) as [code|]; [|discriminate].
  destruct (first_undefined (co_names code)); [discriminate|].
  destruct (py_eval code symbols); [auto|discriminate].
Qed.

Lemma traceflags_quoted_value_witness :
  get_trace_display_traceflags (H := MiniPy.builtins)
    (Some (String "034" ("1|2|4|8" ++ String "034" ""))) MSCOMMON.initial
  = Some (Ok 15, set_TRACEFLAGS MSCOMMON.initial 15).
Proof.
  apply (traceflags_quoted_value (H := MiniPy.builtins) "034" "1|2|4|8"
           MSCOMMON.initial (set_TRACEFLAGS MSCOMMON.initial 15) 15);
    reflexivity.
Defined.

(** X12.  Long and short names stand for the same bits.  Every name of the
    symbol table resolves to its bit, and two names joined by [|] resolve to
    the bitwise or of their bits. *)
Theorem traceflags_symbols (a b : string) (va vb : Z) (st : state) :
  _TRACEFLAGS st = None ->
  In (a, va) symbols -> In (b, vb) symbols ->
  get_trace_display_traceflags (H := MiniPy.builtins) (Some a) st
  = Some (Ok va, set_TRACEFLAGS st va)
  /\ get_trace_display_traceflags (H := MiniPy.builtins) (Some (a ++ "|" ++ b)) st
     = Some (Ok (Z.lor va vb), set_TRACEFLAGS st (Z.lor va vb)).
Proof.
  intros Hnone Ha Hb. unfold get_trace_display_traceflags. rewrite Hnone.
  change symbols with
    [ ("TRACE_DISPLAY_FUNCTION_ARGLIST", 1); ("FUNCTION_ARGLIST", 1);
      ("TRACE_DISPLAY_FUNCTION_LOCATION", 2); ("FUNCTION_LOCATION", 2);
      ("TRACE_DISPLAY_RETURN_VALUES", 4); ("RETURN_VALUES", 4);
      ("TRACE_DISPLAY_ALLFRAMES_ONEBELOW", 8); ("ALLFRAMES_ONEBELOW", 8) ]
    in Ha, Hb.
  cbn [In] in Ha, Hb.
  repeat (destruct Ha as [Ha|Ha]; [injection Ha as <- <-|]); [..|destruct Ha];
    repeat (destruct Hb as [Hb|Hb]; [injection Hb as <- <-|]);
    try (destruct Hb); split; vm_compute; reflexivity.
Qed.

Lemma traceflags_symbols_witness :
  get_trace_display_traceflags (H := MiniPy.builtins)
    (Some "FUNCTION_ARGLIST") MSCOMMON.initial
  = Some (Ok 1, set_TRACEFLAGS MSCOMMON.initial 1)
  /\ get_trace_display_traceflags (H := MiniPy.builtins)
       (Some ("FUNCTION_ARGLIST" ++ "|" ++ "TRACE_DISPLAY_RETURN_VALUES"))
       MSCOMMON.initial
     = Some (Ok (Z.lor 1 4), set_TRACEFLAGS MSCOMMON.initial (Z.lor 1 4)).
Proof.
  apply (traceflags_symbols "FUNCTION_ARGLIST" "TRACE_DISPLAY_RETURN_VALUES" 1 4
           MSCOMMON.initial).
  - reflexivity.
  - right. left. reflexivity.
  - do 4 right. left. reflexivity.
Defined.

(** ** Rendering: argument lists, line counts, exceptions *)

(** *** [get_frame_arglist] as a join *)

Lemma concat_snoc (sep item : string) (done : list string) :
  String.concat sep (done ++ [item])%list
  = match done with
    | [] => item
    | _ :: _ => String.concat sep done ++ sep ++ item
    end.
Proof.
  induction done as [|x done IH]; [reflexivity|].
  destruct done as [|y done].
  - reflexivity.
  - change (String.concat sep ((x :: y :: done) ++ [item])%list)
      with (x ++ sep ++ String.concat sep ((y :: done) ++ [item])%list).
    rewrite IH.
    change (String.concat sep (x :: y :: done))
      with (x ++ sep ++ String.concat sep (y :: done)).
    now rewrite !append_assoc.
Qed.

Section Arglist.

Variable frame : FrameType.

Lemma fold_step_raise (l : list nat) (e : exn) :
  fold_left (arglist_step frame) l (Raise e) = Raise e.
Proof. induction l as [|i l IH]; [reflexivity|exact IH]. Qed.

Lemma step_item (done : list string) :
  arglist_step frame (Ok ("(" ++ String.concat ", " done)) (List.length done)
  = match nth_error (co_varnames (f_code frame)) (List.length done) with
    | None => Raise (IndexError "tuple index out of range")
    | Some name =>
        item <- arg_item (f_locals frame) name ;;
        Ok ("(" ++ String.concat ", " (done ++ [item])%list)
    end.
Proof.
  unfold arglist_step. cbn [bind].
  destruct (nth_error (co_varnames (f_code frame)) (List.length done))
    as [nm|]; [|reflexivity].
  unfold arg_item.
  assert (Hjoin : forall item,
            "(" ++ String.concat ", " (done ++ [item])%list
            = match List.length done with
              | O => "(" ++ String.concat ", " done
              | S _ => ("(" ++ String.concat ", " done) ++ ", "
              end ++ item).
  { intros item. rewrite concat_snoc.
    destruct done as [|x done]; cbn [List.length]; [reflexivity|].
    now rewrite !append_assoc. }
  destruct (existsb (String.eqb nm) FRAME_ARGUMENT_VALUES).
  - destruct (Dict.get (f_locals frame) nm) as [v|]; [|reflexivity].
    cbn [bind]. rewrite Hjoin. now rewrite !append_assoc.
  - cbn [bind]. now rewrite Hjoin.
Qed.

Lemma fold_step_items (n : nat) :
  forall done,
    (List.length done <= List.length (co_varnames (f_code frame)))%nat ->
    fold_left (arglist_step frame) (seq (List.length done) n)
      (Ok ("(" ++ String.concat ", " done))
    = items <- arg_items (f_locals frame)
                 (firstn n (skipn (List.length done) (co_varnames (f_code frame)))) ;;
      if (List.length done + n <=? List.length (co_varnames (f_code frame)))%nat
      then Ok ("(" ++ String.concat ", " (done ++ items)%list)
      else Raise (IndexError "tuple index out of range").
Proof.
  induction n as [|n IH]; intros done Hlen.
  - cbn [seq fold_left firstn arg_items bind]. rewrite Nat.add_0_r, app_nil_r.
    now rewrite (proj2 (Nat.leb_le _ _) Hlen).
  - cbn [seq fold_left]. rewrite step_item.
    destruct (nth_error (co_varnames (f_code frame)) (List.length done))
      as [name|] eqn:En.
    + assert (Hlt : (List.length done < List.length (co_varnames (f_code frame)))%nat)
        by (apply nth_error_Some; congruence).
      assert (Hskip : skipn (List.length done) (co_varnames (f_code frame))
                      = name :: skipn (S (List.length done)) (co_varnames (f_code frame))).
      { clear - En. revert En. generalize (co_varnames (f_code frame)).
        induction (List.length done) as [|k IHk]; intros [|x l] E;
          try discriminate.
        - now injection E as ->.
        - cbn [nth_error] in E. cbn [skipn]. now apply IHk. }
      rewrite Hskip. cbn [firstn arg_items].
      destruct (arg_item (f_locals frame) name) as [item|e]; cbn [bind];
        [|apply fold_step_raise].
      specialize (IH (done ++ [item])%list).
      rewrite length_app in IH. cbn [List.length] in IH.
      replace (List.length done + 1)%nat with (S (List.length done)) in IH by lia.
      rewrite IH by lia.
      destruct (arg_items (f_locals frame)
                  (firstn n (skipn (S (List.length done))
                               (co_varnames (f_code frame))))) as [items|e];
        cbn [bind]; [|reflexivity].
      replace (S (List.length done) + n)%nat with (List.length done + S n)%nat
        by lia.
      now rewrite <- app_assoc.
    + rewrite fold_step_raise.
      assert (Hge : (List.length (co_varnames (f_code frame)) <= List.length done)%nat)
        by (apply nth_error_None; exact En).
      rewrite skipn_all2 by exact Hge. cbn [firstn arg_items bind].
      replace (List.length done + S n <=? List.length (co_varnames (f_code frame)))%nat
        with false by (symmetry; apply Nat.leb_gt; lia).
      reflexivity.
Qed.

End Arglist.

(** *** What the rendering functions write *)

Lemma Writes_weaken {A : Type} (m : M A)
    (Q Q' : result A -> list string -> Prop) :
  Writes m Q -> (forall r lines, Q r lines -> Q' r lines) -> Writes m Q'.
Proof.
  intros Hm Himp st. destruct (Hm st) as (lines & Hl & HQ). eauto.
Qed.

Lemma Writes_ret {A : Type} (a : A) :
  Writes (ret a) (fun r lines => r = Ok a /\ lines = []).
Proof. intros st. exists []. cbn. now rewrite app_nil_r. Qed.

Lemma Writes_lift {A : Type} (r0 : result A) :
  Writes (lift r0) (fun r lines => r = r0 /\ lines = []).
Proof. intros st. exists []. cbn. now rewrite app_nil_r. Qed.

Lemma Writes_print (message : string) :
  Writes (print_message message) (fun r lines => r = Ok tt /\ lines = [message]).
Proof. intros st. exists [message]. cbn. auto. Qed.

Lemma Writes_bind {A B : Type} (m : M A) (k : A -> M B)
    (Q1 : result A -> list string -> Prop)
    (Q2 : A -> result B -> list string -> Prop) :
  Writes m Q1 -> (forall a, Writes (k a) (Q2 a)) ->
  Writes (mbind m k)
    (fun r lines =>
       exists r1 l1,
         Q1 r1 l1
         /\ match r1 with
            | Ok a => exists l2, lines = (l1 ++ l2)%list /\ Q2 a r l2
            | Raise e => r = Raise e /\ lines = l1
            end).
Proof.
  intros Hm Hk st. unfold mbind.
  destruct (Hm st) as (l1 & Hl1 & HQ1).
  destruct (m st) as [[a|e] st1] eqn:E; cbn [fst snd] in *.
  - destruct (Hk a st1) as (l2 & Hl2 & HQ2).
    exists (l1 ++ l2)%list. split; [now rewrite Hl2, Hl1, app_assoc|].
    exists (Ok a), l1. split; [exact HQ1|]. now exists l2.
  - exists l1. split; [exact Hl1|]. exists (Raise e), l1. auto.
Qed.

Lemma frame_ok_arglist (cfg : config) (f : FrameType) :
  frame_ok cfg f = true ->
  exists arglist,
    (if DISPLAY_FUNCTION_ARGLIST cfg then lift (get_frame_arglist f) else ret "")
    = (fun st => (Ok arglist, st)).
Proof.
  unfold frame_ok, arglist_ok.
  destruct (DISPLAY_FUNCTION_ARGLIST cfg); cbn [negb orb].
  - destruct (get_frame_arglist f) as [text|]; [|discriminate].
    intros _. now exists text.
  - intros _. now exists "".
Qed.

(** [display_frame] writes the line of the frame, and a divider when asked;
    it raises, having written nothing, when the argument list does. *)
Lemma Writes_display_frame (cfg : config) (f : FrameType) (indent : string)
    (divider : bool) :
  Writes (display_frame cfg f indent divider)
    (fun r lines =>
       if frame_ok cfg f
       then r = Ok tt /\ List.length lines = if divider then 2%nat else 1%nat
       else (exists e, r = Raise e) /\ lines = []).
Proof.
  intros st. unfold display_frame.
  destruct (frame_ok cfg f) eqn:Hok.
  - destruct (frame_ok_arglist cfg f Hok) as [arglist ->].
    unfold mbind, print_message. cbn [fst snd].
    change (1 <? FRAME_CALLER_FRAMES) with true. rewrite andb_true_r.
    destruct divider; cbn [fst snd TRACE_FH ret].
    + eexists [_; _]. split; [now rewrite <- app_assoc|auto].
    + eexists [_]. split; auto.
  - unfold frame_ok, arglist_ok in Hok.
    destruct (DISPLAY_FUNCTION_ARGLIST cfg); [|discriminate].
    destruct (get_frame_arglist f) as [|e]; [discriminate|].
    exists []. unfold mbind, lift. cbn [fst snd]. rewrite app_nil_r. eauto.
Qed.

Lemma Writes_display_frame_return (cfg : config) (f : FrameType)
    (arg indent : string) :
  Writes (display_frame_return cfg f arg indent)
    (fun r lines => r = Ok tt /\ List.length lines = 1%nat).
Proof.
  unfold display_frame_return.
  apply (Writes_weaken _ _ _ (Writes_print _)). intros r lines [-> ->]. auto.
Qed.

(** A chain of frames that all render is written frame by frame, with one
    divider when the frame at index [FRAME_CALLER_FRAMES - 1] is in it. *)
Lemma Writes_display_chain (cfg : config) (frame_chain : list FrameType) :
  forall i indent,
    Writes (display_chain cfg i indent frame_chain)
      (fun r lines =>
         forallb (frame_ok cfg) frame_chain = true ->
         r = Ok tt
         /\ Z.of_nat (List.length lines)
            = Z.of_nat (List.length frame_chain)
              + if (i <=? FRAME_CALLER_FRAMES - 1)
                   && (FRAME_CALLER_FRAMES - 1 <? i + Z.of_nat (List.length frame_chain))
                then 1 else 0).
Proof.
  induction frame_chain as [|f rest IH]; intros i indent; cbn [display_chain].
  - apply (Writes_weaken _ _ _ (Writes_ret tt)). intros r lines [-> ->] _.
    split; [reflexivity|]. cbn [List.length]. unfold FRAME_CALLER_FRAMES.
    destruct (i <=? 5 - 1) eqn:E1; destruct (5 - 1 <? i + Z.of_nat 0) eqn:E2;
      cbn [andb]; zbool; lia.
  - eapply Writes_weaken.
    + apply Writes_bind; [apply Writes_display_frame|].
      intros u. apply IH.
    + cbv beta. intros r lines (r1 & l1 & H1 & H2) Hall.
      cbn [forallb] in Hall. apply andb_true_iff in Hall as [Hf Hrest].
      rewrite Hf in H1. destruct H1 as [-> Hl1].
      destruct H2 as (l2 & -> & H2). destruct (H2 Hrest) as [-> Hl2].
      split; [reflexivity|]. rewrite length_app, Nat2Z.inj_add, Hl2.
      cbn [List.length]. unfold FRAME_CALLER_FRAMES in *.
      destruct (i =? 5 - 1) eqn:Ei;
        destruct (i <=? 5 - 1) eqn:E1;
        destruct (i + 1 <=? 5 - 1) eqn:E3;
        destruct (5 - 1 <? i + 1 + Z.of_nat (List.length rest)) eqn:E4;
        destruct (5 - 1 <? i + Z.of_nat (S (List.length rest))) eqn:E5;
        cbn [andb] in *; rewrite Hl1; zbool; lia.
Qed.

Lemma Writes_display_missing (cfg : config) (frames : list FrameType) :
  forall indent,
    Writes (display_missing cfg indent frames)
      (fun r lines =>
         forallb (frame_ok cfg) frames = true ->
         r = Ok tt /\ List.length lines = List.length frames).
Proof.
  induction frames as [|f rest IH]; intros indent; cbn [display_missing].
  - apply (Writes_weaken _ _ _ (Writes_ret tt)). intros r lines [-> ->] _. auto.
  - eapply Writes_weaken.
    + apply Writes_bind; [apply Writes_display_frame|].
      intros u. apply IH.
    + cbv beta. intros r lines (r1 & l1 & H1 & H2) Hall.
      cbn [forallb] in Hall. apply andb_true_iff in Hall as [Hf Hrest].
      rewrite Hf in H1. destruct H1 as [-> Hl1].
      destruct H2 as (l2 & -> & H2). destruct (H2 Hrest) as [-> Hl2].
      split; [reflexivity|]. rewrite length_app, Hl1, Hl2. reflexivity.
Qed.

Lemma Writes_save_entry (entry_slot : Z) (entry_location : list (string * Z))
    (entry_depth : Z) :
  Writes (save_entry entry_slot entry_location entry_depth)
    (fun r lines => r = Ok tt /\ lines = []).
Proof. intros st. exists []. cbn. now rewrite app_nil_r. Qed.

Lemma Writes_save_chainlength (n : Z) :
  Writes (save_chainlength n) (fun r lines => r = Ok tt /\ lines = []).
Proof. intros st. exists []. cbn. now rewrite app_nil_r. Qed.

Lemma mbind_lift_ok {A B : Type} (a : A) (k : A -> M B) (st : trace_state) :
  mbind (lift (Ok a)) k st = k a st.
Proof. reflexivity. Qed.

Lemma mbind_lift_raise {A B : Type} (e : exn) (k : A -> M B) (st : trace_state) :
  mbind (lift (Raise e)) k st = (Raise e, st).
Proof. reflexivity. Qed.

Lemma mbind_get {B : Type} (k : trace_state -> M B) (st : trace_state) :
  mbind get k st = k st st.
Proof. reflexivity. Qed.

Lemma forallb_incl {A : Type} (f : A -> bool) (l l' : list A) :
  (forall x, In x l' -> In x l) -> forallb f l = true -> forallb f l' = true.
Proof.
  intros Hin Hall. apply forallb_forall. intros x Hx.
  rewrite forallb_forall in Hall. auto.
Qed.

Lemma In_firstn {A : Type} (n : nat) (l : list A) (x : A) :
  In x (firstn n l) -> In x l.
Proof.
  revert l. induction n as [|n IH]; intros [|y l]; cbn [firstn In]; try tauto.
  intros [->|H]; [now left|right; auto].
Qed.

(** The current frame is the last frame of its window. *)
Lemma window_holds_current (frame : FrameType) (entry_slot : Z)
    (frame_chain : list FrameType) :
  window frame = Ok (entry_slot, frame_chain) -> In frame frame_chain.
Proof.
  rewrite window_spec.
  destruct (outermost_home (stack_of frame)) as [k|] eqn:E; [|discriminate].
  cbv zeta. intros [= <- <-].
  destruct (outermost_home_spec _ _ E) as [Hk _].
  rewrite stack_of_unfold in *. cbn [rev List.length] in *.
  set (rest := match f_back frame with
               | Some back => stack_of back
               | None => []
               end) in *.
  rewrite skipn_app. apply in_or_app. right.
  rewrite length_rev.
  replace (Z.to_nat _ - List.length rest)%nat with 0%nat
    by (unfold FRAME_CALLER_FRAMES; lia).
  now left.
Qed.

Lemma window_within_stack (frame : FrameType) (entry_slot : Z)
    (frame_chain : list FrameType) :
  window frame = Ok (entry_slot, frame_chain) ->
  forall f, In f frame_chain -> In f (stack_of frame).
Proof.
  rewrite window_spec.
  destruct (outermost_home (stack_of frame)) as [k|]; [|discriminate].
  cbv zeta. intros [= <- <-] f Hf. apply In_skipn in Hf. now apply in_rev.
Qed.

(** The part of [reconstruct] that follows the reading of the state. *)
Lemma reconstruct_unfold (cfg : config) (frame : FrameType) (event arg : string)
    (st : trace_state) (entry_slot : Z) (frame_chain : list FrameType) :
  window frame = Ok (entry_slot, frame_chain) ->
  reconstruct cfg frame event arg st
  = mbind
      (if starts_new_chain st frame_chain then
         (match FRAME_ENTRY_LOCATION st with
          | [] => ret tt
          | _ :: _ => print_message ""
          end) ;;>
         display_chain cfg 0 "" frame_chain ;;>
         save_entry entry_slot (entry_location_of frame_chain)
           (Z.of_nat (List.length frame_chain) - 1)
       else
         let gap := Z.of_nat (List.length frame_chain) - FRAME_LAST_CHAINLENGTH st in
         (if 1 <? gap then
            display_missing cfg
              (Py.str_mul FRAME_INDENT_LITERAL
                 (FRAME_ENTRY_DEPTH st + (entry_slot - FRAME_ENTRY_SLOT st - gap) + 1))
              (skipn 1 (firstn (Z.to_nat gap) frame_chain))
          else ret tt) ;;>
         if String.eqb event "return"
         then display_frame_return cfg frame arg
                (Py.str_mul FRAME_INDENT_LITERAL
                   (FRAME_ENTRY_DEPTH st + (entry_slot - FRAME_ENTRY_SLOT st))
                 ++ FRAME_INDENT_LITERAL)
         else display_frame cfg frame
                (Py.str_mul FRAME_INDENT_LITERAL
                   (FRAME_ENTRY_DEPTH st + (entry_slot - FRAME_ENTRY_SLOT st)))
                false)
      (fun _ =>
         save_chainlength (Z.of_nat (List.length frame_chain)) ;;> ret rval)
      st.
Proof. intros Hw. unfold reconstruct. rewrite Hw. reflexivity. Qed.

Lemma Writes_finish (n : Z) :
  Writes (save_chainlength n ;;> ret rval)
    (fun r lines => r = Ok rval /\ lines = []).
Proof. intros st. exists []. cbn. now rewrite app_nil_r. Qed.

Lemma Writes_new_chain (cfg : config) (st : trace_state) (entry_slot : Z)
    (frame_chain : list FrameType) :
  Writes
    ((match FRAME_ENTRY_LOCATION st with
      | [] => ret tt
      | _ :: _ => print_message ""
      end) ;;>
     display_chain cfg 0 "" frame_chain ;;>
     save_entry entry_slot (entry_location_of frame_chain)
       (Z.of_nat (List.length frame_chain) - 1))
    (fun r lines =>
       forallb (frame_ok cfg) frame_chain = true ->
       r = Ok tt
       /\ Z.of_nat (List.length lines)
          = (match FRAME_ENTRY_LOCATION st with [] => 0 | _ :: _ => 1 end)
            + Z.of_nat (List.length frame_chain)
            + (if FRAME_CALLER_FRAMES <=? Z.of_nat (List.length frame_chain)
               then 1 else 0)).
Proof.
  assert (Hrest :
    Writes
      (display_chain cfg 0 "" frame_chain ;;>
       save_entry entry_slot (entry_location_of frame_chain)
         (Z.of_nat (List.length frame_chain) - 1))
      (fun r lines =>
         forallb (frame_ok cfg) frame_chain = true ->
         r = Ok tt
         /\ Z.of_nat (List.length lines)
            = Z.of_nat (List.length frame_chain)
              + (if FRAME_CALLER_FRAMES <=? Z.of_nat (List.length frame_chain)
                 then 1 else 0))).
  { eapply Writes_weaken.
    - apply Writes_bind; [apply Writes_display_chain|].
      intros u. apply Writes_save_entry.
    - cbv beta. intros r lines (r1 & l1 & H1 & H2) Hall.
      destruct (H1 Hall) as [-> Hl1]. destruct H2 as (l2 & -> & -> & ->).
      split; [reflexivity|]. rewrite app_nil_r, Hl1.
      unfold FRAME_CALLER_FRAMES.
      destruct (0 <=? 5 - 1) eqn:E1;
        destruct (5 - 1 <? 0 + Z.of_nat (List.length frame_chain)) eqn:E2;
        destruct (5 <=? Z.of_nat (List.length frame_chain)) eqn:E3;
        cbn [andb]; zbool; lia. }
  destruct (FRAME_ENTRY_LOCATION st) as [|loc locs].
  - eapply Writes_weaken.
    + apply Writes_bind; [apply Writes_ret|]. intros u. apply Hrest.
    + cbv beta. intros r lines (r1 & l1 & [-> ->] & l2 & -> & H2) Hall.
      destruct (H2 Hall) as [-> Hl2]. split; [reflexivity|].
      cbn [app]. lia.
  - eapply Writes_weaken.
    + apply Writes_bind; [apply Writes_print|]. intros u. apply Hrest.
    + cbv beta. intros r lines (r1 & l1 & [-> ->] & l2 & -> & H2) Hall.
      destruct (H2 Hall) as [-> Hl2]. split; [reflexivity|].
      cbn [app List.length]. lia.
Qed.

Lemma Writes_continuation (cfg : config) (frame : FrameType) (event arg : string)
    (indent indent' : string) (gap : Z) (frame_chain : list FrameType) :
  Writes
    ((if 1 <? gap
      then display_missing cfg indent (skipn 1 (firstn (Z.to_nat gap) frame_chain))
      else ret tt) ;;>
     if String.eqb event "return"
     then display_frame_return cfg frame arg (indent' ++ FRAME_INDENT_LITERAL)
     else display_frame cfg frame indent' false)
    (fun r lines =>
       forallb (frame_ok cfg) frame_chain = true ->
       frame_ok cfg frame = true ->
       r = Ok tt
       /\ (gap <= Z.of_nat (List.length frame_chain) ->
           Z.of_nat (List.length lines) = Z.max 1 gap)).
Proof.
  assert (Hcurrent :
    Writes
      (if String.eqb event "return"
       then display_frame_return cfg frame arg (indent' ++ FRAME_INDENT_LITERAL)
       else display_frame cfg frame indent' false)
      (fun r lines =>
         frame_ok cfg frame = true -> r = Ok tt /\ List.length lines = 1%nat)).
  { destruct (String.eqb event "return").
    - eapply Writes_weaken; [apply Writes_display_frame_return|]. cbv beta. auto.
    - eapply Writes_weaken; [apply Writes_display_frame|]. cbv beta.
      intros r lines H Hok. now rewrite Hok in H. }
  destruct (1 <? gap) eqn:Hgap.
  - eapply Writes_weaken.
    + apply Writes_bind; [apply Writes_display_missing|]. intros u. apply Hcurrent.
    + cbv beta. intros r lines (r1 & l1 & H1 & H2) Hall Hok.
      destruct H1 as [-> Hl1].
      { apply (forallb_incl _ frame_chain); [|exact Hall].
        intros x Hx. apply In_skipn in Hx. now apply In_firstn in Hx. }
      destruct H2 as (l2 & -> & H2). destruct (H2 Hok) as [-> Hl2].
      split; [reflexivity|]. intros Hlen.
      rewrite length_app, Hl1, Hl2, length_skipn, length_firstn.
      zbool. lia.
  - eapply Writes_weaken.
    + apply Writes_bind; [apply Writes_ret|]. intros u. apply Hcurrent.
    + cbv beta. intros r lines (r1 & l1 & [-> ->] & l2 & -> & H2) Hall Hok.
      destruct (H2 Hok) as [-> Hl2]. split; [reflexivity|]. intros Hlen.
      cbn [app]. rewrite Hl2. zbool. lia.
Qed.

(** An event that reaches chain reconstruction only appends lines; when the
    frames of its window render, it completes and writes the expected number
    of lines. *)
Lemma reconstruct_writes (cfg : config) (frame : FrameType) (event arg : string)
    (st : trace_state) (entry_slot : Z) (frame_chain : list FrameType) :
  window frame = Ok (entry_slot, frame_chain) ->
  exists lines,
    TRACE_FH (snd (reconstruct cfg frame event arg st))
    = (TRACE_FH st ++ lines)%list
    /\ (forallb (frame_ok cfg) frame_chain = true ->
        fst (reconstruct cfg frame event arg st) = Ok rval
        /\ (0 <= FRAME_LAST_CHAINLENGTH st ->
            Z.of_nat (List.length lines) = expected_lines st frame_chain)).
Proof.
  intros Hw. rewrite (reconstruct_unfold _ _ _ _ _ _ _ Hw).
  assert (Hcur : forallb (frame_ok cfg) frame_chain = true ->
                 frame_ok cfg frame = true).
  { intros Hall. rewrite forallb_forall in Hall. apply Hall.
    now apply (window_holds_current frame entry_slot). }
  match goal with
  | |- context [mbind ?branch ?tail st] =>
      assert (Hrun : Writes (mbind branch tail)
                (fun r lines =>
                   forallb (frame_ok cfg) frame_chain = true ->
                   r = Ok rval
                   /\ (0 <= FRAME_LAST_CHAINLENGTH st ->
                       Z.of_nat (List.length lines)
                       = expected_lines st frame_chain)))
  end.
  { unfold expected_lines. cbv zeta.
    destruct (starts_new_chain st frame_chain).
    - eapply Writes_weaken.
      + apply Writes_bind; [apply Writes_new_chain|].
        intros u. apply Writes_finish.
      + cbv beta. intros r lines (r1 & l1 & H1 & H2) Hall.
        destruct (H1 Hall) as [-> Hl1]. destruct H2 as (l2 & -> & -> & ->).
        split; [reflexivity|]. intros _. now rewrite app_nil_r.
    - eapply Writes_weaken.
      + apply Writes_bind; [apply Writes_continuation|].
        intros u. apply Writes_finish.
      + cbv beta. intros r lines (r1 & l1 & H1 & H2) Hall.
        destruct (H1 Hall (Hcur Hall)) as [-> Hl1].
        destruct H2 as (l2 & -> & -> & ->).
        split; [reflexivity|]. intros Hlast. rewrite app_nil_r.
        apply Hl1. lia. }
  destruct (Hrun st) as (lines & Hl & HQ). exists lines. split; assumption.
Qed.

(** When chain reconstruction raises, it has assigned no chain attribute. *)
Lemma reconstruct_raise (cfg : config) (frame : FrameType) (event arg : string)
    (st st' : trace_state) (e : exn) :
  reconstruct cfg frame event arg st = (Raise e, st') -> same_chain st st'.
Proof.
  destruct (window frame) as [[entry_slot frame_chain]|e0] eqn:Hw.
  - rewrite (reconstruct_unfold _ _ _ _ _ _ _ Hw).
    match goal with
    | |- mbind ?branch ?tail st = _ -> _ =>
        assert (Hbranch : forall u s, branch st = (Raise u, s) -> same_chain st s)
    end.
    { intros u s. destruct (starts_new_chain st frame_chain).
      - intros H.
        match type of H with
        | mbind ?p (fun _ => mbind ?d ?k) st = _ =>
            assert (Hr : Rendering (mbind p (fun _ => d)))
        end.
        { apply Rendering_bind.
          - destruct (FRAME_ENTRY_LOCATION st);
              [apply Rendering_ret|apply Rendering_print].
          - intros _. apply Rendering_display_chain. }
        specialize (Hr st). unfold mbind in H, Hr.
        destruct (FRAME_ENTRY_LOCATION st) as [|loc locs].
        + cbn [ret] in H, Hr.
          destruct (display_chain cfg 0 "" frame_chain st) as [[u0|e1] s1];
            [discriminate H|].
          injection H as _ <-. exact Hr.
        + destruct (print_message "" st) as [[u0|e0] s0] eqn:Ep;
            [|discriminate Ep].
          destruct (display_chain cfg 0 "" frame_chain s0) as [[u1|e1] s1];
            [discriminate H|].
          injection H as _ <-. exact Hr.
      - intros H.
        match type of H with
        | ?m st = _ => assert (Hr : Rendering m)
        end.
        { apply Rendering_bind.
          - destruct (1 <? _);
              [apply Rendering_display_missing|apply Rendering_ret].
          - intros _. destruct (String.eqb event "return");
              [apply Rendering_display_frame_return|apply Rendering_display_frame]. }
        specialize (Hr st). now rewrite H in Hr. }
    unfold mbind at 1.
    match goal with
    | |- (let (r, s) := ?b in _) = _ -> _ => destruct b as [[u|e1] s1] eqn:Eb
    end.
    + discriminate.
    + intros [= <- <-]. now apply (Hbranch e1).
  - unfold reconstruct. rewrite Hw. intros [= <- <-]. apply same_chain_refl.
Qed.

(** An event that is not accepted returns without raising, unless the empty
    function name makes [is_ignored] raise. *)
Lemma trace_current_module_rejected_ok (cfg : config) (frame : FrameType)
    (event arg : string) (st : trace_state) :
  accepted cfg frame event = false ->
  co_name (f_code frame) <> "" ->
  exists r, fst (trace_current_module cfg frame event arg st) = Ok r.
Proof.
  intros Ha Hname.
  assert (Hign : exists b,
             is_ignored cfg event (relmodule_of frame) (co_name (f_code frame))
             = Ok b).
  { unfold is_ignored. destruct (String.eqb event "return").
    - destruct (RETURN_IGNORELIST_ENABLED && _);
        [exists true|exists false]; reflexivity.
    - destruct (DEBUG_IGNORELIST_ENABLED && _); [exists true; reflexivity|].
      destruct (DISPLAY_ALLFRAMES_ONEBELOW cfg); [exists false; reflexivity|].
      destruct (co_name (f_code frame)) as [|c s]; [congruence|].
      destruct (Ascii.eqb c "<"); [exists true|exists false]; reflexivity. }
  destruct Hign as [b Hb]. revert Ha. unfold accepted, trace_current_module.
  intros Ha.
  destruct (existsb (String.eqb event) (FRAME_TRACE_EVENTS cfg));
    [|exists rval; reflexivity].
  cbn [negb andb] in *. rewrite get_relmodule_caller_callee_eta.
  rewrite Hb in *.
  destruct (is_parent (callee_parent frame)); cbn [negb andb orb] in *.
  - unfold mbind, lift. destruct b; [exists rval_None; reflexivity|discriminate].
  - destruct (is_parent (caller_parent frame)); cbn [negb andb orb] in *;
      [|exists rval; reflexivity].
    destruct (is_allowed cfg event (relmodule_of frame) (co_name (f_code frame)));
      cbn [negb andb orb] in *; [|exists rval; reflexivity].
    unfold mbind, lift. destruct b; [exists rval_None; reflexivity|discriminate].
Qed.

(** *** The tracer as a whole *)

(** X13.  [get_frame_arglist] joins the arguments with a comma and a space
    between parentheses.  The items are the first [co_argcount] names of
    [co_varnames], a name among [FRAME_ARGUMENT_VALUES] followed by [=] and
    the [repr] of its value.  A listed name without a local value raises
    [KeyError]; with more arguments than names it raises [IndexError] once
    the names are used up. *)
Theorem get_frame_arglist_joins (frame : FrameType) :
  get_frame_arglist frame
  = items <- arg_items (f_locals frame)
               (firstn (co_argcount (f_code frame)) (co_varnames (f_code frame))) ;;
    if (co_argcount (f_code frame) <=? List.length (co_varnames (f_code frame)))%nat
    then Ok ("(" ++ String.concat ", " items ++ ")")
    else Raise (IndexError "tuple index out of range").
Proof.
  unfold get_frame_arglist.
  change (fold_left _ (seq 0 (co_argcount (f_code frame))) (Ok "("))
    with (fold_left (arglist_step frame)
            (seq (List.length (@nil string)) (co_argcount (f_code frame)))
            (Ok ("(" ++ String.concat ", " []))).
  rewrite fold_step_items by (cbn [List.length]; lia).
  cbn [List.length skipn Nat.add app].
  destruct (arg_items (f_locals frame)
              (firstn (co_argcount (f_code frame)) (co_varnames (f_code frame))))
    as [items|e]; cbn [bind]; [|reflexivity].
  destruct (co_argcount (f_code frame) <=? List.length (co_varnames (f_code frame)))%nat;
    cbn [bind]; [|reflexivity].
  now rewrite append_assoc.
Qed.

(** X14.  The tracer only appends to its sink: whatever the event, the
    lines written before are still there, in order, when the call
    returns or raises. *)
Theorem tracer_only_appends (cfg : config) (frame : FrameType)
    (event arg : string) (st : trace_state) :
  exists lines,
    TRACE_FH (snd (trace_current_module cfg frame event arg st))
    = (TRACE_FH st ++ lines)%list.
Proof.
  destruct (accepted cfg frame event) eqn:Ha.
  - rewrite trace_current_module_accepted by exact Ha.
    destruct (accepted_window _ _ _ Ha) as (k & chain & Hw & _).
    destruct (reconstruct_writes cfg frame event arg st k chain Hw)
      as (lines & Hl & _).
    now exists lines.
  - rewrite trace_current_module_rejected by exact Ha.
    exists []. now rewrite app_nil_r.
Qed.

(** X15.  The tracer does not raise on a stack whose frames render.  When
    the function name of the current frame is not empty and, if argument
    lists are displayed, every frame of the stack has its listed arguments
    among its locals, [trace_current_module] returns, for every event and
    every state. *)
Theorem tracer_does_not_raise (cfg : config) (frame : FrameType)
    (event arg : string) (st : trace_state) :
  co_name (f_code frame) <> "" ->
  forallb (frame_ok cfg) (stack_of frame) = true ->
  exists r, fst (trace_current_module cfg frame event arg st) = Ok r.
Proof.
  intros Hname Hall.
  destruct (accepted cfg frame event) eqn:Ha.
  - rewrite trace_current_module_accepted by exact Ha.
    destruct (accepted_window _ _ _ Ha) as (k & chain & Hw & _).
    destruct (reconstruct_writes cfg frame event arg st k chain Hw)
      as (lines & _ & Hok).
    exists rval. apply Hok.
    apply (forallb_incl _ (stack_of frame)); [|exact Hall].
    now apply (window_within_stack frame k).
  - now apply trace_current_module_rejected_ok.
Qed.

Lemma tracer_does_not_raise_witness :
  exists r,
    fst (trace_current_module Samples.all_flags SampleFrames.msvc_find
           "call" "None" MSCOMMON_TRACE.initial) = Ok r.
Proof.
  apply (tracer_does_not_raise Samples.all_flags SampleFrames.msvc_find
           "call" "None" MSCOMMON_TRACE.initial).
  - discriminate.
  - reflexivity.
Defined.

Lemma lines_written_app (st st' : trace_state) (lines : list string) :
  TRACE_FH st' = (TRACE_FH st ++ lines)%list -> lines_written st st' = lines.
Proof.
  intros H. unfold lines_written. rewrite H, skipn_app, skipn_all, Nat.sub_diag.
  reflexivity.
Qed.

(** X16.  The number of lines of an accepted event.  When the frames of the
    window render, an accepted event completes, and it writes: for a new
    chain, one line for each frame of the window, one divider when the
    window has [FRAME_CALLER_FRAMES] frames or more, and a blank line
    before them when a chain was written before; for the continuation of a
    chain, as many lines as the window has grown by since the last event,
    and one line at least. *)
Theorem accepted_event_line_count (cfg : config) (frame : FrameType)
    (event arg : string) (st : trace_state) (entry_slot : Z)
    (frame_chain : list FrameType) :
  accepted cfg frame event = true ->
  window frame = Ok (entry_slot, frame_chain) ->
  forallb (frame_ok cfg) frame_chain = true ->
  0 <= FRAME_LAST_CHAINLENGTH st ->
  fst (trace_current_module cfg frame event arg st) = Ok rval
  /\ Z.of_nat (List.length
                 (lines_written st
                    (snd (trace_current_module cfg frame event arg st))))
     = expected_lines st frame_chain.
Proof.
  intros Ha Hw Hall Hlast.
  rewrite trace_current_module_accepted by exact Ha.
  destruct (reconstruct_writes cfg frame event arg st entry_slot frame_chain Hw)
    as (lines & Hl & Hok).
  destruct (Hok Hall) as [Hr Hcount]. split; [exact Hr|].
  rewrite (lines_written_app _ _ _ Hl). now apply Hcount.
Qed.

Lemma accepted_event_line_count_witness :
  fst (trace_current_module Samples.all_flags Samples.seven_deep "call" "None"
         MSCOMMON_TRACE.initial) = Ok rval
  /\ Z.of_nat (List.length
                 (lines_written MSCOMMON_TRACE.initial
                    (snd (trace_current_module Samples.all_flags
                            Samples.seven_deep "call" "None"
                            MSCOMMON_TRACE.initial))))
     = expected_lines MSCOMMON_TRACE.initial (rev (stack_of Samples.seven_deep)).
Proof.
  apply (accepted_event_line_count Samples.all_flags Samples.seven_deep
           "call" "None" MSCOMMON_TRACE.initial 6
           (rev (stack_of Samples.seven_deep))).
  - reflexivity.
  - reflexivity.
  - reflexivity.
  - cbn. lia.
Defined.

Lemma chain_ok_same_chain (a b : trace_state) :
  same_chain a b -> chain_ok a -> chain_ok b.
Proof.
  unfold same_chain, chain_ok. intros (H1 & H2 & H3 & H4).
  rewrite H1, H2, H3, H4. auto.
Qed.

(** X17.  The chain attributes keep their invariant.  Between events the
    recorded entry slot is at least -1, the recorded entry depth lies
    between the entry slot and the entry slot plus [FRAME_CALLER_FRAMES],
    the recorded chain length is not negative, and the entry location holds
    at most one pair, none only before the first chain; every call of
    [trace_current_module], returning or raising, keeps this. *)
Theorem chain_attributes_invariant (cfg : config) (frame : FrameType)
    (event arg : string) (st : trace_state) :
  chain_ok st ->
  chain_ok (snd (trace_current_module cfg frame event arg st)).
Proof.
  intros Hst.
  destruct (accepted cfg frame event) eqn:Ha;
    [|now rewrite trace_current_module_rejected].
  rewrite trace_current_module_accepted by exact Ha.
  destruct (accepted_window _ _ _ Ha) as (k & chain & Hw & Hk).
  destruct (window_length _ _ _ Hw) as [_ Hlen].
  destruct (outermost_home_spec _ _ Hk) as (Hrange & _ & _).
  destruct (reconstruct cfg frame event arg st) as [[r|e] st'] eqn:Hrun;
    cbn [snd].
  - destruct (reconstruct_records _ _ _ _ _ _ _ _ _ Hw Hrun) as [Hlast Hrec].
    unfold chain_ok in *. unfold FRAME_CALLER_FRAMES in *.
    destruct (starts_new_chain st chain).
    + destruct Hrec as (-> & -> & ->). rewrite Hlast.
      repeat split; try lia.
      unfold entry_location_of. rewrite length_map, length_firstn. lia.
    + destruct Hrec as (-> & -> & ->). rewrite Hlast.
      repeat split; try tauto; try lia.
  - apply (chain_ok_same_chain st); [|exact Hst].
    now apply (reconstruct_raise cfg frame event arg st st' e).
Qed.

Lemma chain_attributes_invariant_witness :
  chain_ok (snd (trace_current_module Samples.all_flags Samples.three_deep
                   "call" "None" MSCOMMON_TRACE.initial)).
Proof.
  apply (chain_attributes_invariant Samples.all_flags Samples.three_deep
           "call" "None" MSCOMMON_TRACE.initial).
  unfold chain_ok. cbn. repeat split; try lia. now left.
Defined.

(** ** Dictionaries *)

Section DictFacts.

Context {V : Type}.

Lemma get_set_same (d : list (string * V)) (k : string) (v : V) :
  Dict.get (Dict.set d k v) k = Some v.
Proof.
  induction d as [|[k0 v0] d IH]; cbn [Dict.set Dict.get].
  - now rewrite String.eqb_refl.
  - destruct (String.eqb k0 k) eqn:E; cbn [Dict.get]; now rewrite E.
Qed.

Lemma get_set_other (d : list (string * V)) (k k' : string) (v : V) :
  k <> k' -> Dict.get (Dict.set d k v) k' = Dict.get d k'.
Proof.
  intros Hne. induction d as [|[k0 v0] d IH]; cbn [Dict.set Dict.get].
  - now rewrite (proj2 (String.eqb_neq k k') Hne).
  - destruct (String.eqb_spec k0 k) as [->|Hk]; cbn [Dict.get].
    + now rewrite (proj2 (String.eqb_neq k k') Hne).
    + now rewrite IH.
Qed.

Lemma mem_set_same (d : list (string * V)) (k : string) (v : V) :
  Dict.mem (Dict.set d k v) k = true.
Proof. unfold Dict.mem. now rewrite get_set_same. Qed.

Lemma mem_set_other (d : list (string * V)) (k k' : string) (v : V) :
  k <> k' -> Dict.mem (Dict.set d k v) k' = Dict.mem d k'.
Proof. intros Hne. unfold Dict.mem. now rewrite get_set_other. Qed.

Lemma get_none_keys (d : list (string * V)) (k : string) :
  Dict.get d k = None <-> ~ In k (keys_of d).
Proof.
  unfold keys_of. induction d as [|[k0 v0] d IH]; cbn [Dict.get map fst In].
  - tauto.
  - destruct (String.eqb_spec k0 k) as [->|Hk].
    + split; [discriminate|]. intros H. exfalso. apply H. now left.
    + rewrite IH. tauto.
Qed.

Lemma set_fresh (d : list (string * V)) (k : string) (v : V) :
  Dict.get d k = None -> Dict.set d k v = (d ++ [(k, v)])%list.
Proof.
  induction d as [|[k0 v0] d IH]; cbn [Dict.get Dict.set app]; [reflexivity|].
  destruct (String.eqb k0 k); [discriminate|]. intros H. now rewrite IH.
Qed.

Lemma set_same (d : list (string * V)) (k : string) (v : V) :
  Dict.get d k = Some v -> Dict.set d k v = d.
Proof.
  induction d as [|[k0 v0] d IH]; cbn [Dict.get Dict.set]; [discriminate|].
  destruct (String.eqb_spec k0 k) as [->|Hk].
  - now intros [= ->].
  - intros H. now rewrite IH.
Qed.

Lemma keys_set_present (d : list (string * V)) (k : string) (v v0 : V) :
  Dict.get d k = Some v0 -> keys_of (Dict.set d k v) = keys_of d.
Proof.
  unfold keys_of.
  induction d as [|[k1 v1] d IH]; cbn [Dict.get Dict.set map fst]; [discriminate|].
  destruct (String.eqb_spec k1 k) as [->|Hk]; [reflexivity|].
  intros H. cbn [map fst]. now rewrite IH.
Qed.

Lemma set_set (d : list (string * V)) (k : string) (v v' : V) :
  Dict.set (Dict.set d k v) k v' = Dict.set d k v'.
Proof.
  induction d as [|[k0 v0] d IH]; cbn [Dict.set].
  - now rewrite String.eqb_refl.
  - destruct (String.eqb k0 k) eqn:E; cbn [Dict.set]; rewrite E; [reflexivity|].
    now rewrite IH.
Qed.

End DictFacts.

(** A list of items with distinct keys is the dictionary built from it. *)
Lemma copy_items_dict (env : list (string * string)) :
  NoDup (keys_of env) -> copy_items env = env.
Proof.
  unfold copy_items.
  assert (Hgen : forall acc,
             NoDup (keys_of (acc ++ env)%list) ->
             fold_left (fun normenv '(k, v) => Dict.set normenv k v) env acc
             = (acc ++ env)%list).
  { induction env as [|[k v] env IH]; intros acc Hnd; cbn [fold_left].
    - now rewrite app_nil_r.
    - rewrite set_fresh.
      + rewrite IH; rewrite <- app_assoc; [reflexivity|exact Hnd].
      + apply get_none_keys. unfold keys_of in *. rewrite map_app in Hnd.
        cbn [map fst] in Hnd. apply NoDup_remove_2 in Hnd.
        intros Hin. apply Hnd. apply in_or_app. now left. }
  intros Hnd. now apply (Hgen []).
Qed.

(** ** [normalize_env] *)

Lemma import_keys_get (os : os_env) (keys : list string) (force : bool) :
  forall (d : list (string * string)) (k : string),
    Dict.get (import_keys os keys force d) k = imported os d keys force k.
Proof.
  unfold import_keys, imported.
  induction keys as [|k0 keys IH]; intros d k; cbn [fold_left existsb];
    [reflexivity|].
  rewrite IH. clear IH. cbv beta.
  destruct (String.eqb_spec k k0) as [->|Hne]; cbn [orb].
  - destruct (environ os k0) as [value|];
      [|destruct (existsb (String.eqb k0) keys); reflexivity].
    destruct (force || negb (Dict.mem d k0)) eqn:Hc.
    + rewrite mem_set_same, get_set_same.
      destruct (existsb (String.eqb k0) keys); [|reflexivity].
      now destruct force.
    + rewrite Hc. destruct (existsb (String.eqb k0) keys); reflexivity.
  - assert (Hsame : forall d',
              d' = d \/ (exists v, d' = Dict.set d k0 v) ->
              Dict.get d' k = Dict.get d k /\ Dict.mem d' k = Dict.mem d k).
    { intros d' [->|[v ->]]; [auto|].
      rewrite get_set_other, mem_set_other by congruence. auto. }
    match goal with
    | |- context [Dict.get ?d' k] =>
        destruct (Hsame d') as [Hg Hm]
    end.
    { destruct (environ os k0); [|now left].
      destruct (force || negb (Dict.mem d k0)); [right; eauto|now left]. }
    rewrite Hg, Hm. reflexivity.
Qed.

Lemma import_keys_mem (os : os_env) (keys : list string) (force : bool)
    (d : list (string * string)) (k : string) :
  Dict.mem (import_keys os keys force d) k
  = Dict.mem d k
    || existsb (String.eqb k) keys
       && match environ os k with Some _ => true | None => false end.
Proof.
  unfold Dict.mem at 1. rewrite import_keys_get. unfold imported, Dict.mem.
  destruct (existsb (String.eqb k) keys), (environ os k), (Dict.get d k), force;
    reflexivity.
Qed.

(** One extension of [PATH]. *)
Lemma add_to_PATH_ok (os : os_env) (dir : string)
    (d d' : list (string * string)) :
  add_to_PATH os dir d = Ok d' ->
  exists path suffix,
    Dict.get d "PATH" = Some path
    /\ Dict.get d' "PATH" = Some (path ++ suffix)
    /\ Occurs dir (path ++ suffix)
    /\ (forall k, k <> "PATH" -> Dict.get d' k = Dict.get d k)
    /\ (Occurs dir path -> d' = d).
Proof.
  unfold add_to_PATH. destruct (Dict.get d "PATH") as [path|] eqn:Hp;
    [|discriminate].
  destruct (Py.contains dir path) eqn:Hc; cbn [negb]; intros [= <-].
  - exists path, "". rewrite append_empty_r.
    repeat split; auto. now apply contains_iff.
  - exists path, (String (pathsep os) dir). rewrite get_set_same.
    repeat split; auto.
    + exists (path ++ String (pathsep os) ""), "".
      now rewrite append_empty_r, append_assoc.
    + intros k Hk. apply get_set_other. congruence.
    + intros Ho. apply contains_iff in Ho. congruence.
Qed.

Lemma add_to_PATH_raise (os : os_env) (dir : string)
    (d : list (string * string)) :
  Dict.get d "PATH" = None -> add_to_PATH os dir d = Raise (KeyError "PATH").
Proof. unfold add_to_PATH. now intros ->. Qed.

Lemma add_to_PATH_total (os : os_env) (dir : string)
    (d : list (string * string)) (path : string) :
  Dict.get d "PATH" = Some path -> exists d', add_to_PATH os dir d = Ok d'.
Proof.
  unfold add_to_PATH. intros ->. destruct (negb (Py.contains dir path)); eauto.
Qed.

Lemma copy_items_mem (env : list (string * string)) (k : string) :
  Dict.mem (copy_items env) k = Dict.mem env k.
Proof.
  unfold copy_items.
  assert (Hgen : forall acc,
             Dict.mem (fold_left (fun normenv '(k, v) => Dict.set normenv k v)
                         env acc) k
             = Dict.mem acc k || Dict.mem env k).
  { induction env as [|[k0 v0] env IH]; intros acc; cbn [fold_left].
    - now rewrite orb_false_r.
    - rewrite IH.
      assert (Hcons : Dict.mem ((k0, v0) :: env) k
                      = String.eqb k0 k || Dict.mem env k).
      { unfold Dict.mem. cbn [Dict.get]. now destruct (String.eqb k0 k). }
      rewrite Hcons.
      destruct (String.eqb_spec k0 k) as [->|Hne].
      + rewrite mem_set_same. cbn [orb]. now rewrite orb_true_r.
      + now rewrite mem_set_other. }
  now rewrite Hgen.
Qed.

Lemma extend_path_Occurs (os : os_env) (dir path : string) :
  Occurs dir (extend_path os dir path).
Proof.
  unfold extend_path. destruct (Py.contains dir path) eqn:Hc; cbn [negb].
  - now apply contains_iff.
  - exists (path ++ String (pathsep os) ""), "".
    now rewrite append_empty_r, append_assoc.
Qed.

Lemma extend_path_grows (os : os_env) (dir sub path : string) :
  Occurs sub path -> Occurs sub (extend_path os dir path).
Proof.
  intros H. unfold extend_path. destruct (negb (Py.contains dir path));
    [now apply Occurs_append_r|exact H].
Qed.

Lemma extend_path_fixed (os : os_env) (dir path : string) :
  Occurs dir path -> extend_path os dir path = path.
Proof.
  intros H. apply contains_iff in H. unfold extend_path. now rewrite H.
Qed.

Lemma extended_PATH_Occurs (os : os_env) (path : string) :
  Occurs (sys32_dir os) (extended_PATH os path)
  /\ Occurs (sys32_wbem_dir os) (extended_PATH os path)
  /\ Occurs (sys32_ps_dir os) (extended_PATH os path).
Proof.
  unfold extended_PATH. repeat split.
  - do 2 apply extend_path_grows. apply extend_path_Occurs.
  - apply extend_path_grows. apply extend_path_Occurs.
  - apply extend_path_Occurs.
Qed.

Lemma extended_PATH_idempotent (os : os_env) (path : string) :
  extended_PATH os (extended_PATH os path) = extended_PATH os path.
Proof.
  destruct (extended_PATH_Occurs os path) as (H1 & H2 & H3).
  unfold extended_PATH at 1.
  now rewrite (extend_path_fixed os _ _ H1), (extend_path_fixed os _ _ H2),
    (extend_path_fixed os _ _ H3).
Qed.

Lemma add_to_PATH_spec (os : os_env) (dir path : string)
    (d : list (string * string)) :
  Dict.get d "PATH" = Some path ->
  exists d',
    add_to_PATH os dir d = Ok d'
    /\ Dict.get d' "PATH" = Some (extend_path os dir path)
    /\ (forall k, k <> "PATH" -> Dict.get d' k = Dict.get d k)
    /\ keys_of d' = keys_of d.
Proof.
  intros Hp. unfold add_to_PATH, extend_path. rewrite Hp.
  destruct (negb (Py.contains dir path)).
  - eexists. split; [reflexivity|]. rewrite get_set_same.
    repeat split.
    + intros k Hk. apply get_set_other. congruence.
    + now apply (keys_set_present d "PATH" _ path).
  - exists d. auto.
Qed.

(** The three extensions of [PATH] in a row. *)
Lemma extend_three (os : os_env) (d : list (string * string)) :
  (normenv <- add_to_PATH os (sys32_dir os) d ;;
   normenv <- add_to_PATH os (sys32_wbem_dir os) normenv ;;
   normenv <- add_to_PATH os (sys32_ps_dir os) normenv ;;
   match Dict.get normenv "PATH" with
   | Some path => Ok (normenv, "PATH: " ++ path)
   | None => Raise (KeyError "PATH")
   end)
  = match Dict.get d "PATH" with
    | None => Raise (KeyError "PATH")
    | Some path =>
        Ok (fold_left
              (fun normenv dir =>
                 match add_to_PATH os dir normenv with
                 | Ok normenv' => normenv'
                 | Raise _ => normenv
                 end)
              [sys32_dir os; sys32_wbem_dir os; sys32_ps_dir os] d,
            "PATH: " ++ extended_PATH os path)
    end.
Proof.
  destruct (Dict.get d "PATH") as [path|] eqn:Hp.
  - destruct (add_to_PATH_spec os (sys32_dir os) path d Hp)
      as (d1 & E1 & Hp1 & _ & _).
    destruct (add_to_PATH_spec os (sys32_wbem_dir os) _ d1 Hp1)
      as (d2 & E2 & Hp2 & _ & _).
    destruct (add_to_PATH_spec os (sys32_ps_dir os) _ d2 Hp2)
      as (d3 & E3 & Hp3 & _ & _).
    cbn [fold_left]. rewrite E1. cbn [bind]. rewrite E2. cbn [bind].
    rewrite E3. cbn [bind]. rewrite Hp3. reflexivity.
  - now rewrite add_to_PATH_raise.
Qed.

Lemma extend_three_get (os : os_env) (d : list (string * string))
    (path : string) :
  Dict.get d "PATH" = Some path ->
  let d' :=
    fold_left
      (fun normenv dir =>
         match add_to_PATH os dir normenv with
         | Ok normenv' => normenv'
         | Raise _ => normenv
         end)
      [sys32_dir os; sys32_wbem_dir os; sys32_ps_dir os] d in
  Dict.get d' "PATH" = Some (extended_PATH os path)
  /\ (forall k, k <> "PATH" -> Dict.get d' k = Dict.get d k)
  /\ keys_of d' = keys_of d.
Proof.
  intros Hp.
  destruct (add_to_PATH_spec os (sys32_dir os) path d Hp)
    as (d1 & E1 & Hp1 & Ho1 & Hk1).
  destruct (add_to_PATH_spec os (sys32_wbem_dir os) _ d1 Hp1)
    as (d2 & E2 & Hp2 & Ho2 & Hk2).
  destruct (add_to_PATH_spec os (sys32_ps_dir os) _ d2 Hp2)
    as (d3 & E3 & Hp3 & Ho3 & Hk3).
  cbn [fold_left]. rewrite E1, E2, E3. cbv zeta. repeat split.
  - exact Hp3.
  - intros k Hk. now rewrite Ho3, Ho2, Ho1.
  - now rewrite Hk3, Hk2, Hk1.
Qed.

(** [normalize_env] on a non-empty environment, in terms of the imported
    dictionary. *)
Lemma normalize_env_unfold (os : os_env) (item : string * string)
    (items : list (string * string)) (keys : list string) (force : bool) :
  let d := import_keys os keys force (copy_items (item :: items)) in
  normalize_env os (Some (item :: items)) keys force
  = match Dict.get d "PATH" with
    | None => (Raise (KeyError "PATH"), [])
    | Some path =>
        (Ok (fold_left
               (fun normenv dir =>
                  match add_to_PATH os dir normenv with
                  | Ok normenv' => normenv'
                  | Raise _ => normenv
                  end)
               [sys32_dir os; sys32_wbem_dir os; sys32_ps_dir os] d),
         ["PATH: " ++ extended_PATH os path])
    end.
Proof.
  cbv zeta. unfold normalize_env. rewrite extend_three.
  now destruct (Dict.get (import_keys os keys force (copy_items (item :: items)))
                  "PATH").
Qed.

Lemma keys_set (V : Type) (d : list (string * V)) (k : string) (v : V) :
  keys_of (Dict.set d k v)
  = if Dict.mem d k then keys_of d else (keys_of d ++ [k])%list.
Proof.
  unfold Dict.mem. destruct (Dict.get d k) as [v0|] eqn:E.
  - now apply (keys_set_present d k v v0).
  - rewrite set_fresh by exact E. unfold keys_of. now rewrite map_app.
Qed.

Lemma NoDup_keys_set (V : Type) (d : list (string * V)) (k : string) (v : V) :
  NoDup (keys_of d) -> NoDup (keys_of (Dict.set d k v)).
Proof.
  intros Hnd. rewrite keys_set. unfold Dict.mem.
  destruct (Dict.get d k) eqn:E; [exact Hnd|].
  apply get_none_keys in E.
  apply NoDup_rev in Hnd. rewrite <- (rev_involutive (keys_of d ++ [k])).
  apply NoDup_rev. rewrite rev_app_distr. cbn [rev app].
  constructor; [|exact Hnd]. now rewrite <- in_rev.
Qed.

Lemma NoDup_import_keys (os : os_env) (keys : list string) (force : bool) :
  forall d, NoDup (keys_of d) -> NoDup (keys_of (import_keys os keys force d)).
Proof.
  unfold import_keys. induction keys as [|k keys IH]; intros d Hnd;
    cbn [fold_left]; [exact Hnd|].
  apply IH. destruct (environ os k); [|exact Hnd].
  destruct (force || negb (Dict.mem d k)); [|exact Hnd].
  now apply NoDup_keys_set.
Qed.

(** With every key to import present, importing adds no key. *)
Lemma keys_import_present (os : os_env) (keys : list string) (force : bool) :
  forall d,
    (forall k value, In k keys -> environ os k = Some value ->
                     Dict.mem d k = true) ->
    keys_of (import_keys os keys force d) = keys_of d.
Proof.
  unfold import_keys. induction keys as [|k keys IH]; intros d Hpres;
    cbn [fold_left]; [reflexivity|].
  destruct (environ os k) as [value|] eqn:Ek.
  - assert (Hk : Dict.mem d k = true)
      by (apply (Hpres k value); [now left|exact Ek]).
    destruct (force || negb (Dict.mem d k)).
    + rewrite IH.
      * rewrite keys_set. now rewrite Hk.
      * intros k' value' Hin He.
        destruct (String.eqb_spec k k') as [->|Hne];
          [apply mem_set_same|].
        rewrite mem_set_other by exact Hne. apply (Hpres k' value'); auto.
        now right.
    + apply IH. intros k' value' Hin He. apply (Hpres k' value'); auto.
      now right.
  - apply IH. intros k' value' Hin He. apply (Hpres k' value'); auto. now right.
Qed.

(** Dictionaries with the same keys in the same order and the same values
    are equal. *)
Lemma dict_ext (V : Type) (a b : list (string * V)) :
  NoDup (keys_of a) -> keys_of a = keys_of b ->
  (forall k, Dict.get a k = Dict.get b k) -> a = b.
Proof.
  revert b. induction a as [|[k v] a IH]; intros [|[k' v'] b] Hnd Hkeys Hget;
    try discriminate; [reflexivity|].
  unfold keys_of in *. cbn [map fst] in Hkeys, Hnd. injection Hkeys as <- Hkeys.
  inversion Hnd as [|x l Hnotin Hnd']; subst.
  pose proof (Hget k) as Hk. cbn [Dict.get] in Hk. rewrite String.eqb_refl in Hk.
  injection Hk as <-. f_equal. apply IH; [exact Hnd'|exact Hkeys|].
  intros k0. specialize (Hget k0). cbn [Dict.get] in Hget.
  destruct (String.eqb_spec k k0) as [E|Hne]; [|exact Hget].
  subst k0. clear Hget.
  assert (Ha : Dict.get a k = None) by now apply get_none_keys.
  assert (Hb : Dict.get b k = None).
  { apply get_none_keys. unfold keys_of. now rewrite <- Hkeys. }
  now rewrite Ha, Hb.
Qed.

Lemma mem_get (V : Type) (d : list (string * V)) (k : string) :
  Dict.mem d k = true <-> exists v, Dict.get d k = Some v.
Proof.
  unfold Dict.mem. destruct (Dict.get d k) as [v|].
  - split; eauto.
  - split; [discriminate|]. intros [v Hv]. discriminate.
Qed.

(** ** [is_win64] *)

(** X18.  [is_win64] looks at the environment once.  Whatever a call
    answers, every later call gives the same answer and leaves the module
    global as it is, also under another environment. *)
Theorem is_win64_evaluated_once (os os' : os_env) (cache cache' : option bool)
    (answer : bool) :
  is_win64 os cache = (answer, cache') ->
  is_win64 os' cache' = (answer, cache').
Proof.
  unfold is_win64 at 1. destruct cache as [b|].
  - now intros [= <- <-].
  - intros [= <- <-]. reflexivity.
Qed.

Lemma is_win64_evaluated_once_witness :
  is_win64 SampleOs.win32 (Some true) = (true, Some true).
Proof.
  apply (is_win64_evaluated_once SampleOs.wow64 SampleOs.win32 None (Some true) true).
  reflexivity.
Defined.

(** X19.  What the first call of [is_win64] answers.  It answers [False]
    exactly when [PROCESSOR_ARCHITECTURE] is unset or is [x86], letter for
    letter, and [PROCESSOR_ARCHITEW6432] and [ProgramW6432] are each unset
    or empty; so an empty [PROCESSOR_ARCHITECTURE] counts as 64 bits and an
    empty [ProgramW6432] does not. *)
Theorem is_win64_first_call (os : os_env) :
  fst (is_win64 os None) = false
  <-> (environ os "PROCESSOR_ARCHITECTURE" = None
       \/ environ os "PROCESSOR_ARCHITECTURE" = Some "x86")
      /\ (environ os "PROCESSOR_ARCHITEW6432" = None
          \/ environ os "PROCESSOR_ARCHITEW6432" = Some "")
      /\ (environ os "ProgramW6432" = None
          \/ environ os "ProgramW6432" = Some "").
Proof.
  unfold is_win64, environ_get, environ_true. cbn [fst].
  destruct (environ os "PROCESSOR_ARCHITECTURE") as [arch|];
    destruct (environ os "PROCESSOR_ARCHITEW6432") as [[|c1 w]|];
    destruct (environ os "ProgramW6432") as [[|c2 p]|];
    try destruct (String.eqb_spec arch "x86") as [->|Hne];
    cbn [negb];
    split; try discriminate; try tauto;
    try (intros (H1 & H2 & H3);
         repeat match goal with
                | H : _ \/ _ |- _ => destruct H
                end; congruence).
Qed.

(** ** [normalize_env] *)

(** X20.  [normalize_env] needs a [PATH].  It raises [KeyError] for [PATH],
    before any message goes to [debug], exactly when the environment is
    [None] or empty, whatever [os.environ] holds, or when it neither holds
    [PATH] nor imports it; otherwise it returns a dictionary with a [PATH]
    and hands [debug] that [PATH]. *)
Theorem normalize_env_needs_PATH (os : os_env)
    (env : option (list (string * string))) (keys : list string)
    (force : bool) :
  if has_PATH os env keys
  then exists normenv path,
         normalize_env os env keys force = (Ok normenv, ["PATH: " ++ path])
         /\ Dict.get normenv "PATH" = Some path
  else normalize_env os env keys force = (Raise (KeyError "PATH"), []).
Proof.
  destruct env as [[|item items]|]; [reflexivity| |reflexivity].
  unfold has_PATH.
  pose proof (normalize_env_unfold os item items keys force) as Hn.
  cbv zeta in Hn. rewrite Hn.
  rewrite <- (copy_items_mem (item :: items)), <- import_keys_mem with (force := force).
  unfold Dict.mem.
  destruct (Dict.get (import_keys os keys force (copy_items (item :: items))) "PATH")
    as [path|] eqn:Hp; [|reflexivity].
  destruct (extend_three_get os _ path Hp) as (Hg & _ & _).
  eexists. exists (extended_PATH os path). split; [reflexivity|exact Hg].
Qed.

(** X21.  What [normalize_env] returns.  For an environment with distinct
    keys, the dictionary returned gives every key but [PATH] its imported
    value — that of [os.environ] for a key of [keys] set there, when
    [force] is given or the environment lacks the key, and that of the
    environment otherwise — and gives [PATH] its imported value followed by
    those of the three system directories that did not occur in it; each
    of the three occurs in the [PATH] returned, which is the one handed to
    [debug]. *)
Theorem normalize_env_result (os : os_env) (env normenv : list (string * string))
    (keys : list string) (force : bool) (messages : list string) :
  NoDup (keys_of env) ->
  normalize_env os (Some env) keys force = (Ok normenv, messages) ->
  (forall k,
     Dict.get normenv k
     = if String.eqb k "PATH"
       then option_map (extended_PATH os) (imported os env keys force k)
       else imported os env keys force k)
  /\ exists path,
       Dict.get normenv "PATH" = Some path
       /\ messages = ["PATH: " ++ path]
       /\ Occurs (sys32_dir os) path
       /\ Occurs (sys32_wbem_dir os) path
       /\ Occurs (sys32_ps_dir os) path.
Proof.
  intros Hnd Hrun. destruct env as [|item items]; [discriminate Hrun|].
  pose proof (normalize_env_unfold os item items keys force) as Hn.
  cbv zeta in Hn. rewrite Hn in Hrun. clear Hn.
  rewrite (copy_items_dict _ Hnd) in Hrun.
  destruct (Dict.get (import_keys os keys force (item :: items)) "PATH")
    as [path|] eqn:Hp; [|discriminate Hrun].
  destruct (extend_three_get os _ path Hp) as (Hg & Ho & _).
  match type of Hg with
  | Dict.get ?d' _ = _ => set (result := d') in *
  end.
  injection Hrun as <- <-.
  rewrite import_keys_get in Hp.
  split.
  - intros k. destruct (String.eqb_spec k "PATH") as [->|Hne].
    + now rewrite Hg, Hp.
    + rewrite Ho by exact Hne. apply import_keys_get.
  - exists (extended_PATH os path). split; [exact Hg|]. split; [reflexivity|].
    apply extended_PATH_Occurs.
Qed.

Lemma normalize_env_result_witness :
  (forall k,
     Dict.get
       [ ("PATH", "C:\tools;C:\WINDOWS\System32;C:\WINDOWS\System32\Wbem;C:\WINDOWS\System32\WindowsPowerShell\v1.0");
         ("COMSPEC", "cmd.exe"); ("VSCMD_DEBUG", "1") ] k
     = if String.eqb k "PATH"
       then option_map (extended_PATH SampleOs.win32)
              (imported SampleOs.win32
                 [ ("PATH", "C:\tools"); ("COMSPEC", "cmd.exe");
                   ("VSCMD_DEBUG", "1") ]
                 ["COMSPEC"; "VSCMD_DEBUG"] false k)
       else imported SampleOs.win32
              [ ("PATH", "C:\tools"); ("COMSPEC", "cmd.exe");
                ("VSCMD_DEBUG", "1") ]
              ["COMSPEC"; "VSCMD_DEBUG"] false k)
  /\ exists path,
       Dict.get
         [ ("PATH", "C:\tools;C:\WINDOWS\System32;C:\WINDOWS\System32\Wbem;C:\WINDOWS\System32\WindowsPowerShell\v1.0");
           ("COMSPEC", "cmd.exe"); ("VSCMD_DEBUG", "1") ] "PATH" = Some path
       /\ [ "PATH: C:\tools;C:\WINDOWS\System32;C:\WINDOWS\System32\Wbem;C:\WINDOWS\System32\WindowsPowerShell\v1.0" ]
          = ["PATH: " ++ path]
       /\ Occurs (sys32_dir SampleOs.win32) path
       /\ Occurs (sys32_wbem_dir SampleOs.win32) path
       /\ Occurs (sys32_ps_dir SampleOs.win32) path.
Proof.
  apply (normalize_env_result SampleOs.win32
           [ ("PATH", "C:\tools"); ("COMSPEC", "cmd.exe"); ("VSCMD_DEBUG", "1") ]
           _ ["COMSPEC"; "VSCMD_DEBUG"] false).
  - repeat constructor; cbn; intuition discriminate.
  - reflexivity.
Defined.

Lemma normalize_env_nonempty (os : os_env) (env : list (string * string))
    (keys : list string) (force : bool) :
  env <> [] ->
  normalize_env os (Some env) keys force
  = match Dict.get (import_keys os keys force (copy_items env)) "PATH" with
    | None => (Raise (KeyError "PATH"), [])
    | Some path =>
        (Ok (fold_left
               (fun normenv dir =>
                  match add_to_PATH os dir normenv with
                  | Ok normenv' => normenv'
                  | Raise _ => normenv
                  end)
               [sys32_dir os; sys32_wbem_dir os; sys32_ps_dir os]
               (import_keys os keys force (copy_items env))),
         ["PATH: " ++ extended_PATH os path])
    end.
Proof.
  destruct env as [|item items]; [congruence|]. intros _.
  apply (normalize_env_unfold os item items keys force).
Qed.

(** X22.  [normalize_env] is idempotent.  Applied, with the same keys and
    the same [force], to the dictionary it returned for an environment with
    distinct keys, it returns that dictionary again and hands [debug] the
    same message: nothing more is imported, and [PATH], in which the three
    system directories occur by then, is not extended again. *)
Theorem normalize_env_idempotent (os : os_env)
    (env normenv : list (string * string)) (keys : list string) (force : bool)
    (messages : list string) :
  NoDup (keys_of env) ->
  normalize_env os (Some env) keys force = (Ok normenv, messages) ->
  normalize_env os (Some normenv) keys force = (Ok normenv, messages).
Proof.
  intros Hnd Hrun.
  assert (Hne : env <> []) by (intros ->; discriminate Hrun).
  rewrite (normalize_env_nonempty os env keys force Hne) in Hrun.
  rewrite (copy_items_dict _ Hnd) in Hrun.
  remember (import_keys os keys force env) as d1 eqn:Ed1.
  assert (Hnd1 : NoDup (keys_of d1)) by (subst d1; now apply NoDup_import_keys).
  assert (Hd1 : forall k, Dict.get d1 k = imported os env keys force k)
    by (intros k; subst d1; apply import_keys_get).
  destruct (Dict.get d1 "PATH") as [p1|] eqn:Hp1; [|discriminate Hrun].
  destruct (extend_three_get os d1 p1 Hp1) as (Hg2 & Ho2 & Hk2).
  match type of Hg2 with
  | Dict.get ?d' _ = _ => remember d' as d2 eqn:Ed2
  end.
  clear Ed2. injection Hrun as -> <-.
  assert (Hnd2 : NoDup (keys_of normenv)) by now rewrite Hk2.
  (* every key to import is in the dictionary returned *)
  assert (Hpres : forall k value, In k keys -> environ os k = Some value ->
                                  Dict.mem normenv k = true).
  { intros k value Hin He. apply mem_get.
    destruct (String.eqb_spec k "PATH") as [->|Hne']; [eauto|].
    rewrite Ho2 by exact Hne'. rewrite Hd1. unfold imported.
    replace (existsb (String.eqb k) keys) with true.
    - rewrite He. destruct (force || negb (Dict.mem env k)) eqn:Hc; [eauto|].
      apply orb_false_iff in Hc as [_ Hc]. apply negb_false_iff in Hc.
      now apply mem_get.
    - symmetry. apply existsb_exists. exists k. split; [exact Hin|].
      apply String.eqb_refl. }
  (* the second call *)
  assert (Hne2 : normenv <> []) by (intros ->; discriminate Hg2).
  rewrite (normalize_env_nonempty os normenv keys force Hne2).
  rewrite (copy_items_dict _ Hnd2).
  remember (import_keys os keys force normenv) as d3 eqn:Ed3.
  assert (Hd3 : forall k, Dict.get d3 k = imported os normenv keys force k)
    by (intros k; subst d3; apply import_keys_get).
  assert (Hk3 : keys_of d3 = keys_of normenv)
    by (subst d3; now apply keys_import_present).
  assert (Hmem : Dict.mem normenv "PATH" = true) by (apply mem_get; eauto).
  (* the path the second call starts from extends to the same [PATH] *)
  assert (Hp3 : exists p3, Dict.get d3 "PATH" = Some p3
                           /\ extended_PATH os p3 = extended_PATH os p1).
  { rewrite Hd3. pose proof (Hd1 "PATH") as H1. rewrite Hp1 in H1.
    unfold imported in *. rewrite Hmem.
    destruct (existsb (String.eqb "PATH") keys);
      [|exists (extended_PATH os p1); split;
        [exact Hg2|apply extended_PATH_idempotent]].
    destruct (environ os "PATH") as [v|];
      [|exists (extended_PATH os p1); split;
        [exact Hg2|apply extended_PATH_idempotent]].
    destruct force; cbn [orb negb] in *.
    - injection H1 as ->. now exists v.
    - exists (extended_PATH os p1). split;
        [exact Hg2|apply extended_PATH_idempotent]. }
  destruct Hp3 as (p3 & Hp3 & He3). rewrite Hp3.
  destruct (extend_three_get os d3 p3 Hp3) as (Hg4 & Ho4 & Hk4).
  match type of Hg4 with
  | Dict.get ?d' _ = _ => remember d' as d4 eqn:Ed4
  end.
  clear Ed4. rewrite He3. f_equal. f_equal. symmetry.
  apply dict_ext; [exact Hnd2|now rewrite Hk4, Hk3|].
  intros k. destruct (String.eqb_spec k "PATH") as [->|Hne'].
  - now rewrite Hg4, Hg2, He3.
  - rewrite Ho4, Hd3 by exact Hne'.
    rewrite Ho2, Hd1 by exact Hne'.
    assert (Hk : Dict.get normenv k = imported os env keys force k)
      by (rewrite Ho2, Hd1 by exact Hne'; reflexivity).
    unfold imported in *.
    destruct (existsb (String.eqb k) keys) eqn:Hin; [|now rewrite Hk].
    destruct (environ os k) as [v|] eqn:He; [|now rewrite Hk].
    assert (Hm : Dict.mem normenv k = true).
    { apply existsb_exists in Hin as (k' & Hin & Heq).
      apply String.eqb_eq in Heq. subst k'. now apply (Hpres k v). }
    rewrite Hm. destruct force; cbn [orb negb] in *;
      [reflexivity|now rewrite Hk].
Qed.

Lemma normalize_env_idempotent_witness :
  normalize_env SampleOs.win32
    (Some [ ("PATH", "C:\tools;C:\WINDOWS\System32;C:\WINDOWS\System32\Wbem;C:\WINDOWS\System32\WindowsPowerShell\v1.0");
            ("COMSPEC", "C:\WINDOWS\system32\cmd.exe") ])
    ["COMSPEC"; "VSCMD_DEBUG"] true
  = (Ok [ ("PATH", "C:\tools;C:\WINDOWS\System32;C:\WINDOWS\System32\Wbem;C:\WINDOWS\System32\WindowsPowerShell\v1.0");
          ("COMSPEC", "C:\WINDOWS\system32\cmd.exe") ],
     [ "PATH: C:\tools;C:\WINDOWS\System32;C:\WINDOWS\System32\Wbem;C:\WINDOWS\System32\WindowsPowerShell\v1.0" ]).
Proof.
  apply (normalize_env_idempotent SampleOs.win32
           [ ("PATH", "C:\tools"); ("COMSPEC", "cmd.exe") ] _
           ["COMSPEC"; "VSCMD_DEBUG"] true).
  - repeat constructor; cbn; intuition discriminate.
  - reflexivity.
Defined.

(** ** [parse_output] *)

(** *** The dictionaries built from [keep] *)

Lemma existsb_eqb_In (k : string) (l : list string) :
  existsb (String.eqb k) l = true <-> In k l.
Proof.
  rewrite existsb_exists. split.
  - intros (x & Hx & E). apply String.eqb_eq in E. now subst.
  - intros H. exists k. split; [exact H|apply String.eqb_refl].
Qed.

Lemma get_map_keys {V : Type} (f : string -> V) (ks : list string) (k : string) :
  Dict.get (map (fun k => (k, f k)) ks) k
  = if existsb (String.eqb k) ks then Some (f k) else None.
Proof.
  induction ks as [|k0 ks IH]; cbn [map Dict.get existsb]; [reflexivity|].
  rewrite (String.eqb_sym k k0).
  destruct (String.eqb_spec k0 k) as [->|Hne]; [reflexivity|exact IH].
Qed.

Lemma build_keys {V : Type} (f : string -> V) (keep : list string) :
  forall ks,
    fold_left (fun d i => Dict.set d i (f i)) keep (map (fun k => (k, f k)) ks)
    = map (fun k => (k, f k)) (ks ++ distinct ks keep)%list.
Proof.
  induction keep as [|i keep IH]; intros ks; cbn [fold_left distinct].
  - now rewrite app_nil_r.
  - destruct (existsb (String.eqb i) ks) eqn:E.
    + rewrite set_same; [apply IH|]. now rewrite get_map_keys, E.
    + rewrite set_fresh by now rewrite get_map_keys, E.
      change [(i, f i)] with (map (fun k => (k, f k)) [i]).
      rewrite <- map_app, IH. now rewrite <- app_assoc.
Qed.

Lemma distinct_spec (keep : list string) :
  forall seen,
    NoDup seen ->
    NoDup (seen ++ distinct seen keep)%list
    /\ forall k, In k (seen ++ distinct seen keep)%list <-> In k seen \/ In k keep.
Proof.
  induction keep as [|i keep IH]; intros seen Hnd; cbn [distinct].
  - rewrite app_nil_r. split; [exact Hnd|]. intros k. cbn [In]. tauto.
  - destruct (existsb (String.eqb i) seen) eqn:E.
    + destruct (IH seen Hnd) as [H1 H2]. split; [exact H1|].
      intros k. rewrite H2. cbn [In]. apply existsb_eqb_In in E.
      split; [tauto|]. intros [H|[<-|H]]; auto.
    + assert (Hni : ~ In i seen).
      { intros H. apply existsb_eqb_In in H. congruence. }
      assert (Hnd' : NoDup (seen ++ [i])%list).
      { apply NoDup_rev in Hnd. rewrite <- (rev_involutive (seen ++ [i])).
        apply NoDup_rev. rewrite rev_app_distr. cbn [rev app].
        constructor; [now rewrite <- in_rev|exact Hnd]. }
      destruct (IH (seen ++ [i])%list Hnd') as [H1 H2].
      rewrite <- app_assoc in H1, H2. cbn [app] in H1, H2.
      split; [exact H1|]. intros k. rewrite H2, in_app_iff. cbn [In]. tauto.
Qed.

(** *** [add_env] *)

Lemma add_env_spec (os : os_env) (group1 key : string) :
  forall (dkeep : list (string * list string)) (path_list : list string),
    Dict.get dkeep key = Some path_list ->
    exists dkeep',
      add_env os group1 key dkeep = Ok dkeep'
      /\ Dict.get dkeep' key
         = Some (path_list
                 ++ map (Py.strip DQUOTE)
                      (filter (fun path => negb (String.eqb path ""))
                         (Py.split (pathsep os) group1)))%list
      /\ (forall k, k <> key -> Dict.get dkeep' k = Dict.get dkeep k)
      /\ keys_of dkeep' = keys_of dkeep.
Proof.
  unfold add_env. generalize (Py.split (pathsep os) group1) as pieces.
  induction pieces as [|path pieces IH]; intros dkeep path_list Hget;
    cbn [fold_left filter map].
  - exists dkeep. rewrite app_nil_r. auto.
  - cbn [bind]. destruct path as [|c path]; cbn [String.eqb negb].
    + apply IH. exact Hget.
    + unfold append_path at 2. rewrite Hget.
      destruct (IH (Dict.set dkeep key
                      (path_list ++ [Py.strip DQUOTE (String c path)])%list)
                  (path_list ++ [Py.strip DQUOTE (String c path)])%list)
        as (dkeep' & Hrun & Hkey & Hother & Hkeys).
      { apply get_set_same. }
      exists dkeep'. split; [exact Hrun|]. split; [|split].
      * rewrite Hkey. cbn [map]. now rewrite <- app_assoc.
      * intros k Hk. rewrite Hother by exact Hk. apply get_set_other. congruence.
      * rewrite Hkeys. now apply (keys_set_present dkeep key _ path_list).
Qed.

(** *** One line of output *)

Lemma feed_line (os : os_env) (line : string) (keys : list string) :
  forall dkeep : list (string * list string),
    NoDup keys ->
    (forall k, In k keys -> exists path_list, Dict.get dkeep k = Some path_list) ->
    exists dkeep',
      fold_left
        (fun (acc : result (list (string * list string))) '(k, value) =>
           dkeep <- acc ;;
           match re_match value line with
           | Some group1 => add_env os group1 k dkeep
           | None => Ok dkeep
           end)
        (map (fun k => (k, k)) keys) (Ok dkeep)
      = Ok dkeep'
      /\ (forall k,
            Dict.get dkeep' k
            = if existsb (String.eqb k) keys
              then option_map (fun path_list =>
                                 (path_list ++ paths_of_line os k line)%list)
                     (Dict.get dkeep k)
              else Dict.get dkeep k)
      /\ keys_of dkeep' = keys_of dkeep.
Proof.
  induction keys as [|k0 keys IH]; intros dkeep Hnd Hpres;
    cbn [map fold_left existsb].
  - exists dkeep. auto.
  - cbn [bind]. inversion Hnd as [|x l Hnotin Hnd']; subst.
    destruct (Hpres k0 (or_introl eq_refl)) as [l0 Hl0].
    assert (Hstep : exists d1,
               match re_match k0 line with
               | Some group1 => add_env os group1 k0 dkeep
               | None => Ok dkeep
               end = Ok d1
               /\ Dict.get d1 k0 = Some (l0 ++ paths_of_line os k0 line)%list
               /\ (forall k, k <> k0 -> Dict.get d1 k = Dict.get dkeep k)
               /\ keys_of d1 = keys_of dkeep).
    { unfold paths_of_line. destruct (re_match k0 line) as [group1|].
      - apply add_env_spec. exact Hl0.
      - exists dkeep. rewrite app_nil_r. auto. }
    destruct Hstep as (d1 & -> & Hk0 & Hother & Hkeys1).
    destruct (IH d1 Hnd') as (dkeep' & Hrun & Hget & Hkeys).
    { intros k Hk. rewrite Hother.
      - apply Hpres. now right.
      - intros ->. contradiction. }
    exists dkeep'. split; [exact Hrun|]. split; [|now rewrite Hkeys].
    intros k. rewrite Hget.
    destruct (String.eqb_spec k k0) as [->|Hne]; cbn [orb].
    + replace (existsb (String.eqb k0) keys) with false.
      * now rewrite Hk0, Hl0.
      * symmetry. apply not_true_is_false. intros H.
        apply existsb_eqb_In in H. contradiction.
    + now rewrite Hother by exact Hne.
Qed.

(** *** All lines *)

Lemma feed_lines (os : os_env) (keys : list string) (lines : list string) :
  forall dkeep : list (string * list string),
    NoDup keys ->
    (forall k, In k keys -> exists path_list, Dict.get dkeep k = Some path_list) ->
    exists dkeep',
      fold_left
        (fun (acc : result (list (string * list string))) line =>
           fold_left
             (fun (acc : result (list (string * list string))) '(k, value) =>
                dkeep <- acc ;;
                match re_match value line with
                | Some group1 => add_env os group1 k dkeep
                | None => Ok dkeep
                end)
             (map (fun k => (k, k)) keys) acc)
        lines (Ok dkeep)
      = Ok dkeep'
      /\ (forall k,
            In k keys ->
            Dict.get dkeep' k
            = option_map (fun path_list =>
                            (path_list ++ flat_map (paths_of_line os k) lines)%list)
                (Dict.get dkeep k))
      /\ keys_of dkeep' = keys_of dkeep.
Proof.
  induction lines as [|line lines IH]; intros dkeep Hnd Hpres;
    cbn [fold_left flat_map].
  - exists dkeep. split; [reflexivity|]. split; [|reflexivity].
    intros k Hk. destruct (Hpres k Hk) as [l ->]. cbn. now rewrite app_nil_r.
  - destruct (feed_line os line keys dkeep Hnd Hpres)
      as (d1 & -> & Hget1 & Hkeys1).
    assert (Hpres1 : forall k, In k keys ->
                               exists path_list, Dict.get d1 k = Some path_list).
    { intros k Hk. rewrite Hget1. apply existsb_eqb_In in Hk as Hk'.
      rewrite Hk'. destruct (Hpres k Hk) as [l ->]. cbn. eauto. }
    destruct (IH d1 Hnd Hpres1) as (dkeep' & Hrun & Hget & Hkeys).
    exists dkeep'. split; [exact Hrun|]. split; [|now rewrite Hkeys].
    intros k Hk. rewrite (Hget k Hk), Hget1.
    apply existsb_eqb_In in Hk as Hk'. rewrite Hk'.
    destruct (Hpres k Hk) as [l ->]. cbn. now rewrite <- app_assoc.
Qed.

(** *** [strip] leaves none of its characters at either end *)

Lemma lstrip_head (chars s : string) (c : ascii) (t : string) :
  Py.lstrip chars s = String c t -> Py.char_in c chars = false.
Proof.
  induction s as [|x s IH]; cbn [Py.lstrip]; [discriminate|].
  destruct (Py.char_in x chars) eqn:E; [exact IH|].
  now intros [= <- _].
Qed.

Lemma rstrip_head (chars s : string) (c : ascii) (t : string) :
  Py.rstrip chars s = String c t -> exists t0, s = String c t0.
Proof.
  destruct s as [|x s]; cbn [Py.rstrip]; [discriminate|].
  destruct (Py.rstrip chars s).
  - destruct (Py.char_in x chars); [discriminate|]. intros [= <- _]. eauto.
  - intros [= <- _]. eauto.
Qed.

Lemma rstrip_last (chars s a : string) (c : ascii) :
  Py.rstrip chars s = a ++ String c "" -> Py.char_in c chars = false.
Proof.
  revert a. induction s as [|x s IH]; intros a; cbn [Py.rstrip].
  - destruct a; discriminate.
  - destruct (Py.rstrip chars s) as [|k kept] eqn:E.
    + destruct (Py.char_in x chars) eqn:Ex; [destruct a; discriminate|].
      destruct a as [|y a]; cbn [append].
      * now intros [= <-].
      * intros [= _ H]. destruct a; discriminate.
    + destruct a as [|y a]; cbn [append].
      * discriminate.
      * intros [= _ H]. now apply (IH a).
Qed.

Lemma strip_ends (q : ascii) (s : string) :
  Py.startswith (Py.strip (String q "") s) (String q "") = false
  /\ Py.endswith (Py.strip (String q "") s) (String q "") = false.
Proof.
  unfold Py.strip. set (l := Py.lstrip (String q "") s).
  destruct (Py.rstrip (String q "") l) as [|c t] eqn:E.
  - split; reflexivity.
  - split.
    + destruct (rstrip_head _ _ _ _ E) as [t0 Hl].
      apply lstrip_head in Hl. cbn [Py.char_in] in Hl.
      rewrite orb_false_r in Hl. apply Ascii.eqb_neq in Hl.
      now apply startswith_other.
    + destruct (snoc_decompose (String c t)) as (a & d & Had); [discriminate|].
      rewrite Had in *. apply rstrip_last in E. cbn [Py.char_in] in E.
      rewrite orb_false_r in E.
      unfold Py.endswith. rewrite last_chars_snoc.
      replace (String.eqb (String d "") (String q "")) with false;
        [apply andb_false_r|].
      symmetry. apply String.eqb_neq. intros [= ->].
      now rewrite Ascii.eqb_refl in E.
Qed.

(** *** What is collected *)

Lemma parse_output_run (os : os_env) (output : string) (keep : list string) :
  forallb all_word keep = true ->
  exists dkeep,
    parse_output os output keep = Some (Ok dkeep)
    /\ keys_of dkeep = distinct [] keep
    /\ NoDup (keys_of dkeep)
    /\ forall k, In k keep ->
         Dict.get dkeep k
         = Some (flat_map (paths_of_line os k) (splitlines output)).
Proof.
  intros Hall. unfold parse_output. rewrite Hall.
  pose proof (build_keys (fun _ : string => @nil string) keep []) as Hd.
  pose proof (build_keys (fun i : string => i) keep []) as Hr.
  cbn [map app] in Hd, Hr. rewrite Hd, Hr. clear Hd Hr.
  destruct (distinct_spec keep [] (NoDup_nil _)) as [Hnd Hin].
  cbn [app] in Hnd, Hin.
  set (K := distinct [] keep) in *.
  assert (Hkeys0 : keys_of (map (fun k : string => (k, @nil string)) K) = K).
  { unfold keys_of. rewrite map_map. cbn [fst]. apply map_id. }
  destruct (feed_lines os K (splitlines output)
              (map (fun k : string => (k, @nil string)) K) Hnd)
    as (dkeep & Hrun & Hget & Hkeys).
  { intros k Hk. exists []. rewrite get_map_keys.
    apply existsb_eqb_In in Hk. now rewrite Hk. }
  exists dkeep. split; [now rewrite Hrun|].
  rewrite Hkeys, Hkeys0. split; [reflexivity|]. split; [exact Hnd|].
  intros k Hk. assert (HkK : In k K) by (apply Hin; now right).
  rewrite (Hget k HkK), get_map_keys.
  apply existsb_eqb_In in HkK. now rewrite HkK.
Qed.

Lemma In_get (V : Type) (d : list (string * V)) (k : string) (v : V) :
  NoDup (keys_of d) -> In (k, v) d -> Dict.get d k = Some v.
Proof.
  unfold keys_of. induction d as [|[k0 v0] d IH]; intros Hnd Hin; [destruct Hin|].
  cbn [map fst] in Hnd. inversion Hnd as [|x l Hnotin Hnd']; subst.
  cbn [Dict.get]. destruct Hin as [[= -> ->]|Hin].
  - now rewrite String.eqb_refl.
  - destruct (String.eqb_spec k0 k) as [->|Hne]; [|now apply IH].
    exfalso. apply Hnotin. apply (in_map fst) in Hin. exact Hin.
Qed.

(** X23.  What [parse_output] collects.  For keys of letters, digits and
    underscores, it returns a dictionary whose keys are those of [keep],
    each once, in the order of their first occurrences, and which gives a
    key the paths of the lines that start with the key, in any letter case,
    and an equals sign, in the order of the lines: what follows the equals
    sign, cut at [os.pathsep], without the empty pieces, each piece stripped
    of double quotes at both ends. *)
Theorem parse_output_collects (os : os_env) (output : string)
    (keep : list string) (k : string) :
  forallb all_word keep = true ->
  In k keep ->
  exists dkeep,
    parse_output os output keep = Some (Ok dkeep)
    /\ keys_of dkeep = distinct [] keep
    /\ Dict.get dkeep k
       = Some (flat_map (paths_of_line os k) (splitlines output)).
Proof.
  intros Hall Hk.
  destruct (parse_output_run os output keep Hall) as (dkeep & Hrun & Hkeys & _ & Hget).
  exists dkeep. auto.
Qed.

Lemma parse_output_collects_witness :
  exists dkeep,
    parse_output (SampleOs.windows [])
      ("Path=C:\VC\bin;" ++ DQUOTE ++ "C:\Program Files\SDK" ++ DQUOTE ++ ";"
       ++ String "013" (String "010" "LIBPATH=C:\VC\lib"))
      KEEPLIST
    = Some (Ok dkeep)
    /\ keys_of dkeep = distinct [] KEEPLIST
    /\ Dict.get dkeep "PATH"
       = Some (flat_map (paths_of_line (SampleOs.windows []) "PATH")
                 (splitlines
                    ("Path=C:\VC\bin;" ++ DQUOTE ++ "C:\Program Files\SDK"
                     ++ DQUOTE ++ ";"
                     ++ String "013" (String "010" "LIBPATH=C:\VC\lib")))).
Proof.
  apply (parse_output_collects (SampleOs.windows []) _ KEEPLIST "PATH").
  - reflexivity.
  - do 3 right. left. reflexivity.
Defined.

(** X24.  No path that [parse_output] stores starts or ends with a double
    quote. *)
Theorem parse_output_paths_unquoted (os : os_env) (output : string)
    (keep : list string) (dkeep : list (string * list string))
    (k : string) (path_list : list string) (path : string) :
  forallb all_word keep = true ->
  parse_output os output keep = Some (Ok dkeep) ->
  In (k, path_list) dkeep ->
  In path path_list ->
  Py.startswith path DQUOTE = false /\ Py.endswith path DQUOTE = false.
Proof.
  intros Hall Hrun Hin Hpath.
  destruct (parse_output_run os output keep Hall)
    as (dkeep' & Hrun' & Hkeys & Hnd & Hget).
  rewrite Hrun in Hrun'. injection Hrun' as <-.
  assert (Hk : In k keep).
  { destruct (distinct_spec keep [] (NoDup_nil _)) as [_ Hspec].
    cbn [app] in Hspec. rewrite <- Hkeys in Hspec.
    destruct (proj1 (Hspec k)) as [[]|H]; [|exact H].
    unfold keys_of. apply (in_map fst) in Hin. exact Hin. }
  specialize (Hget k Hk). rewrite (In_get _ _ _ _ Hnd Hin) in Hget.
  injection Hget as ->.
  apply in_flat_map in Hpath as (line & _ & Hpath).
  unfold paths_of_line in Hpath.
  destruct (re_match k line) as [group1|]; [|destruct Hpath].
  apply in_map_iff in Hpath as (piece & <- & _).
  apply strip_ends.
Qed.

Lemma parse_output_paths_unquoted_witness :
  Py.startswith "C:\Program Files\SDK" DQUOTE = false
  /\ Py.endswith "C:\Program Files\SDK" DQUOTE = false.
Proof.
  apply (parse_output_paths_unquoted (SampleOs.windows [])
           ("Path=C:\VC\bin;" ++ DQUOTE ++ "C:\Program Files\SDK" ++ DQUOTE ++ ";")
           KEEPLIST
           [ ("INCLUDE", []); ("LIB", []); ("LIBPATH", []);
             ("PATH", ["C:\VC\bin"; "C:\Program Files\SDK"]);
             ("VSCMD_ARG_app_plat", []); ("VCINSTALLDIR", []);
             ("VCToolsInstallDir", []) ]
           "PATH" ["C:\VC\bin"; "C:\Program Files\SDK"] "C:\Program Files\SDK").
  - reflexivity.
  - reflexivity.
  - do 3 right. left. reflexivity.
  - right. left. reflexivity.
Defined.

(** ** The scope filter without AllFramesOneBelow *)

Lemma pair_in_single (a b x y : string) :
  pair_in (a, b) [(x, y)] = true -> a = x /\ b = y.
Proof.
  unfold pair_in. cbn [existsb fst snd]. rewrite orb_false_r.
  intros H. apply andb_true_iff in H as [H1 H2].
  apply String.eqb_eq in H1, H2. auto.
Qed.

(** X25.  Without AllFramesOneBelow the tracer shows the home module only.
    An accepted event is an event of a frame whose enclosing module is the
    home module, the one exception being, when debug output goes to a log
    file, the call of [debug] of [lib/logging/__init__] from the home
    module; and no accepted call is that of a function whose name starts
    with [<]. *)
Theorem default_scope (cfg : config) (frame : FrameType) (event : string) :
  DISPLAY_ALLFRAMES_ONEBELOW cfg = false ->
  accepted cfg frame event = true ->
  (is_parent (callee_parent frame) = true
   \/ (DEBUG_LOGGING cfg = true /\ event = "call"
       /\ relmodule_of frame = "lib/logging/__init__"
       /\ co_name (f_code frame) = "debug"
       /\ is_parent (caller_parent frame) = true))
  /\ (event <> "return" ->
      Py.startswith (co_name (f_code frame)) "<" = false).
Proof.
  intros Hall Ha. unfold accepted in Ha.
  apply andb_true_iff in Ha as [Ha Hign].
  apply andb_true_iff in Ha as [_ Hscope].
  split.
  - apply orb_true_iff in Hscope as [H|H]; [now left|right].
    apply andb_true_iff in H as [Hcaller Hallowed].
    unfold is_allowed in Hallowed. rewrite Hall in Hallowed.
    destruct (String.eqb_spec event "call") as [->|]; [|discriminate].
    cbn [andb] in Hallowed. unfold DEBUG_ALLOWLIST_ENABLED in Hallowed.
    destruct (DEBUG_LOGGING cfg); [|discriminate]. cbn [andb] in Hallowed.
    destruct (pair_in _ DEBUG_ALLOWLIST_FUNCTIONS) eqn:Hp; [|discriminate].
    apply pair_in_single in Hp as [H1 H2]. auto.
  - intros Hev. unfold is_ignored in Hign.
    destruct (String.eqb_spec event "return") as [|_]; [contradiction|].
    destruct (DEBUG_IGNORELIST_ENABLED && _); [discriminate|].
    rewrite Hall in Hign.
    destruct (co_name (f_code frame)) as [|c s]; [discriminate|].
    destruct (Ascii.eqb_spec c "<") as [->|Hc]; [discriminate|].
    now apply startswith_other.
Qed.

Lemma default_scope_witness :
  (is_parent (callee_parent Samples.find_vc_pdir) = true
   \/ (DEBUG_LOGGING {| TRACEFLAGS := 7; DEBUG_LOGGING := false |} = true
       /\ "call" = "call"
       /\ relmodule_of Samples.find_vc_pdir = "lib/logging/__init__"
       /\ co_name (f_code Samples.find_vc_pdir) = "debug"
       /\ is_parent (caller_parent Samples.find_vc_pdir) = true))
  /\ ("call" <> "return" ->
      Py.startswith (co_name (f_code Samples.find_vc_pdir)) "<" = false).
Proof.
  apply (default_scope {| TRACEFLAGS := 7; DEBUG_LOGGING := false |}
           Samples.find_vc_pdir "call"); reflexivity.
Defined.

(** ** Frames of the home module *)

Lemma last_items_two {A : Type} (l : list A) (x y : A) :
  Py.last_items 2 (l ++ [x; y])%list = [x; y].
Proof.
  unfold Py.last_items. rewrite length_app. cbn [List.length].
  replace (List.length l + 2 - 2)%nat with (List.length l) by lia.
  rewrite skipn_app, Nat.sub_diag, skipn_all. reflexivity.
Qed.

Lemma replace_absent (a b : ascii) (s : string) :
  Py.char_in a s = false -> Py.replace a b s = s.
Proof.
  induction s as [|c s IH]; cbn [Py.char_in Py.replace]; [reflexivity|].
  intros H. apply orb_false_iff in H as [Hc Hs].
  rewrite Ascii.eqb_sym in Hc. now rewrite Hc, IH.
Qed.

(** X26.  The files of the home directory are the home module's.  For a
    file [leaf.ext] directly in a directory [MSCommon], whatever lies above
    it and whichever of the two separators the path is written with,
    [get_module] and the split at [/] give [MSCommon] as the enclosing
    module and [leaf] as the module, so that the scope filter takes a frame
    of that file for one of the home module. *)
Theorem home_directory_module (dir leaf ext : string) (sep1 sep2 : ascii) :
  (sep1 = "/"%char \/ sep1 = "\"%char) ->
  (sep2 = "/"%char \/ sep2 = "\"%char) ->
  plain leaf ->
  Py.char_in "." ext = false ->
  Py.startswith dir "<" = false ->
  dir <> "" ->
  let filename :=
    dir ++ String sep1 (PARENT_MODULE ++ String sep2 (leaf ++ String "." ext)) in
  parent_and_leaf (get_module filename) = (Some PARENT_MODULE, Some leaf)
  /\ is_parent (fst (parent_and_leaf (get_module filename))) = true.
Proof.
  intros Hs1 Hs2 (Hne & Hdot & Hslash & Hback) Hext Hlt Hdir filename.
  assert (Hcut : get_module filename
                 = Py.replace "\" "/"
                     (dir ++ String sep1 (PARENT_MODULE ++ String sep2 leaf))).
  { unfold filename.
    replace (dir ++ String sep1 (PARENT_MODULE ++ String sep2 (leaf ++ String "." ext)))
      with ((dir ++ String sep1 (PARENT_MODULE ++ String sep2 leaf)) ++ String "." ext).
    - rewrite get_module_plain; [now apply strip_extension_dot|].
      destruct dir as [|c d]; [congruence|].
      unfold Py.startswith in *. cbn [append]. rewrite prefix_chr in *.
      exact Hlt.
    - rewrite !append_assoc. cbn [append]. rewrite !append_assoc.
      reflexivity. }
  assert (Hrep : Py.replace "\" "/"
                   (dir ++ String sep1 (PARENT_MODULE ++ String sep2 leaf))
                 = Py.replace "\" "/" dir
                   ++ String "/" (PARENT_MODULE ++ String "/" leaf)).
  { rewrite replace_app. cbn [Py.replace]. rewrite replace_app.
    cbn [Py.replace]. rewrite (replace_absent "\" "/" leaf Hback).
    f_equal. f_equal; [destruct Hs1; subst; reflexivity|].
    f_equal. f_equal. destruct Hs2; subst; reflexivity. }
  assert (Hpair : parent_and_leaf (get_module filename)
                  = (Some PARENT_MODULE, Some leaf)).
  { rewrite Hcut, Hrep. unfold parent_and_leaf.
    rewrite split_app, split_app.
    rewrite (split_none "/" leaf Hslash).
    replace (Py.split "/" PARENT_MODULE) with [PARENT_MODULE] by reflexivity.
    cbn [app]. rewrite last_items_two. reflexivity. }
  split; [exact Hpair|]. rewrite Hpair. reflexivity.
Qed.

Lemma home_directory_module_witness :
  parent_and_leaf
    (get_module
       ("C:\scons\SCons\Tool"
        ++ String "\" (PARENT_MODULE ++ String "\" ("vc" ++ String "." "py"))))
  = (Some PARENT_MODULE, Some "vc")
  /\ is_parent
       (fst (parent_and_leaf
               (get_module
                  ("C:\scons\SCons\Tool"
                   ++ String "\" (PARENT_MODULE
                                  ++ String "\" ("vc" ++ String "." "py"))))))
     = true.
Proof.
  apply (home_directory_module "C:\scons\SCons\Tool" "vc" "py" "\" "\").
  - now right.
  - now right.
  - repeat split; try reflexivity; discriminate.
  - reflexivity.
  - reflexivity.
  - discriminate.
Defined.
